(** * wgengine/packet: the IPv4 packet decoder and ICMP builder

    A shallow embedding of [wgengine/packet/packet.go] and the properties
    its specification states about it, with the key sanitisation of
    [ipn/store/kubestore/store_kube.go].

    Conventions of the embedding:
    - a Go [[]byte] is a [list byte]; the nil slice and the empty slice are
      both [[]], except in the record field [q.b], where nil is [None];
    - slices are taken without spare capacity ([cap(s) = len(s)]), so a
      slice expression is in range exactly when it stays inside the list;
    - [uint8], [uint16], [uint32] are [Z] with the wrap-around written out;
      [int] is 64-bit and wraps through [int];
    - a run-time panic (index or slice out of range) is [Panic]. *)

From Stdlib Require Import ZArith Lia.
From Stdlib Require Strings.Byte.
From Stdlib Require Import Strings.String Strings.Ascii.
From Stdlib Require Import DecimalString.
From Stdlib Require DecimalN DecimalPos.
From Stdlib Require HexadecimalString.
From stdpp Require Import base list.

Local Open Scope Z_scope.

(** ** Bytes and fixed-width integers *)

Abbreviation byte := Init.Byte.byte.

Definition byte_val (x : byte) : Z := Z.of_N (Byte.to_N x).

Definition uint8 (z : Z) : Z := z mod 2 ^ 8.
Definition uint16 (z : Z) : Z := z mod 2 ^ 16.
Definition uint32 (z : Z) : Z := z mod 2 ^ 32.
Definition int (z : Z) : Z := (z + 2 ^ 63) mod 2 ^ 64 - 2 ^ 63.

(** The conversion [byte(z)]: the low eight bits. *)
Definition mk_byte (z : Z) : byte :=
  match Byte.of_N (Z.to_N (uint8 z)) with
  | Some x => x
  | None => Byte.x00
  end.

(** ** Panics *)

Inductive result (A : Type) : Type :=
| Ok (a : A)
| Panic.
Arguments Ok {A} a.
Arguments Panic {A}.

#[global] Instance result_ret : MRet result := fun A a => Ok a.
#[global] Instance result_bind : MBind result := fun A B f r =>
  match r with
  | Ok a => f a
  | Panic => Panic
  end.

(** ** Slices *)

Definition len (s : list byte) : Z := Z.of_nat (length s).

(** [s[i]], as the [uint8] it holds *)
Definition index (s : list byte) (i : Z) : result Z :=
  if i <? 0 then Panic
  else match s !! Z.to_nat i with
       | Some x => Ok (byte_val x)
       | None => Panic
       end.

(** [s[lo:hi]] *)
Definition slice (s : list byte) (lo hi : Z) : result (list byte) :=
  if (0 <=? lo) && (lo <=? hi) && (hi <=? len s)
  then Ok (take (Z.to_nat (hi - lo)) (drop (Z.to_nat lo) s))
  else Panic.

(** [s[lo:]] *)
Definition slice_from (s : list byte) (lo : Z) : result (list byte) :=
  slice s lo (len s).

(** [s[:hi]] *)
Definition slice_to (s : list byte) (hi : Z) : result (list byte) :=
  slice s 0 hi.

(** [s[i] = byte(v)] *)
Definition store (s : list byte) (i : Z) (v : Z) : result (list byte) :=
  if (0 <=? i) && (i <? len s) then Ok (<[Z.to_nat i := mk_byte v]> s) else Panic.

(** [make([]byte, n)] *)
Definition make (n : Z) : list byte := replicate (Z.to_nat n) Byte.x00.

(** [copy(dst[lo:], src)], as seen in [dst]: the first
    [min(len(dst[lo:]), len(src))] bytes of [src] land at offset [lo]. *)
Definition copy_at (dst : list byte) (lo : Z) (src : list byte)
  : result (list byte) :=
  d ← slice_from dst lo;
  let n := Z.to_nat (Z.min (len d) (len src)) in
  Ok (take (Z.to_nat lo) dst ++ take n src ++ drop n d).

(** ** encoding/binary, big endian *)

(** [binary.BigEndian.Uint16(s)] *)
Definition Uint16 (s : list byte) : result Z :=
  x1 ← index s 1;
  x0 ← index s 0;
  Ok (Z.lor x1 (Z.shiftl x0 8)).

(** [binary.BigEndian.Uint32(s)] *)
Definition Uint32 (s : list byte) : result Z :=
  x3 ← index s 3;
  x2 ← index s 2;
  x1 ← index s 1;
  x0 ← index s 0;
  Ok (Z.lor (Z.lor (Z.lor x3 (Z.shiftl x2 8)) (Z.shiftl x1 16)) (Z.shiftl x0 24)).

(** [put16(out[lo:lo+2], v)]: the two bytes are written through the
    sub-slice into [out] itself. *)
Definition put16 (out : list byte) (lo : Z) (v : Z) : result (list byte) :=
  _ ← slice out lo (lo + 2);
  out ← store out lo (Z.shiftr v 8);
  store out (lo + 1) v.

(** [put32(out[lo:lo+4], v)] *)
Definition put32 (out : list byte) (lo : Z) (v : Z) : result (list byte) :=
  _ ← slice out lo (lo + 4);
  out ← store out lo (Z.shiftr v 24);
  out ← store out (lo + 1) (Z.shiftr v 16);
  out ← store out (lo + 2) (Z.shiftr v 8);
  store out (lo + 3) v.

(** ** The data model *)

Inductive IPProto : Type := Junk | Fragment | ICMP | UDP | TCP.

Definition IPProto_eqb (p r : IPProto) : bool :=
  match p, r with
  | Junk, Junk | Fragment, Fragment | ICMP, ICMP | UDP, UDP | TCP, TCP => true
  | _, _ => false
  end.

(** RFC1858: max IPv4 header + basic TCP header. *)
Definition minFrag : Z := 60 + 20.

Definition IPProto_String (p : IPProto) : string :=
  match p with
  | Fragment => "Frag"
  | ICMP => "ICMP"
  | UDP => "UDP"
  | TCP => "TCP"
  | Junk => "Junk"
  end.

Definition ICMPEchoReply : Z := 0x00.
Definition ICMPEchoRequest : Z := 0x08.
Definition ICMPUnreachable : Z := 0x03.
Definition ICMPTimeExceeded : Z := 0x0b.

Definition TCPSyn : Z := 0x02.
Definition TCPAck : Z := 0x10.
Definition TCPSynAck : Z := Z.lor TCPSyn TCPAck.

Record QDecode : Type := mkQDecode {
  q_b : option (list byte);   (* packet buffer that this decodes; nil is None *)
  q_subofs : Z;               (* byte offset of IP subprotocol *)
  q_IPProto : IPProto;
  q_SrcIP : Z;
  q_DstIP : Z;
  q_SrcPort : Z;
  q_DstPort : Z;
  q_TCPFlags : Z
}.

(** The zero value [QDecode{}]. *)
Definition zeroQ : QDecode := mkQDecode None 0 Junk 0 0 0 0 0.

Definition with_b (v : option (list byte)) (q : QDecode) : QDecode :=
  mkQDecode v (q_subofs q) (q_IPProto q) (q_SrcIP q) (q_DstIP q)
            (q_SrcPort q) (q_DstPort q) (q_TCPFlags q).
Definition with_subofs (v : Z) (q : QDecode) : QDecode :=
  mkQDecode (q_b q) v (q_IPProto q) (q_SrcIP q) (q_DstIP q)
            (q_SrcPort q) (q_DstPort q) (q_TCPFlags q).
Definition with_IPProto (v : IPProto) (q : QDecode) : QDecode :=
  mkQDecode (q_b q) (q_subofs q) v (q_SrcIP q) (q_DstIP q)
            (q_SrcPort q) (q_DstPort q) (q_TCPFlags q).
Definition with_SrcIP (v : Z) (q : QDecode) : QDecode :=
  mkQDecode (q_b q) (q_subofs q) (q_IPProto q) v (q_DstIP q)
            (q_SrcPort q) (q_DstPort q) (q_TCPFlags q).
Definition with_DstIP (v : Z) (q : QDecode) : QDecode :=
  mkQDecode (q_b q) (q_subofs q) (q_IPProto q) (q_SrcIP q) v
            (q_SrcPort q) (q_DstPort q) (q_TCPFlags q).
Definition with_SrcPort (v : Z) (q : QDecode) : QDecode :=
  mkQDecode (q_b q) (q_subofs q) (q_IPProto q) (q_SrcIP q) (q_DstIP q)
            v (q_DstPort q) (q_TCPFlags q).
Definition with_DstPort (v : Z) (q : QDecode) : QDecode :=
  mkQDecode (q_b q) (q_subofs q) (q_IPProto q) (q_SrcIP q) (q_DstIP q)
            (q_SrcPort q) v (q_TCPFlags q).
Definition with_TCPFlags (v : Z) (q : QDecode) : QDecode :=
  mkQDecode (q_b q) (q_subofs q) (q_IPProto q) (q_SrcIP q) (q_DstIP q)
            (q_SrcPort q) (q_DstPort q) v.

(** The bytes a record can read: none when [q.b] is nil. *)
Definition buf (q : QDecode) : list byte := default [] (q_b q).

(** ** Methods that write the record: state of the record, and panics

    A computation on a [*QDecode] either returns with the record as it
    left it, or panics, the record staying as it was at that point. *)

Inductive outcome (A : Type) : Type :=
| Returned (a : A) (q : QDecode)
| Panicked (q : QDecode).
Arguments Returned {A} a q.
Arguments Panicked {A} q.

Definition M (A : Type) : Type := QDecode -> outcome A.

#[global] Instance M_ret : MRet M := fun A a q => Returned a q.
#[global] Instance M_bind : MBind M := fun A B f m q =>
  match m q with
  | Returned a q' => f a q'
  | Panicked q' => Panicked q'
  end.

Definition get : M QDecode := fun q => Returned q q.
Definition modify (f : QDecode -> QDecode) : M unit := fun q => Returned tt (f q).
Definition lift {A} (r : result A) : M A := fun q =>
  match r with
  | Ok a => Returned a q
  | Panic => Panicked q
  end.

(** Whether a computation returned. *)
Definition returned {A} (o : outcome A) : bool :=
  match o with
  | Returned _ _ => true
  | Panicked _ => false
  end.

(** The record a computation leaves behind, however it ended. *)
Definition final {A} (o : outcome A) : QDecode :=
  match o with
  | Returned _ q => q
  | Panicked q => q
  end.

(** ** The string builder *)

(** Modelled from the spec: [strbuilder.Builder], of the package
    [tailscale.com/types/strbuilder] that [packet.go] imports and that is
    not among the sources. A builder accumulates the text written to it. *)
Definition Builder : Type := string.

(** Modelled from the spec: [strbuilder.Get], a builder with no text yet. *)
Definition strbuilder_Get : Builder := EmptyString.

(** Modelled from the spec: [Builder.WriteString] appends a string. *)
Definition WriteString (sb : Builder) (s : string) : Builder := append sb s.

(** Modelled from the spec: [Builder.WriteByte] appends one character. *)
Definition WriteByte (sb : Builder) (c : ascii) : Builder :=
  append sb (String c EmptyString).

(** Modelled from the spec: [Builder.WriteUint] appends the decimal
    rendering of an unsigned integer, as the rendering
    [<PROTO>{srcIP:srcPort > dstIP:dstPort}] of a record requires. *)
Definition WriteUint (sb : Builder) (n : Z) : Builder :=
  append sb (NilZero.string_of_uint (N.to_uint (Z.to_N n))).

(** [byte(ip >> k)], as a number *)
Definition octet (ip : Z) (k : Z) : Z := uint8 (Z.shiftr ip k).

Definition writeIPPort (sb : Builder) (ip : Z) (port : Z) : Builder :=
  let sb := WriteUint sb (octet ip 24) in
  let sb := WriteByte sb "." in
  let sb := WriteUint sb (octet ip 16) in
  let sb := WriteByte sb "." in
  let sb := WriteUint sb (octet ip 8) in
  let sb := WriteByte sb "." in
  let sb := WriteUint sb (octet ip 0) in
  let sb := WriteByte sb ":" in
  WriteUint sb port.

Definition QDecode_String (q : QDecode) : string :=
  if IPProto_eqb (q_IPProto q) Junk then "Junk{}"
  else
    let sb := strbuilder_Get in
    let sb := WriteString sb (IPProto_String (q_IPProto q)) in
    let sb := WriteByte sb "{" in
    let sb := writeIPPort sb (q_SrcIP q) (q_SrcPort q) in
    let sb := WriteString sb " > " in
    let sb := writeIPPort sb (q_DstIP q) (q_DstPort q) in
    let sb := WriteByte sb "}" in
    sb.

(** ** The Internet checksum (RFC 1071) *)

(** The first loop of [ipChecksum] as it is written,
    [for n >= 2 { ac += uint32(Uint16(b[i:i+2])); n -= 2; i += 2 }],
    run for at most [fuel] rounds; [ac] is a [uint32] and wraps. *)
Fixpoint sum_loop (fuel : nat) (b : list byte) (ac i n : Z)
  : result (Z * Z * Z) :=
  match fuel with
  | O => Ok (ac, i, n)
  | S fuel' =>
      if 2 <=? n then
        w ← slice b i (i + 2) ≫= Uint16;
        sum_loop fuel' b (uint32 (ac + w)) (i + 2) (n - 2)
      else Ok (ac, i, n)
  end.

(** The second loop, [for (ac >> 16) > 0 { ac = (ac >> 16) + (ac & 0xffff) }],
    run for at most [fuel] rounds. *)
Fixpoint fold16 (fuel : nat) (ac : Z) : Z :=
  match fuel with
  | O => ac
  | S fuel' =>
      if 0 <? Z.shiftr ac 16
      then fold16 fuel' (uint32 (Z.shiftr ac 16 + Z.land ac 0xffff))
      else ac
  end.

(** [ipChecksum], statement by statement. [len(b)] rounds are enough for
    the first loop and two for the second ([ipChecksum_eq] and
    [fold16_done] below). *)
Definition ipChecksum (b : list byte) : result Z :=
  st ← sum_loop (length b) b 0 0 (len b);
  let '(ac, i, n) := st in
  ac ← (if n =? 1
        then x ← index b i; Ok (uint32 (ac + uint32 (Z.shiftl x 8)))
        else Ok ac);
  let ac := fold16 2 ac in
  Ok (uint16 (uint32 (Z.lnot ac))).

(** The same sum by recursion on the rest [b[i:]] of the buffer: two bytes
    at a time, then the odd trailing byte. *)
Fixpoint sum16 (ac : Z) (b : list byte) : Z :=
  match b with
  | x0 :: x1 :: rest =>
      sum16 (uint32 (ac + Z.lor (byte_val x1) (Z.shiftl (byte_val x0) 8))) rest
  | [x0] => uint32 (ac + Z.shiftl (byte_val x0) 8)
  | [] => ac
  end.

(** The checksum as a total function: the value [ipChecksum] returns, on
    every buffer ([ipChecksum_eq]). *)
Definition ipChecksum_value (b : list byte) : Z :=
  let ac := sum16 0 b in
  let ac := fold16 2 ac in
  uint16 (uint32 (Z.lnot ac)).

(** ** The ICMP builder *)

(** [None] is the nil result. *)
Definition GenICMP (srcIP dstIP : Z) (ipid : Z) (icmpType icmpCode : Z)
    (payload : list byte) : result (option (list byte)) :=
  if len payload <? 4 then Ok None
  else if 65535 - 24 <? len payload then Ok None
  else
    let sz := 24 + len payload in
    let out := make (24 + len payload) in
    out ← store out 0 0x45;
    out ← store out 1 0x00;
    out ← put16 out 2 (uint16 sz);
    out ← put16 out 4 ipid;
    out ← put16 out 6 0;
    out ← store out 8 64;
    out ← store out 9 0x01;
    out ← put32 out 12 srcIP;
    out ← put32 out 16 dstIP;
    out ← store out 20 icmpType;
    out ← store out 21 icmpCode;
    out ← copy_at out 24 payload;
    hdr ← slice out 0 20;
    ck ← ipChecksum hdr;
    out ← put16 out 10 ck;
    ck ← ipChecksum out;
    out ← put16 out 22 ck;
    Ok (Some out).

(** ** The decoder *)

Definition Decode (b : list byte) : M unit :=
  modify (with_b None);;
  if len b <? 20 then modify (with_IPProto Junk)
  else
    v ← lift (index b 0);
    if negb (Z.shiftr (Z.land v 0xF0) 4 =? 4) then modify (with_IPProto Junk)
    else
      n ← lift (slice b 2 4 ≫= Uint16);
      if len b <? n then modify (with_IPProto Junk)
      else
        src ← lift (slice b 12 16 ≫= Uint32);
        modify (with_SrcIP src);;
        dst ← lift (slice b 16 20 ≫= Uint32);
        modify (with_DstIP dst);;
        v ← lift (index b 0);
        modify (with_subofs (uint8 (Z.land v 0x0F * 4)));;
        q ← get;
        sub ← lift (slice_from b (q_subofs q));
        fragFlags ← lift (slice b 6 8 ≫= Uint16);
        let moreFrags := negb (Z.land fragFlags 0x20 =? 0) in
        let fragOfs := Z.land fragFlags 0x1FFF in
        if fragOfs =? 0 then
          (* the log line of the source is not modelled *)
          if moreFrags && (len sub <? minFrag) then modify (with_IPProto Junk)
          else
            proto ← lift (index b 9);
            if proto =? 1 then
              if len sub <? 8 then modify (with_IPProto Junk)
              else
                modify (with_IPProto ICMP);;
                modify (with_SrcPort 0);;
                modify (with_DstPort 0);;
                modify (with_b (Some b))
            else if proto =? 6 then
              if len sub <? 20 then modify (with_IPProto Junk)
              else
                modify (with_IPProto TCP);;
                sp ← lift (slice sub 0 2 ≫= Uint16);
                modify (with_SrcPort sp);;
                dp ← lift (slice sub 2 4 ≫= Uint16);
                modify (with_DstPort dp);;
                fl ← lift (index sub 13);
                modify (with_TCPFlags (Z.land fl 0x3F));;
                modify (with_b (Some b))
            else if proto =? 17 then
              if len sub <? 8 then modify (with_IPProto Junk)
              else
                modify (with_IPProto UDP);;
                sp ← lift (slice sub 0 2 ≫= Uint16);
                modify (with_SrcPort sp);;
                dp ← lift (slice sub 2 4 ≫= Uint16);
                modify (with_DstPort dp);;
                modify (with_b (Some b))
            else modify (with_IPProto Junk)
        else
          if fragOfs <? minFrag then modify (with_IPProto Junk)
          else modify (with_IPProto Fragment).

(** ** Accessors and predicates *)

(** [q.b[q.subofs+begin : q.subofs+begin+n]] *)
Definition Sub (q : QDecode) (begin n : Z) : result (list byte) :=
  slice (buf q) (int (q_subofs q + begin)) (int (int (q_subofs q + begin) + n)).

Definition Trim (q : QDecode) : result (list byte) :=
  n ← slice (buf q) 2 4 ≫= Uint16;
  slice_to (buf q) n.

Definition IsTCPSyn (q : QDecode) : bool :=
  Z.land (q_TCPFlags q) TCPSynAck =? TCPSyn.

Definition IsError (q : QDecode) : result bool :=
  if IPProto_eqb (q_IPProto q) ICMP && (int (q_subofs q + 8) <=? len (buf q)) then
    t ← index (buf q) (q_subofs q);
    if (t =? ICMPUnreachable) || (t =? ICMPTimeExceeded) then Ok true
    else Ok false
  else Ok false.

Definition IsEchoRequest (q : QDecode) : result bool :=
  if IPProto_eqb (q_IPProto q) ICMP && (int (q_subofs q + 8) <=? len (buf q)) then
    t ← index (buf q) (q_subofs q);
    if t =? ICMPEchoRequest then
      c ← index (buf q) (int (q_subofs q + 1));
      Ok (c =? 0)
    else Ok false
  else Ok false.

Definition IsEchoResponse (q : QDecode) : result bool :=
  if IPProto_eqb (q_IPProto q) ICMP && (int (q_subofs q + 8) <=? len (buf q)) then
    t ← index (buf q) (q_subofs q);
    if t =? ICMPEchoReply then
      c ← index (buf q) (int (q_subofs q + 1));
      Ok (c =? 0)
    else Ok false
  else Ok false.

Definition EchoRespond (q : QDecode) : result (option (list byte)) :=
  icmpid ← Sub q 4 2 ≫= Uint16;
  b ← Trim q;
  payload ← slice_from b (int (q_subofs q + 4));
  GenICMP (q_DstIP q) (q_SrcIP q) icmpid ICMPEchoReply 0 payload.

(** ** Test data *)

Definition bytes_of (l : list Z) : list byte := map mk_byte l.

(** 10.0.0.1:5000 > 10.0.0.2:53, UDP, total length 28. *)
Definition udp_example : list byte := bytes_of
  [0x45; 0; 0; 28; 0; 0; 0; 0; 64; 17; 0; 0; 10; 0; 0; 1; 10; 0; 0; 2;
   0x13; 0x88; 0; 53; 0; 8; 0; 0].

(** The same datagram as a first fragment with more fragments to come
    (fragmentation word [0x2000]) and 8 bytes after the IP header. *)
Definition udp_first_fragment : list byte := bytes_of
  [0x45; 0; 0; 28; 0; 0; 0x20; 0; 64; 17; 0; 0; 10; 0; 0; 1; 10; 0; 0; 2;
   0x13; 0x88; 0; 53; 0; 8; 0; 0].

(** A bare 20-byte buffer whose header-length nibble announces 24 bytes. *)
Definition ihl_overrun : list byte := bytes_of
  [0x46; 0; 0; 20; 0; 0; 0; 0; 64; 17; 0; 0; 10; 0; 0; 1; 10; 0; 0; 2].

(** A later fragment at the given offset (in 8-byte units, as the header
    holds it), and one with a header-length nibble beyond the buffer. *)
Definition fragment_at (ofs : Z) : list byte := bytes_of
  [0x45; 0; 0; 28; 0; 0; Z.shiftr ofs 8; ofs; 64; 17; 0; 0;
   10; 0; 0; 1; 10; 0; 0; 2; 1; 2; 3; 4; 5; 6; 7; 8].
Definition fragment_overrun : list byte := bytes_of
  [0x46; 0; 0; 20; 0; 0; 0; 100; 64; 17; 0; 0; 10; 0; 0; 1; 10; 0; 0; 2].

(** Echo requests from 1.2.3.4 to 5.6.7.8, identifier [0x0102], sequence
    [0x0304], in a 28-byte buffer: one declaring all 28 bytes, one
    declaring 27. *)
Definition echo_request (total : Z) : list byte := bytes_of
  [0x45; 0; Z.shiftr total 8; total; 0; 0; 0; 0; 64; 1; 0; 0;
   1; 2; 3; 4; 5; 6; 7; 8; 8; 0; 0; 0; 1; 2; 3; 4].

(** A 65535-byte buffer with header-length nibble 1: type 8 and code 0 sit
    at offset 4, and 65527 bytes follow offset 8. *)
Definition echo_request_long : list byte :=
  bytes_of [0x41; 0; 0xff; 0xff; 8; 0; 0; 0; 64; 1; 0; 0; 1; 2; 3; 4; 5; 6; 7; 8]
    ++ replicate (Z.to_nat 65515) Byte.x00.

(** An echo request from 1.2.3.4 to 5.6.7.8 with identifier 0, sequence
    number 0 and no data; its ICMP checksum is [0xf7ff]. *)
Definition zero_echo_request : list byte := bytes_of
  [0x45; 0; 0; 28; 0; 0; 0; 0; 64; 1; 0; 0; 1; 2; 3; 4; 5; 6; 7; 8;
   8; 0; 0xf7; 0xff; 0; 0; 0; 0].

(** A buffer whose bytes 1 and 2 hold the checksum taken with them zeroed. *)
Definition misaligned_field : list byte := bytes_of [0x01; 0xfe; 0xff; 0x00].

(** ** Vocabulary of the statements *)

(** Big-endian values, positionally. *)
Definition be16 (x0 x1 : Z) : Z := x0 * 256 + x1.
Definition be32 (x0 x1 x2 x3 : Z) : Z :=
  x0 * 16777216 + x1 * 65536 + x2 * 256 + x3.

(** The sum of the 16-bit big-endian words of a buffer, an odd trailing
    byte counting as a high byte, with no bound on the total. *)
Fixpoint wsum (b : list byte) : Z :=
  match b with
  | x0 :: x1 :: rest => be16 (byte_val x0) (byte_val x1) + wsum rest
  | [x0] => byte_val x0 * 256
  | [] => 0
  end.

(** The [i]-th 16-bit word of a buffer (bytes [2i] and [2i+1]) set to [v]. *)
Definition setw (i : nat) (v : Z) (b : list byte) : list byte :=
  <[S (2 * i) := mk_byte v]> (<[(2 * i)%nat := mk_byte (Z.shiftr v 8)]> b).

(** The packet [GenICMP] builds, byte by byte: the IPv4 header, the ICMP
    header, the payload; [ck] stands for a checksum field. *)
Definition ip_header (sz ipid ck src dst : Z) : list byte :=
  map mk_byte
    [0x45; 0x00; Z.shiftr sz 8; sz; Z.shiftr ipid 8; ipid; Z.shiftr 0 8; 0;
     64; 0x01; Z.shiftr ck 8; ck;
     Z.shiftr src 24; Z.shiftr src 16; Z.shiftr src 8; src;
     Z.shiftr dst 24; Z.shiftr dst 16; Z.shiftr dst 8; dst].

Definition icmp_header (ty code ck : Z) : list byte :=
  map mk_byte [ty; code; Z.shiftr ck 8; ck].

Definition icmp_packet (src dst ipid ty code : Z) (payload : list byte)
  : list byte :=
  let sz := uint16 (24 + len payload) in
  let ck1 := ipChecksum_value (ip_header sz ipid 0 src dst) in
  let iph := ip_header sz ipid ck1 src dst in
  let ck2 := ipChecksum_value (iph ++ icmp_header ty code 0 ++ payload) in
  iph ++ icmp_header ty code ck2 ++ payload.

(** Header fields of a buffer, read positionally; a byte that is not
    there reads as 0. *)
Definition byte_at (b : list byte) (i : Z) : Z :=
  match b !! Z.to_nat i with
  | Some x => byte_val x
  | None => 0
  end.
Definition word_at (b : list byte) (i : Z) : Z :=
  be16 (byte_at b i) (byte_at b (i + 1)).
Definition dword_at (b : list byte) (i : Z) : Z :=
  be32 (byte_at b i) (byte_at b (i + 1)) (byte_at b (i + 2)) (byte_at b (i + 3)).

Definition version (b : list byte) : Z := byte_at b 0 / 16.
Definition ihl (b : list byte) : Z := byte_at b 0 mod 16.
Definition total_length (b : list byte) : Z := word_at b 2.
Definition frag_word (b : list byte) : Z := word_at b 6.
Definition protocol (b : list byte) : Z := byte_at b 9.
Definition src_addr (b : list byte) : Z := dword_at b 12.
Definition dst_addr (b : list byte) : Z := dword_at b 16.

(** The low 13 bits of the fragmentation word, and its bit [0x2000]. *)
Definition frag_offset (b : list byte) : Z := Z.land (frag_word b) 0x1FFF.
Definition more_fragments (b : list byte) : bool :=
  negb (Z.land (frag_word b) 0x2000 =? 0).

(** The IPv4 header length in bytes, and the bytes after the header. *)
Definition header_length (b : list byte) : Z := 4 * ihl b.
Definition sub_bytes (b : list byte) : list byte :=
  drop (Z.to_nat (header_length b)) b.

(** The validation steps of the decoder: the minimal length, the version,
    the declared total length. *)
Definition valid_ipv4 (b : list byte) : Prop :=
  20 <= len b /\ version b = 4 /\ total_length b <= len b.

(** The decision tree of [Decode], on the header fields. *)
Definition Decode_tree (b : list byte) (q : QDecode) : outcome unit :=
  let q0 := with_b None q in
  if len b <? 20 then Returned tt (with_IPProto Junk q0)
  else if negb (version b =? 4) then Returned tt (with_IPProto Junk q0)
  else if len b <? total_length b then Returned tt (with_IPProto Junk q0)
  else
    let q1 := with_subofs (header_length b)
                (with_DstIP (dst_addr b) (with_SrcIP (src_addr b) q0)) in
    let sub := sub_bytes b in
    if len b <? header_length b then Panicked q1
    else if frag_offset b =? 0 then
      if protocol b =? 1 then
        if len sub <? 8 then Returned tt (with_IPProto Junk q1)
        else Returned tt (with_b (Some b) (with_DstPort 0 (with_SrcPort 0
                            (with_IPProto ICMP q1))))
      else if protocol b =? 6 then
        if len sub <? 20 then Returned tt (with_IPProto Junk q1)
        else Returned tt (with_b (Some b)
                            (with_TCPFlags (Z.land (byte_at sub 13) 0x3F)
                               (with_DstPort (word_at sub 2)
                                  (with_SrcPort (word_at sub 0)
                                     (with_IPProto TCP q1)))))
      else if protocol b =? 17 then
        if len sub <? 8 then Returned tt (with_IPProto Junk q1)
        else Returned tt (with_b (Some b)
                            (with_DstPort (word_at sub 2)
                               (with_SrcPort (word_at sub 0)
                                  (with_IPProto UDP q1))))
      else Returned tt (with_IPProto Junk q1)
    else if frag_offset b <? 80 then Returned tt (with_IPProto Junk q1)
    else Returned tt (with_IPProto Fragment q1).

(** ** Further test data *)

(** A TCP segment 10.0.0.1:1234 > 10.0.0.2:80 with the given flags byte,
    total length 40. *)
Definition tcp_example (flags : Z) : list byte := bytes_of
  [0x45; 0; 0; 40; 0; 0; 0; 0; 64; 6; 0; 0; 10; 0; 0; 1; 10; 0; 0; 2;
   0x04; 0xd2; 0; 80; 0; 0; 0; 1; 0; 0; 0; 0; 0x50; flags; 0xff; 0xff;
   0; 0; 0; 0].

(** An ICMP message of the given type and code from 1.2.3.4 to 5.6.7.8. *)
Definition icmp_example (ty code : Z) : list byte := bytes_of
  [0x45; 0; 0; 28; 0; 0; 0; 0; 64; 1; 0; 0; 1; 2; 3; 4; 5; 6; 7; 8;
   ty; code; 0; 0; 1; 2; 3; 4].

(** ** Further vocabulary *)

(** A buffer that passes the validation steps, is a first (or only)
    fragment, carries protocol [p] and has at least [minlen] bytes after
    an IP header that fits in it. *)
Definition carries (p minlen : Z) (b : list byte) : Prop :=
  valid_ipv4 b /\ header_length b + minlen <= len b /\
  frag_offset b = 0 /\ protocol b = p.

(** The SYN and ACK bits of a TCP flags byte. *)
Definition syn_bit (f : Z) : bool := Z.testbit f 1.
Definition ack_bit (f : Z) : bool := Z.testbit f 4.

(** ** Rendering of addresses *)

(** The decimal rendering of an unsigned number, as [%d] and
    [Builder.WriteUint] give it. *)
Definition dec (n : Z) : string := NilZero.string_of_uint (N.to_uint (Z.to_N n)).

(** [IP.String]: [fmt.Sprintf] with [%d.%d.%d.%d] on the four bytes. *)
Definition IP_String (ip : Z) : string :=
  (dec (octet ip 24) ++ "." ++ dec (octet ip 16) ++ "."
   ++ dec (octet ip 8) ++ "." ++ dec (octet ip 0))%string.


Definition is_digit (c : ascii) : bool :=
  (48 <=? nat_of_ascii c)%nat && (nat_of_ascii c <=? 57)%nat.

Fixpoint all_digits (s : string) : bool :=
  match s with
  | EmptyString => true
  | String c s => is_digit c && all_digits s
  end.

(** ** The hex dump *)

(** The verbs of [fmt.Fprintf] in [Hexdump], on the values it gives them:
    [%04x] and [%02x] on a number that is not negative (lower-case
    hexadecimal, padded with zeros to the width), [%c] on a byte below 128
    (the character with that code). *)
Definition hex (n : Z) : string :=
  HexadecimalString.NilZero.string_of_uint (N.to_hex_uint (Z.to_N n)).
Definition zero_pad (w : nat) (s : string) : string :=
  (string_of_list_ascii (replicate (w - String.length s) "0"%char) ++ s)%string.
Definition fmt_04x (i : Z) : string := zero_pad 4 (hex i).
Definition fmt_02x (v : Z) : string := zero_pad 2 (hex v).
Definition fmt_c (v : Z) : string := String (ascii_of_nat (Z.to_nat v)) EmptyString.
Definition newline : string := String "010"%char EmptyString.

(** The loops of [Hexdump], each with fuel for its iterations. The reads
    [b[i+j]] stand behind the guard [i+j < len(b)] of their loop, with [i]
    and [j] not negative, and are in range. *)

(** [for ; j < 16 && i+j < len(b); j++]; the loop leaves [j] to the next. *)
Fixpoint hex_columns (fuel : nat) (b : list byte) (i j : Z) (out : string)
  : Z * string :=
  match fuel with
  | O => (j, out)
  | S fuel =>
      if (j <? 16) && (int (i + j) <? len b) then
        let out := if j =? 8 then (out ++ " ")%string else out in
        let out := (out ++ (fmt_02x (byte_at b (int (i + j))) ++ " "))%string in
        hex_columns fuel b i (int (j + 1)) out
      else (j, out)
  end.

(** [for ; j < 16; j++] *)
Fixpoint blank_columns (fuel : nat) (j : Z) (out : string) : string :=
  match fuel with
  | O => out
  | S fuel =>
      if j <? 16 then
        let out := if j =? 8 then (out ++ " ")%string else out in
        let out := (out ++ "   ")%string in
        blank_columns fuel (int (j + 1)) out
      else out
  end.

(** [for j = 0; j < 16 && i+j < len(b); j++] *)
Fixpoint ascii_column (fuel : nat) (b : list byte) (i j : Z) (out : string)
  : string :=
  match fuel with
  | O => out
  | S fuel =>
      if (j <? 16) && (int (i + j) <? len b) then
        let v := byte_at b (int (i + j)) in
        let out := if (32 <=? v) && (v <? 128) then (out ++ fmt_c v)%string
                   else (out ++ ".")%string in
        ascii_column fuel b i (int (j + 1)) out
      else out
  end.

(** [for i := 0; i < len(b); i += 16] *)
Fixpoint dump_loop (fuel : nat) (b : list byte) (i : Z) (out : string) : string :=
  match fuel with
  | O => out
  | S fuel =>
      if i <? len b then
        let out := if 0 <? i then (out ++ newline)%string else out in
        let out := (out ++ ("  " ++ fmt_04x i ++ "  "))%string in
        let '(j, out) := hex_columns 17 b i 0 out in
        let out := blank_columns 17 j out in
        let out := (out ++ " ")%string in
        let out := ascii_column 17 b i 0 out in
        dump_loop fuel b (int (i + 16)) out
      else out
  end.

Definition Hexdump (b : list byte) : string :=
  dump_loop (S (length b)) b 0 EmptyString.

(** The lines of a dump, from the bytes still to print: the offset, 16
    columns of two hexadecimal digits or blanks with a gap before column
    8, a space, and the bytes as characters. *)
Definition gap (j : Z) : string := if j =? 8 then " "%string else EmptyString.

Fixpoint hex_cols (n : nat) (j : Z) (l : list byte) : string :=
  match n with
  | O => EmptyString
  | S n =>
      (gap j ++ match l with
                | x :: l' => fmt_02x (byte_val x) ++ " " ++ hex_cols n (j + 1)%Z l'
                | [] => "   " ++ hex_cols n (j + 1)%Z []
                end)%string
  end.

Definition printable (x : byte) : string :=
  if (32 <=? byte_val x) && (byte_val x <? 128) then fmt_c (byte_val x)
  else "."%string.

Fixpoint asc_cols (n : nat) (l : list byte) : string :=
  match n, l with
  | S n, x :: l' => (printable x ++ asc_cols n l')%string
  | _, _ => EmptyString
  end.

Fixpoint lines (fuel : nat) (i : Z) (l : list byte) : string :=
  match fuel, l with
  | S fuel, _ :: _ =>
      ((if (0 <? i)%Z then newline else EmptyString)
       ++ "  " ++ fmt_04x i ++ "  " ++ hex_cols 16 0%Z l ++ " " ++ asc_cols 16 l
       ++ lines fuel (i + 16)%Z (drop 16 l))%string
  | _, _ => EmptyString
  end.

(** The value of two hexadecimal digits. *)
Definition hexval (c : ascii) : Z :=
  let n := Z.of_nat (nat_of_ascii c) in
  if n <? 58 then n - 48 else n - 87.
Definition unhex (s : string) : Z :=
  match s with
  | String a (String b EmptyString) => 16 * hexval a + hexval b
  | _ => 0
  end.

(** [P] holds of the [n] numbers from [i] on. *)
Fixpoint all_from (P : Z -> bool) (n : nat) (i : Z) : bool :=
  match n with
  | O => true
  | S n => P i && all_from P n (i + 1)
  end.

(** * ipn/store/kubestore: the keys of the Secret

    [sanitizeKey] of [ipn/store/kubestore/store_kube.go]. A Go string is
    taken as the sequence of runes that ranging over it yields, each a
    code point (an invalid byte yields U+FFFD); [strings.Map] maps it rune
    by rune and drops a rune mapped to a negative value. *)

Definition rune_of (c : ascii) : Z := Z.of_nat (nat_of_ascii c).

Definition strings_Map (mapping : Z -> Z) (s : list Z) : list Z :=
  flat_map (fun c => let r := mapping c in if r <? 0 then [] else [r]) s.

(** The function literal of [sanitizeKey]. *)
Definition sanitize_rune (r : Z) : Z :=
  if (rune_of "a" <=? r) && (r <=? rune_of "z")
     || (rune_of "A" <=? r) && (r <=? rune_of "Z")
     || (rune_of "0" <=? r) && (r <=? rune_of "9")
     || (r =? rune_of "-") || (r =? rune_of "_") || (r =? rune_of ".")
  then r
  else rune_of "_".

Definition sanitizeKey (k : list Z) : list Z := strings_Map sanitize_rune k.

(** The runes of a string of ASCII characters. *)
Definition runes (s : string) : list Z := map rune_of (list_ascii_of_string s).

(** The characters valid in the key of a Kubernetes Secret: alphanumeric,
    [-], [_] and [.]. *)
Definition key_alphabet : list Z :=
  runes "abcdefghijklmnopqrstuvwxyzABCDEFGHIJKLMNOPQRSTUVWXYZ0123456789-_.".
Definition valid_key_rune (r : Z) : Prop := In r key_alphabet.

(** Two runes that [sanitizeKey] does not tell apart: the same rune, or
    two runes each of which is [_] or not valid. *)
Definition replaced (r : Z) : Prop := r = rune_of "_" \/ ~ valid_key_rune r.
Definition same_key_rune (a b : Z) : Prop := a = b \/ (replaced a /\ replaced b).

(** * Properties *)

Arguments mk_byte : simpl never.
Arguments byte_val : simpl never.
Arguments be16 : simpl never.
Arguments be32 : simpl never.
Arguments uint8 : simpl never.
Arguments uint16 : simpl never.
Arguments uint32 : simpl never.
Arguments ipChecksum_value : simpl never.
Arguments len : simpl never.
Arguments index : simpl never.
Arguments slice : simpl never.
Arguments slice_from : simpl never.
Arguments store : simpl never.
Arguments copy_at : simpl never.
Arguments put16 : simpl never.
Arguments put32 : simpl never.

(** ** Bytes *)

Lemma byte_val_range (x : byte) : 0 <= byte_val x < 256.
Proof.
  unfold byte_val. pose proof (Byte.to_N_bounded x). lia.
Qed.

Lemma byte_val_mk_byte (z : Z) : byte_val (mk_byte z) = uint8 z.
Proof.
  unfold mk_byte, byte_val, uint8.
  assert (Hr : 0 <= z mod 2 ^ 8 < 2 ^ 8) by (apply Z.mod_pos_bound; lia).
  destruct (Byte.of_N (Z.to_N (z mod 2 ^ 8))) as [x|] eqn:E.
  - apply Byte.to_of_N in E. rewrite E. lia.
  - apply Byte.of_N_None_iff in E. lia.
Qed.

Lemma mk_byte_byte_val (x : byte) : mk_byte (byte_val x) = x.
Proof.
  unfold mk_byte, byte_val, uint8.
  pose proof (Byte.to_N_bounded x) as Hb.
  rewrite Z.mod_small by lia.
  rewrite N2Z.id, Byte.of_to_N. reflexivity.
Qed.

Lemma byte_val_inj (x y : byte) : byte_val x = byte_val y -> x = y.
Proof.
  intros H. rewrite <- (mk_byte_byte_val x), <- (mk_byte_byte_val y).
  now rewrite H.
Qed.

(** Big-endian composition is positional notation in base 256. *)
Lemma lor_shiftl_add (lo hi k : Z) :
  0 <= k -> 0 <= lo < 2 ^ k -> Z.lor lo (Z.shiftl hi k) = lo + hi * 2 ^ k.
Proof.
  intros Hk Hlo.
  rewrite Z.shiftl_mul_pow2 by lia.
  assert (Hdisj : Z.land lo (hi * 2 ^ k) = 0).
  { apply Z.bits_inj'. intros n Hn. rewrite Z.land_spec, Z.bits_0.
    destruct (Z.ltb_spec n k).
    - rewrite Z.mul_pow2_bits_low by lia. apply andb_false_r.
    - destruct (Z.eq_dec lo 0) as [->|Hne].
      + now rewrite Z.bits_0.
      + rewrite (Z.bits_above_log2 lo n); [reflexivity|lia|].
        apply Z.log2_lt_pow2; [lia|].
        apply Z.lt_le_trans with (2 ^ k); [lia|].
        apply Z.pow_le_mono_r; lia. }
  rewrite <- Z.lxor_lor by assumption.
  symmetry. now apply Z.add_nocarry_lxor.
Qed.


Lemma be16_split (v : Z) :
  0 <= v < 65536 ->
  be16 (byte_val (mk_byte (Z.shiftr v 8))) (byte_val (mk_byte v)) = v.
Proof.
  intros Hv. rewrite !byte_val_mk_byte. unfold be16, uint8.
  rewrite Z.shiftr_div_pow2 by lia.
  change (2 ^ 8) with 256.
  rewrite (Z.mod_small (v / 256)) by (split; [apply Z.div_pos|apply Z.div_lt_upper_bound]; lia).
  pose proof (Z.div_mod v 256). lia.
Qed.

(** ** The Internet checksum *)

Lemma list_pair_ind (P : list byte -> Prop) :
  P [] -> (forall x, P [x]) -> (forall x y l, P l -> P (x :: y :: l)) ->
  forall l, P l.
Proof.
  intros H0 H1 H2.
  assert (H : forall l, P l /\ forall x, P (x :: l)).
  { induction l as [|y l [IH1 IH2]]; split; auto. }
  intros l. apply H.
Qed.

Lemma wsum_nonneg (b : list byte) : 0 <= wsum b.
Proof.
  induction b as [|x|x y l IH] using list_pair_ind; simpl.
  - lia.
  - pose proof (byte_val_range x). lia.
  - pose proof (byte_val_range x). pose proof (byte_val_range y).
    unfold be16. lia.
Qed.

Lemma uint32_range (z : Z) : 0 <= uint32 z < 2 ^ 32.
Proof. unfold uint32. apply Z.mod_pos_bound. lia. Qed.

Lemma uint32_add_l (a c : Z) : uint32 (uint32 a + c) = uint32 (a + c).
Proof. unfold uint32. apply Zplus_mod_idemp_l. Qed.

(** The wrapping accumulator holds the word sum modulo [2^32]. *)
Lemma sum16_wsum (b : list byte) (ac : Z) :
  0 <= ac < 2 ^ 32 -> sum16 ac b = uint32 (ac + wsum b).
Proof.
  revert ac.
  induction b as [|x|x y l IH] using list_pair_ind; intros ac Hac.
  - simpl. unfold uint32. rewrite Z.add_0_r, Z.mod_small; lia.
  - simpl. rewrite Z.shiftl_mul_pow2 by lia. reflexivity.
  - cbn [sum16 wsum].
    rewrite IH by apply uint32_range.
    rewrite lor_shiftl_add by (pose proof (byte_val_range y); lia).
    rewrite uint32_add_l. unfold be16. f_equal. change (2 ^ 8) with 256. lia.
Qed.

(** What the carry-folding loop computes on a [uint32]: the representative
    of [s] modulo 65535 in [1..65535], and 0 only for 0. *)
Lemma fold16_char (s : Z) :
  0 <= s < 2 ^ 32 ->
  fold16 2 s = if s =? 0 then 0 else (s - 1) mod 65535 + 1.
Proof.
  intros Hs. cbn [fold16].
  assert (Hland : forall a, Z.land a 65535 = a mod 65536).
  { intros a. change 65535 with (Z.ones 16). now rewrite Z.land_ones by lia. }
  rewrite !Hland, !Z.shiftr_div_pow2 by lia.
  unfold uint32. change (2 ^ 16) with 65536. change (2 ^ 32) with 4294967296 in *.
  pose proof (Z.div_mod s 65536 ltac:(lia)) as Hdm.
  pose proof (Z.mod_pos_bound s 65536 ltac:(lia)) as Hm.
  set (h := s / 65536) in *. set (l := s mod 65536) in *.
  assert (Hh : 0 <= h < 65536) by lia.
  rewrite (Z.mod_small (h + l)) by lia.
  pose proof (Z.div_mod (h + l) 65536 ltac:(lia)) as Hdm1.
  pose proof (Z.mod_pos_bound (h + l) 65536 ltac:(lia)) as Hm1.
  set (h1 := (h + l) / 65536) in *. set (l1 := (h + l) mod 65536) in *.
  assert (Hh1 : 0 <= h1 <= 1) by lia.
  rewrite (Z.mod_small (h1 + l1)) by lia.
  destruct (Z.eqb_spec s 0) as [Hz|Hne].
  - destruct (Z.ltb_spec 0 h); [lia|]. lia.
  - destruct (Z.ltb_spec 0 h) as [H1|H1].
    + destruct (Z.ltb_spec 0 h1).
      * rewrite <- (Z.mod_unique_pos (s - 1) 65535 (h + 1) (h1 + l1 - 1)) by lia.
        lia.
      * rewrite <- (Z.mod_unique_pos (s - 1) 65535 h (h + l - 1)) by lia.
        lia.
    + rewrite Z.mod_small by lia. lia.
Qed.

(** Two rounds are enough: the loop condition is false on the result. *)
Lemma fold16_done (s : Z) :
  0 <= s < 2 ^ 32 -> Z.shiftr (fold16 2 s) 16 = 0 /\ 0 <= fold16 2 s < 65536.
Proof.
  intros Hs. rewrite fold16_char by assumption.
  rewrite Z.shiftr_div_pow2 by lia. change (2 ^ 16) with 65536.
  destruct (Z.eqb_spec s 0); [split; [reflexivity|lia]|].
  split; Z.div_mod_to_equations; lia.
Qed.

(** More fuel changes nothing. *)
Lemma fold16_fuel (n : nat) (s : Z) :
  0 <= s < 2 ^ 32 -> fold16 (2 + n) s = fold16 2 s.
Proof.
  intros Hs.
  assert (Hstop : forall m r, Z.shiftr r 16 = 0 -> fold16 m r = r).
  { intros [|m] r Hr; simpl; [reflexivity|]. now rewrite Hr. }
  pose proof (fold16_done s Hs) as [Hd _].
  cbn [fold16 Nat.add] in *.
  destruct (0 <? Z.shiftr s 16); [|reflexivity].
  set (s1 := uint32 _) in *.
  destruct (0 <? Z.shiftr s1 16); [|reflexivity].
  now apply Hstop.
Qed.

Lemma ipChecksum_wsum (b : list byte) :
  ipChecksum_value b = 65535 - fold16 2 (uint32 (wsum b)).
Proof.
  unfold ipChecksum_value.
  rewrite sum16_wsum by lia. rewrite Z.add_0_l.
  pose proof (fold16_done _ (uint32_range (wsum b))) as [_ Hr].
  unfold uint16, Z.lnot. set (r := fold16 2 _) in *.
  unfold uint32 at 1. Z.div_mod_to_equations; lia.
Qed.

Lemma ipChecksum_value_range (b : list byte) : 0 <= ipChecksum_value b < 65536.
Proof.
  rewrite ipChecksum_wsum.
  pose proof (fold16_done _ (uint32_range (wsum b))) as [_ Hr]. lia.
Qed.

Lemma setw_cons2 (i : nat) (v : Z) (x y : byte) (l : list byte) :
  setw (S i) v (x :: y :: l) = x :: y :: setw i v l.
Proof.
  unfold setw. replace (2 * S i)%nat with (S (S (2 * i))) by lia. reflexivity.
Qed.

Lemma setw_length (i : nat) (v : Z) (b : list byte) :
  length (setw i v b) = length b.
Proof. unfold setw. now rewrite !length_insert. Qed.

Lemma setw_setw (i : nat) (v w : Z) (b : list byte) :
  setw i v (setw i w b) = setw i v b.
Proof.
  unfold setw.
  rewrite (list_insert_insert_ne _ (2 * i) (S (2 * i))) by lia.
  now rewrite !list_insert_insert_eq.
Qed.

(** Writing [v] into a word adds [v] to the sum taken with the word zeroed. *)
Lemma wsum_setw (i : nat) (v : Z) (b : list byte) :
  (2 * i + 2 <= length b)%nat -> 0 <= v < 65536 ->
  wsum (setw i v b) = wsum (setw i 0 b) + v.
Proof.
  revert b. induction i as [|i IH]; intros b Hlen Hv.
  - destruct b as [|x [|y l]]; simpl in Hlen; try lia.
    unfold setw. simpl.
    rewrite be16_split by assumption.
    rewrite (be16_split 0) by lia. lia.
  - destruct b as [|x [|y l]]; simpl in Hlen; try lia.
    rewrite !setw_cons2. cbn [wsum].
    rewrite IH by (assumption || lia). lia.
Qed.

(** The core of self-verification, on word sums: once the checksum is
    stored in a word that was zero while it was computed, the buffer sums
    to a multiple of 65535 that is not zero, and the checksum is 0. *)
Lemma ipChecksum_setw (i : nat) (b : list byte) :
  (2 * i + 2 <= length b)%nat ->
  ipChecksum_value (setw i (ipChecksum_value (setw i 0 b)) b) = 0.
Proof.
  intros Hlen.
  rewrite (ipChecksum_wsum (setw i _ b)).
  rewrite wsum_setw by (assumption || apply ipChecksum_value_range).
  set (W := wsum (setw i 0 b)).
  rewrite (ipChecksum_wsum (setw i 0 b)). fold W.
  rewrite <- uint32_add_l.
  pose proof (uint32_range W) as Hs. set (s := uint32 W) in *.
  rewrite (fold16_char s) by assumption.
  change (2 ^ 32) with 4294967296 in Hs.
  assert (Hsum : 0 <= s + (65535 - (if s =? 0 then 0 else (s - 1) mod 65535 + 1))
                 < 4294967296 /\
                 (s + (65535 - (if s =? 0 then 0 else (s - 1) mod 65535 + 1)) - 1) mod 65535
                 = 65534 /\
                 s + (65535 - (if s =? 0 then 0 else (s - 1) mod 65535 + 1)) <> 0).
  { destruct (Z.eqb_spec s 0) as [->|Hne]; [repeat split; try lia; reflexivity|].
    pose proof (Z.div_mod (s - 1) 65535 ltac:(lia)) as Hdm.
    pose proof (Z.mod_pos_bound (s - 1) 65535 ltac:(lia)) as Hm.
    set (q := (s - 1) / 65535) in *. set (t := (s - 1) mod 65535) in *.
    assert (Hq : 0 <= q <= 65536) by lia.
    repeat split; try lia.
    symmetry. apply (Z.mod_unique_pos _ 65535 q 65534); lia. }
  destruct Hsum as (Hr & Hmod & Hnz).
  set (s' := s + _) in *.
  unfold uint32 at 1. rewrite (Z.mod_small s') by (change (2 ^ 32) with 4294967296; lia).
  rewrite (fold16_char s') by (change (2 ^ 32) with 4294967296; lia).
  destruct (Z.eqb_spec s' 0); [contradiction|].
  rewrite Hmod. reflexivity.
Qed.

(** ** Slices *)

Lemma len_nonneg (s : list byte) : 0 <= len s.
Proof. unfold len. lia. Qed.

Lemma len_app (s t : list byte) : len (s ++ t) = len s + len t.
Proof. unfold len. rewrite length_app. lia. Qed.

Lemma len_cons (x : byte) (s : list byte) : len (x :: s) = 1 + len s.
Proof. unfold len. simpl length. lia. Qed.

Lemma len_nil : len [] = 0.
Proof. reflexivity. Qed.

Lemma index_ok (s : list byte) (i : Z) :
  0 <= i < len s -> exists x, s !! Z.to_nat i = Some x /\ index s i = Ok (byte_val x).
Proof.
  intros Hi. unfold index.
  destruct (Z.ltb_spec i 0); [lia|].
  destruct (s !! Z.to_nat i) as [x|] eqn:E.
  - eauto.
  - apply lookup_ge_None in E. unfold len in Hi. lia.
Qed.

Lemma index_range (s : list byte) (i v : Z) :
  index s i = Ok v -> 0 <= i < len s /\ 0 <= v < 256.
Proof.
  unfold index. destruct (Z.ltb_spec i 0); [discriminate|].
  destruct (s !! Z.to_nat i) as [x|] eqn:E; [|discriminate].
  intros [= <-]. apply lookup_lt_Some in E.
  pose proof (byte_val_range x). unfold len. lia.
Qed.

Lemma index_panic (s : list byte) (i : Z) :
  ~ (0 <= i < len s) -> index s i = Panic.
Proof.
  intros Hi. unfold index. destruct (Z.ltb_spec i 0); [reflexivity|].
  destruct (s !! Z.to_nat i) as [x|] eqn:E; [|reflexivity].
  apply lookup_lt_Some in E. unfold len in Hi. lia.
Qed.

Lemma index_app_l (s t : list byte) (i : Z) :
  0 <= i < len s -> index (s ++ t) i = index s i.
Proof.
  intros Hi. unfold index. destruct (Z.ltb_spec i 0); [lia|].
  rewrite lookup_app_l by (unfold len in Hi; lia). reflexivity.
Qed.

Lemma slice_ok (s : list byte) (lo hi : Z) :
  0 <= lo <= hi -> hi <= len s ->
  slice s lo hi = Ok (take (Z.to_nat (hi - lo)) (drop (Z.to_nat lo) s)).
Proof.
  intros H1 H2. unfold slice.
  destruct (Z.leb_spec 0 lo); [|lia].
  destruct (Z.leb_spec lo hi); [|lia].
  destruct (Z.leb_spec hi (len s)); [|lia]. reflexivity.
Qed.

Lemma slice_panic (s : list byte) (lo hi : Z) :
  ~ (0 <= lo <= hi /\ hi <= len s) -> slice s lo hi = Panic.
Proof.
  intros H. unfold slice.
  destruct (Z.leb_spec 0 lo); [|reflexivity].
  destruct (Z.leb_spec lo hi); [|reflexivity].
  destruct (Z.leb_spec hi (len s)); [lia|reflexivity].
Qed.

Lemma slice_len (s r : list byte) (lo hi : Z) :
  slice s lo hi = Ok r -> 0 <= lo <= hi /\ hi <= len s /\ len r = hi - lo.
Proof.
  unfold slice.
  destruct (Z.leb_spec 0 lo); [|discriminate].
  destruct (Z.leb_spec lo hi); [|discriminate].
  destruct (Z.leb_spec hi (len s)); [|discriminate].
  intros [= <-]. unfold len in *. rewrite length_take, length_drop. lia.
Qed.

Lemma slice_app_l (s t : list byte) (lo hi : Z) :
  0 <= lo <= hi -> hi <= len s -> slice (s ++ t) lo hi = slice s lo hi.
Proof.
  intros H1 H2.
  rewrite !slice_ok by (rewrite ?len_app; pose proof (len_nonneg t); lia).
  f_equal. unfold len in *.
  rewrite drop_app_le by lia.
  rewrite take_app_le by (rewrite length_drop; lia). reflexivity.
Qed.

Lemma slice_from_ok (s : list byte) (lo : Z) :
  0 <= lo <= len s -> slice_from s lo = Ok (drop (Z.to_nat lo) s).
Proof.
  intros H. unfold slice_from. rewrite slice_ok by lia. f_equal.
  apply take_ge. unfold len. rewrite length_drop. lia.
Qed.

Lemma slice_from_panic (s : list byte) (lo : Z) :
  ~ (0 <= lo <= len s) -> slice_from s lo = Panic.
Proof. intros H. unfold slice_from. apply slice_panic. lia. Qed.

Lemma store_app_l (s t : list byte) (i v : Z) :
  0 <= i < len s ->
  store (s ++ t) i v = s' ← store s i v; Ok (s' ++ t).
Proof.
  intros Hi. unfold store. rewrite len_app. pose proof (len_nonneg t).
  destruct (Z.leb_spec 0 i); [|lia].
  destruct (Z.ltb_spec i (len s)); [|lia].
  destruct (Z.ltb_spec i (len s + len t)); [|lia].
  simpl. f_equal. apply insert_app_l. unfold len in *. lia.
Qed.

Lemma put16_app_l (s t : list byte) (lo v : Z) :
  0 <= lo -> lo + 2 <= len s ->
  put16 (s ++ t) lo v = s' ← put16 s lo v; Ok (s' ++ t).
Proof.
  intros H1 H2. unfold put16.
  rewrite slice_app_l by lia. rewrite slice_ok by lia. cbn [mbind result_bind].
  rewrite store_app_l by lia.
  unfold store at 2 4.
  destruct (Z.leb_spec 0 lo); [|lia].
  destruct (Z.ltb_spec lo (len s)); [|lia].
  cbn [andb mbind result_bind].
  rewrite store_app_l by (unfold len in *; rewrite length_insert; lia).
  destruct (store _ (lo + 1) v); reflexivity.
Qed.

Lemma put32_app_l (s t : list byte) (lo v : Z) :
  0 <= lo -> lo + 4 <= len s ->
  put32 (s ++ t) lo v = s' ← put32 s lo v; Ok (s' ++ t).
Proof.
  intros H1 H2. unfold put32.
  rewrite slice_app_l by lia. rewrite slice_ok by lia. cbn [mbind result_bind].
  assert (Hst : forall (r : list byte) i w, 0 <= i < len r ->
            store r i w = Ok (<[Z.to_nat i := mk_byte w]> r)).
  { intros r i w Hi. unfold store.
    destruct (Z.leb_spec 0 i); [|lia].
    destruct (Z.ltb_spec i (len r)); [|lia]. reflexivity. }
  assert (Hlen : forall (r : list byte) i w, len (<[i := w]> r) = len r).
  { intros. unfold len. now rewrite length_insert. }
  rewrite store_app_l, (Hst s) by lia. cbn [mbind result_bind].
  rewrite store_app_l, (Hst (<[_ := _]> s)) by (rewrite ?Hlen; lia).
  cbn [mbind result_bind].
  rewrite store_app_l, (Hst (<[_ := _]> (<[_ := _]> s))) by (rewrite ?Hlen; lia).
  cbn [mbind result_bind].
  rewrite store_app_l, (Hst (<[_ := _]> (<[_ := _]> (<[_ := _]> s))))
    by (rewrite ?Hlen; lia).
  reflexivity.
Qed.

Lemma copy_at_app (s t src : list byte) (lo : Z) :
  lo = len s -> length t = length src ->
  copy_at (s ++ t) lo src = Ok (s ++ src).
Proof.
  intros -> Hl. unfold copy_at.
  rewrite slice_from_ok by (rewrite len_app; pose proof (len_nonneg s);
                            pose proof (len_nonneg t); lia).
  cbn [mbind result_bind]. unfold len.
  rewrite Nat2Z.id, drop_app_length, take_app_length.
  rewrite Hl, Z.min_id, Nat2Z.id.
  rewrite firstn_all. rewrite <- Hl, skipn_all. now rewrite app_nil_r.
Qed.

(** [put16] at an even offset sets a word of the buffer. *)
Lemma put16_setw (b : list byte) (i : nat) (v : Z) :
  (2 * i + 2 <= length b)%nat ->
  put16 b (Z.of_nat (2 * i)) v = Ok (setw i v b).
Proof.
  intros Hlen. unfold put16.
  rewrite slice_ok by (unfold len; lia). cbn [mbind result_bind].
  unfold store.
  destruct (Z.leb_spec 0 (Z.of_nat (2 * i))); [|lia].
  destruct (Z.ltb_spec (Z.of_nat (2 * i)) (len b)); [|unfold len in *; lia].
  cbn [andb mbind result_bind].
  destruct (Z.leb_spec 0 (Z.of_nat (2 * i) + 1)); [|lia].
  destruct (Z.ltb_spec (Z.of_nat (2 * i) + 1)
              (len (<[Z.to_nat (Z.of_nat (2 * i)) := mk_byte (Z.shiftr v 8)]> b)));
    [|unfold len in *; rewrite length_insert in *; lia].
  cbn [andb]. unfold setw. rewrite Nat2Z.id.
  replace (Z.to_nat (Z.of_nat (2 * i) + 1)) with (S (2 * i)) by lia.
  reflexivity.
Qed.

Lemma store_ok (s : list byte) (i v : Z) :
  0 <= i < len s -> store s i v = Ok (<[Z.to_nat i := mk_byte v]> s).
Proof.
  intros Hi. unfold store.
  destruct (Z.leb_spec 0 i); [|lia].
  destruct (Z.ltb_spec i (len s)); [|lia]. reflexivity.
Qed.

Lemma len_insert (s : list byte) (i : nat) (x : byte) :
  len (<[i := x]> s) = len s.
Proof. unfold len. now rewrite length_insert. Qed.

Lemma put16_ok (s : list byte) (lo v : Z) :
  0 <= lo -> lo + 2 <= len s ->
  put16 s lo v =
  Ok (<[Z.to_nat (lo + 1) := mk_byte v]>
        (<[Z.to_nat lo := mk_byte (Z.shiftr v 8)]> s)).
Proof.
  intros H1 H2. unfold put16.
  rewrite slice_ok by lia. cbn [mbind result_bind].
  rewrite store_ok by lia. cbn [mbind result_bind].
  rewrite store_ok by (rewrite len_insert; lia). reflexivity.
Qed.

Lemma put32_ok (s : list byte) (lo v : Z) :
  0 <= lo -> lo + 4 <= len s ->
  put32 s lo v =
  Ok (<[Z.to_nat (lo + 3) := mk_byte v]>
        (<[Z.to_nat (lo + 2) := mk_byte (Z.shiftr v 8)]>
           (<[Z.to_nat (lo + 1) := mk_byte (Z.shiftr v 16)]>
              (<[Z.to_nat lo := mk_byte (Z.shiftr v 24)]> s)))).
Proof.
  intros H1 H2. unfold put32.
  rewrite slice_ok by lia. cbn [mbind result_bind].
  rewrite store_ok by lia. cbn [mbind result_bind].
  rewrite store_ok by (rewrite !len_insert; lia). cbn [mbind result_bind].
  rewrite store_ok by (rewrite !len_insert; lia). cbn [mbind result_bind].
  rewrite store_ok by (rewrite !len_insert; lia). reflexivity.
Qed.

(** ** Reading header fields *)

Lemma byte_at_range (b : list byte) (i : Z) : 0 <= byte_at b i < 256.
Proof.
  unfold byte_at. destruct (b !! Z.to_nat i) as [x|]; [apply byte_val_range|lia].
Qed.

Lemma index_byte_at (b : list byte) (i : Z) :
  0 <= i < len b -> index b i = Ok (byte_at b i).
Proof.
  intros Hi. destruct (index_ok b i Hi) as (x & Hx & ->).
  unfold byte_at. now rewrite Hx.
Qed.

Lemma byte_at_slice (b : list byte) (lo n i : Z) :
  0 <= lo -> 0 <= i < n ->
  byte_at (take (Z.to_nat n) (drop (Z.to_nat lo) b)) i = byte_at b (lo + i).
Proof.
  intros Hlo Hi. unfold byte_at.
  rewrite lookup_take_lt by lia. rewrite lookup_drop.
  replace (Z.to_nat lo + Z.to_nat i)%nat with (Z.to_nat (lo + i)) by lia.
  reflexivity.
Qed.

Lemma byte_at_drop (b : list byte) (lo i : Z) :
  0 <= lo -> 0 <= i ->
  byte_at (drop (Z.to_nat lo) b) i = byte_at b (lo + i).
Proof.
  intros Hlo Hi. unfold byte_at. rewrite lookup_drop.
  replace (Z.to_nat lo + Z.to_nat i)%nat with (Z.to_nat (lo + i)) by lia.
  reflexivity.
Qed.

Lemma Uint16_word_at (s : list byte) :
  2 <= len s -> Uint16 s = Ok (word_at s 0).
Proof.
  intros Hs. unfold Uint16.
  rewrite !index_byte_at by lia. cbn [mbind result_bind].
  rewrite lor_shiftl_add by (pose proof (byte_at_range s 1); lia).
  unfold word_at, be16. f_equal. change (2 ^ 8) with 256. change (0 + 1) with 1. lia.
Qed.

Lemma Uint32_dword_at (s : list byte) :
  4 <= len s -> Uint32 s = Ok (dword_at s 0).
Proof.
  intros Hs. unfold Uint32.
  rewrite !index_byte_at by lia. cbn [mbind result_bind].
  pose proof (byte_at_range s 0). pose proof (byte_at_range s 1).
  pose proof (byte_at_range s 2). pose proof (byte_at_range s 3).
  rewrite (lor_shiftl_add (byte_at s 3)) by lia.
  rewrite (lor_shiftl_add _ (byte_at s 1)) by lia.
  rewrite (lor_shiftl_add _ (byte_at s 0)) by lia.
  unfold dword_at, be32. f_equal.
  change (0 + 1) with 1. change (0 + 2) with 2. change (0 + 3) with 3. lia.
Qed.

Lemma read16 (b : list byte) (lo hi : Z) :
  0 <= lo -> hi = lo + 2 -> hi <= len b ->
  slice b lo hi ≫= Uint16 = Ok (word_at b lo).
Proof.
  intros Hlo -> Hhi. rewrite slice_ok by lia. cbn [mbind result_bind].
  rewrite Uint16_word_at
    by (unfold len in *; rewrite length_take, length_drop; lia).
  unfold word_at. rewrite !byte_at_slice by lia.
  now rewrite Z.add_0_r.
Qed.

Lemma read32 (b : list byte) (lo hi : Z) :
  0 <= lo -> hi = lo + 4 -> hi <= len b ->
  slice b lo hi ≫= Uint32 = Ok (dword_at b lo).
Proof.
  intros Hlo -> Hhi. rewrite slice_ok by lia. cbn [mbind result_bind].
  rewrite Uint32_dword_at
    by (unfold len in *; rewrite length_take, length_drop; lia).
  unfold dword_at. rewrite !byte_at_slice by lia.
  now rewrite Z.add_0_r.
Qed.

(** The two nibbles of a byte, as the decoder extracts them. *)
Lemma nibbles_byte (x : byte) :
  Z.shiftr (Z.land (byte_val x) 0xF0) 4 = byte_val x / 16 /\
  uint8 (Z.land (byte_val x) 0x0F * 4) = 4 * (byte_val x mod 16).
Proof. destruct x; vm_compute; split; reflexivity. Qed.

Lemma nibbles (v : Z) :
  0 <= v < 256 ->
  Z.shiftr (Z.land v 0xF0) 4 = v / 16 /\ uint8 (Z.land v 0x0F * 4) = 4 * (v mod 16).
Proof.
  intros Hv.
  assert (E : v = byte_val (mk_byte v)).
  { rewrite byte_val_mk_byte. unfold uint8. symmetry. apply Z.mod_small. lia. }
  rewrite E. apply nibbles_byte.
Qed.

(** ** The checksum loop as written *)

Lemma drop_byte_at (b : list byte) (i : Z) :
  0 <= i < len b ->
  exists x, drop (Z.to_nat i) b = x :: drop (Z.to_nat (i + 1)) b /\
            byte_at b i = byte_val x.
Proof.
  intros Hi. destruct (index_ok b i Hi) as (x & Hx & _).
  exists x. split.
  - replace (Z.to_nat (i + 1)) with (S (Z.to_nat i)) by lia.
    now apply drop_S.
  - unfold byte_at. now rewrite Hx.
Qed.

Lemma sum16_tail (b : list byte) (ac i : Z) :
  0 <= i <= len b -> len b - i < 2 ->
  sum16 ac (drop (Z.to_nat i) b) =
  if len b - i =? 1 then uint32 (ac + uint32 (Z.shiftl (byte_at b i) 8)) else ac.
Proof.
  intros Hi Hn.
  destruct (Z.eqb_spec (len b - i) 1) as [H1|H1].
  - destruct (drop_byte_at b i ltac:(lia)) as (x & -> & ->).
    rewrite drop_ge by (unfold len in *; lia). cbn [sum16].
    unfold uint32. now rewrite Zplus_mod_idemp_r.
  - rewrite drop_ge by (unfold len in *; lia). reflexivity.
Qed.

(** With enough fuel the first loop ends on its own condition, every
    slice it takes is in range, and it leaves the sum [sum16] computes. *)
Lemma sum_loop_sum16 (fuel : nat) (b : list byte) (ac i : Z) :
  0 <= i <= len b -> len b - i <= 2 * Z.of_nat fuel + 1 ->
  exists ac' i' n',
    sum_loop fuel b ac i (len b - i) = Ok (ac', i', n') /\
    0 <= i' <= len b /\ n' = len b - i' /\ n' < 2 /\
    sum16 ac (drop (Z.to_nat i) b) =
    if n' =? 1 then uint32 (ac' + uint32 (Z.shiftl (byte_at b i') 8)) else ac'.
Proof.
  revert ac i. induction fuel as [|fuel IH]; intros ac i Hi Hf.
  - exists ac, i, (len b - i). cbn [sum_loop].
    split; [reflexivity|]. split; [lia|]. split; [reflexivity|]. split; [lia|].
    apply sum16_tail; lia.
  - cbn [sum_loop]. destruct (Z.leb_spec 2 (len b - i)) as [H2|H2].
    + rewrite (read16 b i (i + 2)) by lia. cbn [mbind result_bind].
      replace (len b - i - 2) with (len b - (i + 2)) by lia.
      destruct (IH (uint32 (ac + word_at b i)) (i + 2) ltac:(lia) ltac:(lia))
        as (ac' & i' & n' & Hrun & Hi' & Hn' & Hlt & Hsum).
      exists ac', i', n'. split; [exact Hrun|]. split; [lia|].
      split; [exact Hn'|]. split; [exact Hlt|].
      rewrite <- Hsum.
      destruct (drop_byte_at b i ltac:(lia)) as (x0 & -> & Hx0).
      destruct (drop_byte_at b (i + 1) ltac:(lia)) as (x1 & -> & Hx1).
      cbn [sum16]. replace (i + 1 + 1) with (i + 2) by lia.
      f_equal. f_equal. f_equal.
      rewrite lor_shiftl_add by (pose proof (byte_val_range x1); lia).
      unfold word_at, be16. rewrite Hx0, Hx1. change (2 ^ 8) with 256. lia.
    + exists ac, i, (len b - i).
      split; [reflexivity|]. split; [lia|]. split; [reflexivity|]. split; [lia|].
      apply sum16_tail; lia.
Qed.

(** [ipChecksum] never panics, and [ipChecksum_value b] is what it returns. *)
Lemma ipChecksum_eq (b : list byte) :
  ipChecksum b = Ok (ipChecksum_value b).
Proof.
  unfold ipChecksum, ipChecksum_value.
  destruct (sum_loop_sum16 (length b) b 0 0) as (ac' & i' & n' & Hrun & Hi' & Hn' & Hlt & Hsum).
  { pose proof (len_nonneg b). lia. }
  { unfold len. lia. }
  rewrite Z.sub_0_r in Hrun. rewrite Hrun. cbn [mbind result_bind].
  change (Z.to_nat 0) with 0%nat in Hsum. rewrite drop_0 in Hsum.
  rewrite Hsum.
  destruct (Z.eqb_spec n' 1) as [H1|H1].
  - rewrite index_byte_at by lia. reflexivity.
  - reflexivity.
Qed.

(** ** The ICMP builder *)

Lemma make_split (n : nat) :
  make (24 + Z.of_nat n) = replicate 24 Byte.x00 ++ replicate n Byte.x00.
Proof.
  unfold make. replace (Z.to_nat (24 + Z.of_nat n)) with (24 + n)%nat by lia.
  apply replicate_add.
Qed.

Ltac len_side := unfold len; simpl length; lia.

Lemma bind_Ok {A B : Type} (a : A) (f : A -> result B) : Ok a ≫= f = f a.
Proof. reflexivity. Qed.

Lemma store_app_ok (s t : list byte) (i v : Z) :
  0 <= i < len s ->
  store (s ++ t) i v = Ok (<[Z.to_nat i := mk_byte v]> s ++ t).
Proof.
  intros Hi. rewrite store_app_l, store_ok by assumption. reflexivity.
Qed.

Lemma put16_app_ok (s t : list byte) (lo v : Z) :
  0 <= lo -> lo + 2 <= len s ->
  put16 (s ++ t) lo v =
  Ok (<[Z.to_nat (lo + 1) := mk_byte v]>
        (<[Z.to_nat lo := mk_byte (Z.shiftr v 8)]> s) ++ t).
Proof.
  intros H1 H2. rewrite put16_app_l, put16_ok by assumption. reflexivity.
Qed.

Lemma put32_app_ok (s t : list byte) (lo v : Z) :
  0 <= lo -> lo + 4 <= len s ->
  put32 (s ++ t) lo v =
  Ok (<[Z.to_nat (lo + 3) := mk_byte v]>
        (<[Z.to_nat (lo + 2) := mk_byte (Z.shiftr v 8)]>
           (<[Z.to_nat (lo + 1) := mk_byte (Z.shiftr v 16)]>
              (<[Z.to_nat lo := mk_byte (Z.shiftr v 24)]> s))) ++ t).
Proof.
  intros H1 H2. rewrite put32_app_l, put32_ok by assumption. reflexivity.
Qed.

(** One write of the builder into a buffer whose first bytes are known:
    the write is in range, and the bytes after it are as before. *)
Ltac after_write :=
  rewrite bind_Ok;
  repeat match goal with
    | |- context [Z.to_nat ?z] =>
        let n := eval vm_compute in (Z.to_nat z) in change (Z.to_nat z) with n
    end;
  cbn [insert list_insert].
Ltac store_step := rewrite store_app_ok by len_side; after_write.
Ltac put16_step := rewrite put16_app_ok by len_side; after_write.
Ltac put32_step := rewrite put32_app_ok by len_side; after_write.

Lemma GenICMP_nil (srcIP dstIP ipid icmpType icmpCode : Z) (payload : list byte) :
  len payload < 4 \/ 65511 < len payload ->
  GenICMP srcIP dstIP ipid icmpType icmpCode payload = Ok None.
Proof.
  intros H. unfold GenICMP.
  destruct (Z.ltb_spec (len payload) 4); [reflexivity|].
  destruct (Z.ltb_spec (65535 - 24) (len payload)); [reflexivity|lia].
Qed.

Lemma GenICMP_spec (srcIP dstIP ipid icmpType icmpCode : Z) (payload : list byte) :
  4 <= len payload <= 65511 ->
  GenICMP srcIP dstIP ipid icmpType icmpCode payload =
  Ok (Some (icmp_packet srcIP dstIP ipid icmpType icmpCode payload)).
Proof.
  intros H. unfold GenICMP.
  destruct (Z.ltb_spec (len payload) 4); [lia|].
  destruct (Z.ltb_spec (65535 - 24) (len payload)); [lia|].
  cbv zeta. change (make (24 + len payload)) with (make (24 + Z.of_nat (length payload))).
  rewrite make_split.
  set (tail := replicate (length payload) Byte.x00).
  simpl replicate.
  store_step. store_step. put16_step. put16_step. put16_step.
  store_step. store_step. put32_step. put32_step. store_step. store_step.
  rewrite (copy_at_app _ tail payload)
    by (reflexivity || (subst tail; apply length_replicate)).
  rewrite bind_Ok.
  rewrite slice_app_l, slice_ok by len_side. rewrite bind_Ok.
  change (Z.to_nat (20 - 0)) with 20%nat. change (Z.to_nat 0) with 0%nat.
  cbn [take drop].
  rewrite ipChecksum_eq, bind_Ok. put16_step.
  rewrite ipChecksum_eq, bind_Ok. put16_step.
  unfold icmp_packet, ip_header, icmp_header. cbv zeta. cbn [map app].
  change (mk_byte (Z.shiftr 0 8)) with Byte.x00.
  change (mk_byte 0) with Byte.x00.
  reflexivity.
Qed.

Lemma icmp_packet_len (src dst ipid ty code : Z) (payload : list byte) :
  len (icmp_packet src dst ipid ty code payload) = 24 + len payload.
Proof.
  unfold icmp_packet. cbv zeta. rewrite !len_app.
  unfold len, ip_header, icmp_header. simpl length. lia.
Qed.

(** ** The decoder *)

(** Inside the first-fragment branch the flag tested by the decoder,
    bit [0x20], is one of the thirteen offset bits, all zero there. *)
Lemma frag_bit_dead (ff : Z) : Z.land ff 0x1FFF = 0 -> Z.land ff 0x20 = 0.
Proof.
  intros H. change 0x20 with (Z.land 0x1FFF 0x20).
  rewrite Z.land_assoc, H. reflexivity.
Qed.

Lemma bind_run {A B : Type} (m : M A) (f : A -> M B) (q : QDecode) :
  (m ≫= f) q =
  match m q with
  | Returned a q' => f a q'
  | Panicked q' => Panicked q'
  end.
Proof. reflexivity. Qed.

Ltac mred :=
  repeat (rewrite ?bind_run; progress cbn [mbind result_bind modify lift get]).

Lemma len_sub_bytes (b : list byte) :
  header_length b <= len b -> len (sub_bytes b) = len b - header_length b.
Proof.
  intros H. unfold sub_bytes, len in *. rewrite length_drop.
  assert (0 <= header_length b).
  { unfold header_length, ihl. pose proof (Z.mod_pos_bound (byte_at b 0) 16). lia. }
  lia.
Qed.

Lemma header_length_range (b : list byte) : 0 <= header_length b <= 60.
Proof.
  unfold header_length, ihl. pose proof (Z.mod_pos_bound (byte_at b 0) 16). lia.
Qed.

(** [Decode] follows its decision tree: every read it makes is in range,
    except the slice [b[q.subofs:]] when the header length exceeds the
    buffer. *)
Lemma Decode_char (b : list byte) (q : QDecode) : Decode b q = Decode_tree b q.
Proof.
  unfold Decode, Decode_tree. mred.
  destruct (Z.ltb_spec (len b) 20) as [|Hlen]; [reflexivity|].
  rewrite !index_byte_at by lia. mred.
  destruct (nibbles (byte_at b 0) (byte_at_range b 0)) as [Hv Hh].
  rewrite Hv. fold (version b).
  destruct (negb (version b =? 4)); [reflexivity|].
  rewrite (read16 b 2 4) by lia. mred. fold (total_length b).
  destruct (Z.ltb_spec (len b) (total_length b)); [reflexivity|].
  rewrite (read32 b 12 16), (read32 b 16 20) by lia. mred.
  rewrite Hh. fold (ihl b) (header_length b) (src_addr b) (dst_addr b).
  cbn [q_subofs with_subofs].
  pose proof (header_length_range b) as Hhl.
  destruct (Z.ltb_spec (len b) (header_length b)) as [Hshort|Hfit].
  { rewrite slice_from_panic by lia. reflexivity. }
  rewrite slice_from_ok by lia. mred. fold (sub_bytes b).
  rewrite (read16 b 6 8) by lia. mred. fold (frag_word b) (frag_offset b).
  pose proof (len_sub_bytes b Hfit) as Hsub.
  destruct (Z.eqb_spec (frag_offset b) 0) as [Hfo|Hfo].
  - rewrite (frag_bit_dead _ Hfo). cbn [Z.eqb negb andb]. mred.
    fold (protocol b).
    destruct (protocol b =? 1).
    { destruct (Z.ltb_spec (len (sub_bytes b)) 8); mred; reflexivity. }
    destruct (protocol b =? 6).
    { destruct (Z.ltb_spec (len (sub_bytes b)) 20); mred; [reflexivity|].
      rewrite (read16 _ 0 2), (read16 _ 2 4), index_byte_at by lia.
      mred. reflexivity. }
    destruct (protocol b =? 17).
    { destruct (Z.ltb_spec (len (sub_bytes b)) 8); mred; [reflexivity|].
      rewrite (read16 _ 0 2), (read16 _ 2 4) by lia.
      mred. reflexivity. }
    reflexivity.
  - change minFrag with 80.
    destruct (frag_offset b <? 80); reflexivity.
Qed.

Lemma Decode_panics_iff (b : list byte) (q : QDecode) :
  (exists q', Decode b q = Panicked q') <->
  (valid_ipv4 b /\ len b < header_length b).
Proof.
  rewrite Decode_char. unfold Decode_tree, valid_ipv4. cbv zeta.
  destruct (Z.ltb_spec (len b) 20).
  { split; [intros [q' [=]]|lia]. }
  destruct (Z.eqb_spec (version b) 4); cbn [negb].
  2: { split; [intros [q' [=]]|tauto]. }
  destruct (Z.ltb_spec (len b) (total_length b)).
  { split; [intros [q' [=]]|lia]. }
  destruct (Z.ltb_spec (len b) (header_length b)).
  { split; [intros _; repeat split; lia|eauto]. }
  split; [|lia]. intros [q' Hq'].
  repeat match type of Hq' with
         | (if ?c then _ else _) = _ => destruct c
         end; discriminate.
Qed.

(** ** The packet the builder emits *)

Lemma be16_bytes (v : Z) :
  be16 (byte_val (mk_byte (Z.shiftr v 8))) (byte_val (mk_byte v)) = uint16 v.
Proof.
  rewrite !byte_val_mk_byte. unfold be16, uint8, uint16.
  rewrite Z.shiftr_div_pow2 by lia.
  change (2 ^ 8) with 256. change (2 ^ 16) with 65536.
  Z.div_mod_to_equations. lia.
Qed.

Lemma be32_bytes (v : Z) :
  be32 (byte_val (mk_byte (Z.shiftr v 24))) (byte_val (mk_byte (Z.shiftr v 16)))
       (byte_val (mk_byte (Z.shiftr v 8))) (byte_val (mk_byte v)) = uint32 v.
Proof.
  rewrite !byte_val_mk_byte. unfold be32, uint8, uint32.
  rewrite !Z.shiftr_div_pow2 by lia.
  change (2 ^ 8) with 256. change (2 ^ 16) with 65536.
  change (2 ^ 24) with 16777216. change (2 ^ 32) with 4294967296.
  Z.div_mod_to_equations. lia.
Qed.

Lemma byte_at_app_l (s t : list byte) (i : Z) :
  0 <= i < len s -> byte_at (s ++ t) i = byte_at s i.
Proof.
  intros Hi. unfold byte_at. rewrite lookup_app_l by (unfold len in Hi; lia).
  reflexivity.
Qed.

Lemma icmp_packet_split (src dst ipid ty code : Z) (payload : list byte) :
  exists ck1 ck2,
    icmp_packet src dst ipid ty code payload =
    (ip_header (uint16 (24 + len payload)) ipid ck1 src dst
       ++ icmp_header ty code ck2) ++ payload.
Proof.
  unfold icmp_packet. cbv zeta. do 2 eexists. now rewrite app_assoc.
Qed.

Ltac field_at :=
  unfold total_length, frag_word, protocol, src_addr, dst_addr,
    dword_at, word_at;
  rewrite !byte_at_app_l by len_side;
  unfold byte_at;
  repeat match goal with
    | |- context [Z.to_nat ?z] =>
        let n := eval vm_compute in (Z.to_nat z) in change (Z.to_nat z) with n
    end;
  cbn [lookup list_lookup ip_header icmp_header map app].

Lemma icmp_packet_fields (src dst ipid ty code : Z) (payload : list byte) :
  let out := icmp_packet src dst ipid ty code payload in
  byte_at out 0 = 0x45 /\
  total_length out = uint16 (24 + len payload) /\
  word_at out 4 = uint16 ipid /\
  frag_word out = 0 /\
  protocol out = 1 /\
  src_addr out = uint32 src /\
  dst_addr out = uint32 dst /\
  byte_at out 20 = uint8 ty /\
  byte_at out 21 = uint8 code /\
  drop 24 out = payload.
Proof.
  cbv zeta.
  destruct (icmp_packet_split src dst ipid ty code payload) as (ck1 & ck2 & ->).
  split; [field_at; reflexivity|].
  split; [field_at; rewrite be16_bytes; unfold uint16; apply Zmod_mod|].
  split; [field_at; apply be16_bytes|].
  split; [field_at; reflexivity|].
  split; [field_at; reflexivity|].
  split; [field_at; apply be32_bytes|].
  split; [field_at; apply be32_bytes|].
  split; [field_at; apply byte_val_mk_byte|].
  split; [field_at; apply byte_val_mk_byte|].
  change 24%nat with (length (ip_header (uint16 (24 + len payload)) ipid ck1 src dst
                                ++ icmp_header ty code ck2)).
  apply drop_app_length.
Qed.

Lemma int_small (z : Z) : - 2 ^ 63 <= z < 2 ^ 63 -> int z = z.
Proof.
  intros Hz. unfold int. rewrite Z.mod_small by lia. lia.
Qed.

Lemma frag_offset_zero (b : list byte) : frag_word b = 0 -> frag_offset b = 0.
Proof. unfold frag_offset. intros ->. reflexivity. Qed.

(** The record [Decode] leaves on a packet made by the builder. *)
Lemma Decode_icmp_packet (src dst ipid ty code : Z) (payload : list byte)
    (q : QDecode) :
  4 <= len payload <= 65511 ->
  let out := icmp_packet src dst ipid ty code payload in
  Decode out q =
  Returned tt
    (with_b (Some out)
       (with_DstPort 0 (with_SrcPort 0 (with_IPProto ICMP
          (with_subofs 20 (with_DstIP (uint32 dst) (with_SrcIP (uint32 src)
             (with_b None q)))))))).
Proof.
  intros Hp out.
  destruct (icmp_packet_fields src dst ipid ty code payload)
    as (H0 & Htl & _ & Hfw & Hpr & Hsrc & Hdst & _ & _ & _).
  fold out in H0, Htl, Hfw, Hpr, Hsrc, Hdst.
  pose proof (icmp_packet_len src dst ipid ty code payload) as Hlen.
  fold out in Hlen.
  assert (Hv : version out = 4) by (unfold version; now rewrite H0).
  assert (Hh : header_length out = 20)
    by (unfold header_length, ihl; now rewrite H0).
  assert (Ht : total_length out = 24 + len payload).
  { rewrite Htl. unfold uint16. apply Z.mod_small.
    change (2 ^ 16) with 65536. lia. }
  rewrite Decode_char. unfold Decode_tree. cbv zeta.
  rewrite len_sub_bytes by lia.
  rewrite Hv, Hh, Ht, Hpr, Hsrc, Hdst, (frag_offset_zero _ Hfw), Hlen.
  destruct (Z.ltb_spec (24 + len payload) 20); [lia|].
  destruct (Z.ltb_spec (24 + len payload) (24 + len payload)); [lia|].
  destruct (Z.ltb_spec (24 + len payload - 20) 8); [lia|].
  reflexivity.
Qed.

Lemma IsEchoRequest_char (q : QDecode) (b : list byte) :
  q_b q = Some b -> q_IPProto q = ICMP ->
  0 <= q_subofs q <= 60 -> q_subofs q + 8 <= len b ->
  IsEchoRequest q =
  Ok ((byte_at b (q_subofs q) =? ICMPEchoRequest)
      && (byte_at b (q_subofs q + 1) =? 0)).
Proof.
  intros Hb Hp H0 Hl. unfold IsEchoRequest, buf. rewrite Hb, Hp.
  cbn [IPProto_eqb default from_option andb id].
  rewrite (int_small (q_subofs q + 8)), (int_small (q_subofs q + 1)) by lia.
  destruct (Z.leb_spec (q_subofs q + 8) (len b)); [|lia].
  rewrite !index_byte_at by lia. cbn [mbind result_bind].
  destruct (byte_at b (q_subofs q) =? ICMPEchoRequest); reflexivity.
Qed.

(** * The claims *)

(** C6. Round trip: for every payload of 4 to 65511 bytes, the packet
    built by [GenICMP] with source 1.2.3.4, destination 5.6.7.8,
    identification 42, type 8 and code 0 exists, and [Decode] (on any
    record) classifies it as ICMP with source address 1.2.3.4 and
    destination address 5.6.7.8; [IsEchoRequest] is true of the record. *)
Theorem GenICMP_Decode_roundtrip (payload : list byte) (q : QDecode) :
  4 <= len payload <= 65511 ->
  exists out q',
    GenICMP 0x01020304 0x05060708 42 ICMPEchoRequest 0 payload = Ok (Some out) /\
    Decode out q = Returned tt q' /\
    q_IPProto q' = ICMP /\
    q_SrcIP q' = 0x01020304 /\
    q_DstIP q' = 0x05060708 /\
    IsEchoRequest q' = Ok true.
Proof.
  intros Hp.
  eexists. eexists.
  split; [apply GenICMP_spec; assumption|].
  split; [apply Decode_icmp_packet; assumption|].
  repeat split.
  set (out := icmp_packet _ _ _ _ _ _).
  assert (Hlen : 20 + 8 <= len out) by (subst out; rewrite icmp_packet_len; lia).
  match goal with
  | |- IsEchoRequest ?r = _ =>
      rewrite (IsEchoRequest_char r out eq_refl eq_refl ltac:(cbn; lia) Hlen)
  end.
  destruct (icmp_packet_fields 0x01020304 0x05060708 42 ICMPEchoRequest 0 payload)
    as (_ & _ & _ & _ & _ & _ & _ & Hty & Hco & _).
  fold out in Hty, Hco. cbn [q_subofs with_b with_DstPort with_SrcPort
    with_IPProto with_subofs]. change (20 + 1) with 21.
  rewrite Hty, Hco. reflexivity.
Qed.

Lemma GenICMP_Decode_roundtrip_witness :
  4 <= len (bytes_of [0xde; 0xad; 0xbe; 0xef]) <= 65511 /\
  exists out q',
    GenICMP 0x01020304 0x05060708 42 ICMPEchoRequest 0
      (bytes_of [0xde; 0xad; 0xbe; 0xef]) = Ok (Some out) /\
    Decode out zeroQ = Returned tt q' /\
    q_IPProto q' = ICMP /\
    q_SrcIP q' = 0x01020304 /\
    q_DstIP q' = 0x05060708 /\
    IsEchoRequest q' = Ok true.
Proof.
  assert (H : 4 <= len (bytes_of [0xde; 0xad; 0xbe; 0xef]) <= 65511)
    by (vm_compute; split; discriminate).
  split; [exact H|].
  exact (GenICMP_Decode_roundtrip (bytes_of [0xde; 0xad; 0xbe; 0xef]) zeroQ H).
Defined.

(** C7. [GenICMP] returns nil exactly when the payload is shorter than 4
    bytes or longer than 65511 bytes; for every other payload it returns a
    packet of exactly 24 + payload-length bytes. It never panics. The
    boundary lengths 3, 4, 65511 and 65512 are instances. *)
Theorem GenICMP_absent_iff (srcIP dstIP ipid icmpType icmpCode : Z)
    (payload : list byte) :
  (GenICMP srcIP dstIP ipid icmpType icmpCode payload = Ok None <->
   (len payload < 4 \/ 65511 < len payload)) /\
  (4 <= len payload <= 65511 ->
   exists out, GenICMP srcIP dstIP ipid icmpType icmpCode payload = Ok (Some out) /\
               len out = 24 + len payload).
Proof.
  split.
  - split.
    + intros Hnil.
      destruct (Z.lt_ge_cases (len payload) 4) as [|H4]; [now left|].
      destruct (Z.lt_ge_cases 65511 (len payload)) as [|H5]; [now right|].
      rewrite GenICMP_spec in Hnil by lia. discriminate.
    + apply GenICMP_nil.
  - intros Hp. eexists. split; [apply GenICMP_spec; assumption|].
    apply icmp_packet_len.
Qed.

Lemma GenICMP_absent_iff_witness :
  (len (replicate 3 Byte.x00) < 4 /\
   GenICMP 1 2 3 8 0 (replicate 3 Byte.x00) = Ok None) /\
  (65511 < len (replicate (Z.to_nat 65512) Byte.x00) /\
   GenICMP 1 2 3 8 0 (replicate (Z.to_nat 65512) Byte.x00) = Ok None) /\
  (4 <= len (replicate 4 Byte.x00) <= 65511 /\
   exists out, GenICMP 1 2 3 8 0 (replicate 4 Byte.x00) = Ok (Some out) /\
               len out = 24 + len (replicate 4 Byte.x00)) /\
  (4 <= len (replicate (Z.to_nat 65511) Byte.x00) <= 65511 /\
   exists out, GenICMP 1 2 3 8 0 (replicate (Z.to_nat 65511) Byte.x00)
               = Ok (Some out) /\
               len out = 24 + len (replicate (Z.to_nat 65511) Byte.x00)).
Proof.
  assert (H3 : len (replicate 3 Byte.x00) < 4) by (vm_compute; reflexivity).
  assert (H4 : 4 <= len (replicate 4 Byte.x00) <= 65511)
    by (vm_compute; split; discriminate).
  assert (H5 : 4 <= len (replicate (Z.to_nat 65511) Byte.x00) <= 65511)
    by (vm_compute; split; discriminate).
  assert (H6 : 65511 < len (replicate (Z.to_nat 65512) Byte.x00))
    by (vm_compute; reflexivity).
  split; [split; [exact H3|]|split; [split; [exact H6|]|split; [split; [exact H4|]|split; [exact H5|]]]].
  - exact (proj2 (proj1 (GenICMP_absent_iff 1 2 3 8 0 (replicate 3 Byte.x00)))
             (or_introl H3)).
  - exact (proj2 (proj1 (GenICMP_absent_iff 1 2 3 8 0
                           (replicate (Z.to_nat 65512) Byte.x00)))
             (or_intror H6)).
  - exact (proj2 (GenICMP_absent_iff 1 2 3 8 0 (replicate 4 Byte.x00)) H4).
  - exact (proj2 (GenICMP_absent_iff 1 2 3 8 0
                    (replicate (Z.to_nat 65511) Byte.x00)) H5).
Defined.

(** C5. The ICMP checksum that [GenICMP] backfills does not always verify.
    The builder computes the field over the whole packet, IPv4 header
    included ([ipChecksum(out)]), and not over the ICMP message, the bytes
    from offset 20. For an echo reply (type 0, code 0) with a payload of
    four zero bytes the packet is returned and its IPv4 header verifies,
    but the ICMP field (bytes 22-23 of the packet, bytes 2-3 of the
    message) holds [0x0000], while the checksum of the message with the
    field zeroed is [0xffff]; recomputed over the ICMP message, the
    checksum is [0xffff], not 0. *)
Theorem GenICMP_icmp_checksum_not_verified :
  exists out msg0,
    GenICMP 0x01020304 0x05060708 42 ICMPEchoReply 0 (bytes_of [0; 0; 0; 0])
      = Ok (Some out) /\
    ipChecksum (take 20 out) = Ok 0 /\
    word_at out 22 = 0 /\
    put16 (drop 20 out) 2 0 = Ok msg0 /\
    ipChecksum msg0 = Ok 0xffff /\
    ipChecksum (drop 20 out) = Ok 0xffff /\
    ipChecksum (drop 20 out) <> Ok 0.
Proof.
  eexists. eexists. split; [vm_compute; reflexivity|].
  split; [vm_compute; reflexivity|].
  split; [vm_compute; reflexivity|].
  split; [vm_compute; reflexivity|].
  split; [vm_compute; reflexivity|].
  split; [vm_compute; reflexivity|vm_compute; discriminate].
Qed.

(** The failing packet is one [EchoRespond] builds: the reply to the
    28-byte echo request with identifier 0 and sequence number 0. *)
Remark EchoRespond_icmp_checksum_not_verified :
  exists q out,
    Decode zero_echo_request zeroQ = Returned tt q /\
    IsEchoRequest q = Ok true /\
    EchoRespond q = Ok (Some out) /\
    word_at out 22 = 0 /\
    ipChecksum (drop 20 out) = Ok 0xffff.
Proof.
  eexists. eexists. split; [vm_compute; reflexivity|].
  split; [vm_compute; reflexivity|].
  split; [vm_compute; reflexivity|].
  split; vm_compute; reflexivity.
Qed.

(** C4. Every buffer shorter than 20 bytes, and every buffer whose
    declared total length (bytes 2-3, big endian) exceeds its actual
    length, is classified as Junk: [Decode] returns, on any record, with
    tag Junk. *)
Theorem Decode_short_or_truncated (b : list byte) (q : QDecode) :
  len b < 20 \/ len b < total_length b ->
  exists q', Decode b q = Returned tt q' /\ q_IPProto q' = Junk.
Proof.
  intros H. rewrite Decode_char. unfold Decode_tree. cbv zeta.
  destruct (Z.ltb_spec (len b) 20); [eauto|].
  destruct (negb (version b =? 4)); [eauto|].
  destruct (Z.ltb_spec (len b) (total_length b)); [eauto|lia].
Qed.

Lemma Decode_short_or_truncated_witness :
  (len (bytes_of [0x45; 0; 0; 19]) < 20 /\
   exists q', Decode (bytes_of [0x45; 0; 0; 19]) zeroQ = Returned tt q' /\
              q_IPProto q' = Junk) /\
  (len (echo_request 29) < total_length (echo_request 29) /\
   exists q', Decode (echo_request 29) zeroQ = Returned tt q' /\
              q_IPProto q' = Junk).
Proof.
  split.
  - assert (H : len (bytes_of [0x45; 0; 0; 19]) < 20) by (vm_compute; reflexivity).
    split; [exact H|].
    exact (Decode_short_or_truncated _ zeroQ (or_introl H)).
  - assert (H : len (echo_request 29) < total_length (echo_request 29))
      by (vm_compute; reflexivity).
    split; [exact H|].
    exact (Decode_short_or_truncated _ zeroQ (or_intror H)).
Defined.

(** C1. [Decode] does not return on every buffer: on the 20-byte buffer
    [ihl_overrun], which passes the length, version and total-length checks
    and whose header-length nibble 6 puts the sub-header at offset 24, the
    slice [b[q.subofs:]] is out of range and the call panics, leaving the
    record with a nil buffer, the addresses and the offset. *)
Theorem Decode_panics_on_ihl_overrun :
  valid_ipv4 ihl_overrun /\
  len ihl_overrun = 20 /\ header_length ihl_overrun = 24 /\
  Decode ihl_overrun zeroQ =
  Panicked (mkQDecode None 24 Junk 0x0A000001 0x0A000002 0 0 0).
Proof.
  unfold valid_ipv4.
  repeat split; vm_compute; (reflexivity || discriminate).
Qed.

(** C2. The first-fragment guard does not fire: [udp_first_fragment] passes
    the validation steps, has fragment offset 0, the more-fragments bit
    [0x2000] set and 8 bytes (fewer than 60) after the IP header, and
    [Decode] classifies it as UDP with ports 5000 and 53, not as Junk. *)
Theorem Decode_first_fragment_not_junk :
  valid_ipv4 udp_first_fragment /\
  frag_offset udp_first_fragment = 0 /\
  more_fragments udp_first_fragment = true /\
  len (sub_bytes udp_first_fragment) = 8 /\
  exists q', Decode udp_first_fragment zeroQ = Returned tt q' /\
             q_IPProto q' = UDP /\ q_SrcPort q' = 5000 /\ q_DstPort q' = 53.
Proof.
  unfold valid_ipv4.
  split; [repeat split; vm_compute; (reflexivity || discriminate)|].
  do 3 (split; [vm_compute; reflexivity|]).
  eexists. split; [vm_compute; reflexivity|]. repeat split.
Qed.

(** In the first-fragment branch the flag [moreFrags] of the source is
    false whatever the buffer, so its guard can never fire. *)
Lemma Decode_first_fragment_guard_dead (b : list byte) :
  frag_offset b = 0 -> negb (Z.land (frag_word b) 0x20 =? 0) = false.
Proof.
  intros H. unfold frag_offset in H. now rewrite (frag_bit_dead _ H).
Qed.

(** C3. The later-fragment test compares the fragment offset, which the
    header holds in 8-byte units, with [minFrag], a number of bytes (80).
    The buffer [fragment_at 10] passes the validation steps, its IP header
    fits, and its fragment offset is 10: not below 7, and, at byte 80,
    not below [minFrag] bytes either; [Decode] classifies it as Junk, not
    as Fragment. Moreover the Fragment path writes no port or flags field:
    [fragment_at 80], decoded into the record that the TCP segment
    [tcp_example 0x12] left, is classified as Fragment with source port
    1234, destination port 80 and flags [0x12] still in the record. *)
Theorem Decode_later_fragment_unit_mismatch :
  (valid_ipv4 (fragment_at 10) /\
   header_length (fragment_at 10) <= len (fragment_at 10) /\
   frag_offset (fragment_at 10) = 10 /\
   7 <= frag_offset (fragment_at 10) /\
   minFrag <= 8 * frag_offset (fragment_at 10) /\
   exists q', Decode (fragment_at 10) zeroQ = Returned tt q' /\
              q_IPProto q' = Junk /\ q_IPProto q' <> Fragment) /\
  (valid_ipv4 (fragment_at 80) /\
   header_length (fragment_at 80) <= len (fragment_at 80) /\
   frag_offset (fragment_at 80) = 80 /\
   exists q1 q2, Decode (tcp_example 0x12) zeroQ = Returned tt q1 /\
                 Decode (fragment_at 80) q1 = Returned tt q2 /\
                 q_IPProto q2 = Fragment /\
                 q_SrcPort q2 = 1234 /\ q_DstPort q2 = 80 /\
                 q_TCPFlags q2 = 0x12).
Proof.
  unfold valid_ipv4.
  split.
  - split; [repeat split; vm_compute; (reflexivity || discriminate)|].
    split; [vm_compute; discriminate|].
    split; [vm_compute; reflexivity|].
    split; [vm_compute; discriminate|].
    split; [vm_compute; discriminate|].
    eexists. split; [vm_compute; reflexivity|]. split; [reflexivity|discriminate].
  - split; [repeat split; vm_compute; (reflexivity || discriminate)|].
    split; [vm_compute; discriminate|].
    split; [vm_compute; reflexivity|].
    eexists. eexists. split; [vm_compute; reflexivity|].
    split; [vm_compute; reflexivity|]. repeat split.
Qed.

(** A later fragment whose header-length nibble points beyond the buffer
    is not classified at all: the call panics before the fragment test. *)
Remark Decode_later_fragment_overrun :
  valid_ipv4 fragment_overrun /\ frag_offset fragment_overrun = 100 /\
  exists q', Decode fragment_overrun zeroQ = Panicked q'.
Proof.
  unfold valid_ipv4.
  split; [repeat split; vm_compute; (reflexivity || discriminate)|].
  split; [vm_compute; reflexivity|].
  eexists. vm_compute. reflexivity.
Qed.

(** C9. The 28-byte buffer [udp_example]: a 20-byte IPv4 header with first
    byte [0x45], total length 28, protocol 17, source 10.0.0.1 and
    destination 10.0.0.2, then an 8-byte UDP header with source port 5000
    and destination port 53. [Decode], on any record, yields tag UDP with
    those addresses and ports, and the record renders as
    [UDP{10.0.0.1:5000 > 10.0.0.2:53}]. *)
Theorem Decode_udp_example (q : QDecode) :
  (len udp_example = 28 /\ byte_at udp_example 0 = 0x45 /\
   total_length udp_example = 28 /\ protocol udp_example = 17 /\
   src_addr udp_example = be32 10 0 0 1 /\ dst_addr udp_example = be32 10 0 0 2 /\
   word_at udp_example 20 = 5000 /\ word_at udp_example 22 = 53) /\
  exists q',
    Decode udp_example q = Returned tt q' /\
    q_IPProto q' = UDP /\
    q_SrcIP q' = be32 10 0 0 1 /\
    q_DstIP q' = be32 10 0 0 2 /\
    q_SrcPort q' = 5000 /\
    q_DstPort q' = 53 /\
    QDecode_String q' = "UDP{10.0.0.1:5000 > 10.0.0.2:53}"%string.
Proof.
  split; [repeat split; vm_compute; reflexivity|].
  eexists. split; [vm_compute; reflexivity|].
  repeat split; vm_compute; reflexivity.
Qed.

(** ** Records left by the decoder *)

Lemma Sub_nil (q : QDecode) (begin n : Z) :
  q_b q = None -> 0 < n < 2 ^ 63 -> Sub q begin n = Panic.
Proof.
  intros Hb Hn. unfold Sub, buf. rewrite Hb. cbn [default from_option].
  apply slice_panic. rewrite len_nil. intros [[H1 H2] H3].
  assert (Hlo : int (q_subofs q + begin) = 0) by lia.
  rewrite Hlo, Z.add_0_l, int_small in H2, H3 by lia. lia.
Qed.

Lemma Trim_nil (q : QDecode) : q_b q = None -> Trim q = Panic.
Proof.
  intros Hb. unfold Trim, buf. rewrite Hb. cbn [default from_option].
  rewrite slice_panic by (rewrite len_nil; lia). reflexivity.
Qed.

(** C10. Whatever the buffer and the record, and however the call ends,
    the record [Decode] leaves holds a buffer only if it holds the buffer
    just decoded with tag ICMP, TCP or UDP. When [Decode] returns with tag
    Junk or Fragment the buffer of the record is nil: [Trim] panics, and so
    does [Sub] for every non-empty range. *)
Theorem Decode_buffer_view (b : list byte) (q : QDecode) :
  (q_b (final (Decode b q)) <> None ->
   q_b (final (Decode b q)) = Some b /\
   (q_IPProto (final (Decode b q)) = ICMP \/
    q_IPProto (final (Decode b q)) = TCP \/
    q_IPProto (final (Decode b q)) = UDP)) /\
  (forall q',
     Decode b q = Returned tt q' ->
     q_IPProto q' = Junk \/ q_IPProto q' = Fragment ->
     q_b q' = None /\
     Trim q' = Panic /\
     forall begin n, 0 < n < 2 ^ 63 -> Sub q' begin n = Panic).
Proof.
  assert (Hnil : forall q', q_b q' = None ->
            q_b q' = None /\ Trim q' = Panic /\
            forall begin n, 0 < n < 2 ^ 63 -> Sub q' begin n = Panic).
  { intros q' Hb. split; [exact Hb|]. split; [now apply Trim_nil|].
    intros begin n Hn. now apply Sub_nil. }
  rewrite Decode_char. unfold Decode_tree. cbv zeta.
  repeat match goal with
         | |- context [if ?c then _ else _] => destruct c
         end;
    (split;
     [ cbn; first [ intros H; now contradiction H | intros _; split; auto ]
     | intros q' [= <-] Htag; first [ now apply Hnil | cbn in Htag; now destruct Htag ] ]).
Qed.

Lemma Decode_buffer_view_witness :
  Decode (fragment_at 80) zeroQ =
    Returned tt (mkQDecode None 20 Fragment 0x0A000001 0x0A000002 0 0 0) /\
  Trim (mkQDecode None 20 Fragment 0x0A000001 0x0A000002 0 0 0) = Panic /\
  Sub (mkQDecode None 20 Fragment 0x0A000001 0x0A000002 0 0 0) 0 8 = Panic.
Proof.
  assert (H : Decode (fragment_at 80) zeroQ =
              Returned tt (mkQDecode None 20 Fragment 0x0A000001 0x0A000002 0 0 0))
    by (vm_compute; reflexivity).
  split; [exact H|].
  destruct (proj2 (Decode_buffer_view (fragment_at 80) zeroQ) _ H
              (or_intror eq_refl)) as (_ & Ht & Hs).
  split; [exact Ht|].
  apply Hs. vm_compute. split; reflexivity.
Defined.

Lemma dword_at_range (b : list byte) (i : Z) : 0 <= dword_at b i < 2 ^ 32.
Proof.
  unfold dword_at, be32.
  pose proof (byte_at_range b i). pose proof (byte_at_range b (i + 1)).
  pose proof (byte_at_range b (i + 2)). pose proof (byte_at_range b (i + 3)).
  change (2 ^ 32) with 4294967296. lia.
Qed.

Lemma word_at_range (b : list byte) (i : Z) : 0 <= word_at b i < 2 ^ 16.
Proof.
  unfold word_at, be16.
  pose proof (byte_at_range b i). pose proof (byte_at_range b (i + 1)).
  change (2 ^ 16) with 65536. lia.
Qed.

(** A returned record with tag ICMP was filled on the ICMP path. *)
Lemma Decode_ICMP_inv (b : list byte) (q0 q : QDecode) :
  Decode b q0 = Returned tt q -> q_IPProto q = ICMP ->
  total_length b <= len b /\ header_length b + 8 <= len b /\
  q_b q = Some b /\ q_subofs q = header_length b /\
  q_SrcIP q = src_addr b /\ q_DstIP q = dst_addr b.
Proof.
  rewrite Decode_char. unfold Decode_tree. cbv zeta.
  destruct (Z.ltb_spec (len b) 20); [intros [= <-]; discriminate|].
  destruct (negb (version b =? 4)); [intros [= <-]; discriminate|].
  destruct (Z.ltb_spec (len b) (total_length b)); [intros [= <-]; discriminate|].
  destruct (Z.ltb_spec (len b) (header_length b)); [discriminate|].
  rewrite len_sub_bytes by assumption.
  destruct (frag_offset b =? 0).
  - destruct (protocol b =? 1).
    { destruct (Z.ltb_spec (len b - header_length b) 8);
        intros [= <-]; [discriminate|]. intros _. cbn. repeat split; lia. }
    destruct (protocol b =? 6).
    { destruct (len b - header_length b <? 20); intros [= <-]; discriminate. }
    destruct (protocol b =? 17).
    { destruct (len b - header_length b <? 8); intros [= <-]; discriminate. }
    intros [= <-]; discriminate.
  - destruct (frag_offset b <? 80); intros [= <-]; discriminate.
Qed.

Lemma IsEchoRequest_ICMP (q : QDecode) :
  IsEchoRequest q = Ok true -> q_IPProto q = ICMP.
Proof.
  unfold IsEchoRequest. destruct (q_IPProto q); cbn [IPProto_eqb andb];
    (discriminate || reflexivity).
Qed.

Lemma byte_at_take (b : list byte) (n i : Z) :
  0 <= i < n -> byte_at (take (Z.to_nat n) b) i = byte_at b i.
Proof.
  intros Hi. unfold byte_at. rewrite lookup_take_lt by lia. reflexivity.
Qed.

(** C8 as stated fails on decoded echo requests whose declared total
    length leaves a reply payload that the builder refuses. The 28-byte
    request declaring 27 bytes leaves 3 bytes from offset 24, and the
    65535-byte request with header-length nibble 1 leaves 65527 bytes from
    offset 8: [Decode] returns tag ICMP for both, [IsEchoRequest] is true,
    and [EchoRespond] returns nil, not a packet. *)
Lemma EchoRespond_counterexample :
  (exists q,
     Decode (echo_request 27) zeroQ = Returned tt q /\
     q_IPProto q = ICMP /\ IsEchoRequest q = Ok true /\
     EchoRespond q = Ok None) /\
  (returned (Decode echo_request_long zeroQ) = true /\
   q_IPProto (final (Decode echo_request_long zeroQ)) = ICMP /\
   IsEchoRequest (final (Decode echo_request_long zeroQ)) = Ok true /\
   EchoRespond (final (Decode echo_request_long zeroQ)) = Ok None).
Proof.
  split.
  - eexists. split; [vm_compute; reflexivity|].
    repeat split; vm_compute; reflexivity.
  - split; [vm_compute; reflexivity|].
    split; [vm_compute; reflexivity|].
    split; vm_compute; reflexivity.
Qed.

(** C8, amended. For every record that [Decode] returned and of which
    [IsEchoRequest] is true, if the declared total length of the request
    leaves 4 to 65511 bytes from 4 bytes past the sub-header start, then
    [EchoRespond] returns a packet whose source and destination addresses
    are the destination and source of the request, whose sub-header
    starts at offset 20 and carries type 0 and code 0, whose two bytes at
    sub-header offset 4 are those of the request at its sub-header offset
    4, and whose bytes after the 24-byte header are the bytes of the
    request, trimmed to its declared length, from 4 bytes past the
    sub-header start onward. *)
Theorem EchoRespond_reply (b : list byte) (q0 q : QDecode) :
  Decode b q0 = Returned tt q ->
  IsEchoRequest q = Ok true ->
  q_subofs q + 8 <= total_length b <= q_subofs q + 65515 ->
  exists out,
    EchoRespond q = Ok (Some out) /\
    src_addr out = q_DstIP q /\ q_DstIP q = dst_addr b /\
    dst_addr out = q_SrcIP q /\ q_SrcIP q = src_addr b /\
    header_length out = 20 /\
    byte_at out 20 = ICMPEchoReply /\ byte_at out 21 = 0 /\
    word_at out (20 + 4) = word_at b (q_subofs q + 4) /\
    drop 24 out =
      drop (Z.to_nat (q_subofs q + 4)) (take (Z.to_nat (total_length b)) b).
Proof.
  intros HD HE Hn.
  pose proof (Decode_ICMP_inv _ _ _ HD (IsEchoRequest_ICMP _ HE))
    as (Htl & Hfit & Hb & Hs & Hsrc & Hdst).
  pose proof (header_length_range b) as Hhl.
  pose proof (word_at_range b 2) as Hw. fold (total_length b) in Hw.
  unfold EchoRespond, Sub, Trim, buf. rewrite Hb, Hs in *.
  cbn [default from_option id].
  set (s := header_length b) in *. set (n := total_length b) in *.
  rewrite (int_small (s + 4)) by lia. rewrite (int_small (s + 4 + 2)) by lia.
  rewrite (read16 b (s + 4) (s + 4 + 2)) by lia. cbn [mbind result_bind].
  rewrite (read16 b 2 4) by lia. cbn [mbind result_bind]. fold (total_length b). fold n.
  unfold slice_to. rewrite slice_ok by lia. cbn [mbind result_bind].
  rewrite Z.sub_0_r. change (Z.to_nat 0) with 0%nat. rewrite drop_0.
  assert (Hlt : len (take (Z.to_nat n) b) = n)
    by (unfold len in *; rewrite length_take; lia).
  rewrite slice_from_ok by lia. cbn [mbind result_bind].
  set (payload := drop (Z.to_nat (s + 4)) (take (Z.to_nat n) b)).
  assert (Hlp : len payload = n - (s + 4))
    by (subst payload; unfold len in *; rewrite length_drop; lia).
  rewrite GenICMP_spec by lia.
  eexists. split; [reflexivity|].
  destruct (icmp_packet_fields (q_DstIP q) (q_SrcIP q) (word_at b (s + 4))
              ICMPEchoReply 0 payload)
    as (H0 & _ & _ & _ & _ & Hsa & Hda & Hty & Hco & Hdrop).
  set (out := icmp_packet _ _ _ _ _ _) in *.
  assert (Hu : forall v, 0 <= v < 2 ^ 32 -> uint32 v = v)
    by (intros v Hv; unfold uint32; now apply Z.mod_small).
  split; [rewrite Hsa, Hdst; apply Hu, dword_at_range|].
  split; [exact Hdst|].
  split; [rewrite Hda, Hsrc; apply Hu, dword_at_range|].
  split; [exact Hsrc|].
  split; [unfold header_length, ihl; now rewrite H0|].
  split; [exact Hty|]. split; [exact Hco|].
  split; [|exact Hdrop].
  unfold word_at.
  change (20 + 4) with (24 + 0). change (24 + 0 + 1) with (24 + 1).
  change 24 with (Z.of_nat 24) at 1 2.
  rewrite <- !(byte_at_drop out) by lia. rewrite !Nat2Z.id, Hdrop.
  subst payload. rewrite !byte_at_drop by lia.
  rewrite !byte_at_take by lia.
  now rewrite Z.add_0_r.
Qed.

Lemma EchoRespond_reply_witness :
  Decode (echo_request 28) zeroQ =
    Returned tt (final (Decode (echo_request 28) zeroQ)) /\
  IsEchoRequest (final (Decode (echo_request 28) zeroQ)) = Ok true /\
  q_subofs (final (Decode (echo_request 28) zeroQ)) + 8
    <= total_length (echo_request 28)
    <= q_subofs (final (Decode (echo_request 28) zeroQ)) + 65515 /\
  exists out,
    EchoRespond (final (Decode (echo_request 28) zeroQ)) = Ok (Some out) /\
    src_addr out = be32 5 6 7 8 /\
    dst_addr out = be32 1 2 3 4 /\
    byte_at out 20 = ICMPEchoReply /\ byte_at out 21 = 0 /\
    word_at out (20 + 4) = word_at (echo_request 28) (20 + 4) /\
    drop 24 out = drop 24 (echo_request 28).
Proof.
  assert (H1 : Decode (echo_request 28) zeroQ =
               Returned tt (final (Decode (echo_request 28) zeroQ)))
    by (vm_compute; reflexivity).
  assert (H2 : IsEchoRequest (final (Decode (echo_request 28) zeroQ)) = Ok true)
    by (vm_compute; reflexivity).
  assert (H3 : q_subofs (final (Decode (echo_request 28) zeroQ)) + 8
               <= total_length (echo_request 28)
               <= q_subofs (final (Decode (echo_request 28) zeroQ)) + 65515)
    by (vm_compute; split; discriminate).
  split; [exact H1|]. split; [exact H2|]. split; [exact H3|].
  destruct (EchoRespond_reply (echo_request 28) zeroQ _ H1 H2 H3)
    as (out & Ho & Hs & Hs' & Hd & Hd' & _ & Hty & Hco & Hid & Hpl).
  exists out.
  split; [exact Ho|].
  split; [rewrite Hs, Hs'; vm_compute; reflexivity|].
  split; [rewrite Hd, Hd'; vm_compute; reflexivity|].
  split; [exact Hty|]. split; [exact Hco|].
  split; [rewrite Hid; vm_compute; reflexivity|].
  rewrite Hpl. vm_compute. reflexivity.
Defined.

(** When the declared total length ends before 4 bytes past the
    sub-header start, [EchoRespond] does not return at all: the 28-byte
    request declaring 20 bytes is decoded as an ICMP echo request, and the
    slice [b[q.subofs+4:]] of the trimmed buffer is out of range. *)
Remark EchoRespond_panics_on_short_total_length :
  exists q,
    Decode (echo_request 20) zeroQ = Returned tt q /\
    IsEchoRequest q = Ok true /\
    EchoRespond q = Panic.
Proof.
  eexists. split; [vm_compute; reflexivity|].
  split; vm_compute; reflexivity.
Qed.

(** * Further properties of the decoder *)

Lemma word_at_sub_bytes (b : list byte) (k : Z) :
  0 <= k -> word_at (sub_bytes b) k = word_at b (header_length b + k).
Proof.
  intros Hk. pose proof (header_length_range b).
  unfold word_at, sub_bytes. rewrite !byte_at_drop by lia.
  now rewrite Z.add_assoc.
Qed.

Lemma byte_at_sub_bytes (b : list byte) (k : Z) :
  0 <= k -> byte_at (sub_bytes b) k = byte_at b (header_length b + k).
Proof.
  intros Hk. pose proof (header_length_range b).
  unfold sub_bytes. now rewrite byte_at_drop by lia.
Qed.

Ltac tree_cases :=
  rewrite Decode_char; unfold Decode_tree; cbv zeta;
  repeat match goal with
    | |- context [if ?c then _ else _] => destruct c eqn:?
    end.

Ltac bool_facts :=
  repeat match goal with
    | H : negb _ = true |- _ => apply negb_true_iff in H
    | H : negb _ = false |- _ => apply negb_false_iff in H
    | H : (_ <? _) = true |- _ => apply Z.ltb_lt in H
    | H : (_ <? _) = false |- _ => apply Z.ltb_ge in H
    | H : (_ =? _) = true |- _ => apply Z.eqb_eq in H
    | H : (_ =? _) = false |- _ => apply Z.eqb_neq in H
    end.

(** What a returned record with one of the three transport tags says
    about the buffer, whatever the tag. *)
Lemma Decode_transport_inv (b : list byte) (q q' : QDecode) :
  Decode b q = Returned tt q' ->
  q_IPProto q' = ICMP \/ q_IPProto q' = TCP \/ q_IPProto q' = UDP ->
  valid_ipv4 b /\ header_length b <= len b /\ frag_offset b = 0 /\
  q_b q' = Some b /\ q_subofs q' = header_length b /\
  q_SrcIP q' = src_addr b /\ q_DstIP q' = dst_addr b /\
  q_TCPFlags q' = (if IPProto_eqb (q_IPProto q') TCP
                   then Z.land (byte_at b (header_length b + 13)) 0x3F
                   else q_TCPFlags q) /\
  header_length b + (if IPProto_eqb (q_IPProto q') TCP then 20 else 8) <= len b /\
  protocol b = (match q_IPProto q' with ICMP => 1 | TCP => 6 | _ => 17 end) /\
  q_SrcPort q' = (if IPProto_eqb (q_IPProto q') ICMP then 0
                  else word_at b (header_length b)) /\
  q_DstPort q' = (if IPProto_eqb (q_IPProto q') ICMP then 0
                  else word_at b (header_length b + 2)).
Proof.
  pose proof (header_length_range b) as Hhl.
  tree_cases; intros [= <-] Htag; cbn in Htag;
    try (destruct Htag as [|[|]]; discriminate);
    bool_facts; rewrite ?len_sub_bytes in * by lia;
    cbn [q_b q_subofs q_SrcIP q_DstIP q_TCPFlags q_IPProto q_SrcPort q_DstPort
         with_b with_subofs with_IPProto with_SrcIP with_DstIP with_SrcPort
         with_DstPort with_TCPFlags IPProto_eqb];
    rewrite ?word_at_sub_bytes, ?byte_at_sub_bytes, ?Z.add_0_r by lia;
    unfold valid_ipv4; repeat split; try lia; try reflexivity; try assumption.
Qed.

(** X1. [Decode] classifies a buffer as TCP exactly when it passes the
    validation steps, its fragment offset is zero, its protocol byte is 6
    and at least 20 bytes follow an IP header that fits in the buffer (any
    header-length nibble, also below 5). The record then holds the buffer
    itself, the sub-header offset, the two addresses, the ports read from
    the first four sub-header bytes and the low six bits of sub-header
    byte 13. *)
Theorem Decode_TCP (b : list byte) (q : QDecode) :
  (carries 6 20 b <->
   exists q', Decode b q = Returned tt q' /\ q_IPProto q' = TCP) /\
  (forall q', Decode b q = Returned tt q' -> q_IPProto q' = TCP ->
     q_b q' = Some b /\ q_subofs q' = header_length b /\
     q_SrcIP q' = src_addr b /\ q_DstIP q' = dst_addr b /\
     q_SrcPort q' = word_at b (header_length b) /\
     q_DstPort q' = word_at b (header_length b + 2) /\
     q_TCPFlags q' = Z.land (byte_at b (header_length b + 13)) 0x3F).
Proof.
  split; [split|].
  - intros ((Hlen & Hv & Htl) & Hfit & Hfo & Hp).
    pose proof (header_length_range b) as Hhl.
    rewrite Decode_char. unfold Decode_tree. cbv zeta.
    rewrite len_sub_bytes by lia. rewrite Hv, Hfo, Hp. cbn [Z.eqb Pos.eqb negb].
    destruct (Z.ltb_spec (len b) 20); [lia|].
    destruct (Z.ltb_spec (len b) (total_length b)); [lia|].
    destruct (Z.ltb_spec (len b) (header_length b)); [lia|].
    destruct (Z.ltb_spec (len b - header_length b) 20); [lia|].
    eexists. split; reflexivity.
  - intros (q' & HD & Htag).
    destruct (Decode_transport_inv b q q' HD ltac:(auto))
      as (Hv & _ & Hfo & _ & _ & _ & _ & _ & Hfit & Hp & _).
    rewrite Htag in Hfit, Hp. cbn in Hfit, Hp. unfold carries. tauto.
  - intros q' HD Htag.
    destruct (Decode_transport_inv b q q' HD ltac:(auto))
      as (_ & _ & _ & Hb & Hs & Hsrc & Hdst & Hfl & _ & _ & Hsp & Hdp).
    rewrite Htag in Hfl, Hsp, Hdp. cbn in Hfl, Hsp, Hdp. tauto.
Qed.

Lemma Decode_TCP_witness :
  carries 6 20 (tcp_example 0x02) /\
  exists q', Decode (tcp_example 0x02) zeroQ = Returned tt q' /\
             q_IPProto q' = TCP /\
             q_SrcPort q' = 1234 /\ q_DstPort q' = 80 /\ q_TCPFlags q' = 2.
Proof.
  assert (H : carries 6 20 (tcp_example 0x02)).
  { unfold carries, valid_ipv4.
    repeat split; vm_compute; (reflexivity || discriminate). }
  split; [exact H|].
  destruct (proj1 (proj1 (Decode_TCP (tcp_example 0x02) zeroQ)) H)
    as (q' & HD & Htag).
  exists q'. split; [exact HD|]. split; [exact Htag|].
  destruct (proj2 (Decode_TCP (tcp_example 0x02) zeroQ) q' HD Htag)
    as (_ & _ & _ & _ & Hsp & Hdp & Hfl).
  rewrite Hsp, Hdp, Hfl. repeat split; vm_compute; reflexivity.
Defined.

(** X2. [Decode] classifies a buffer as UDP exactly when it passes the
    validation steps, its fragment offset is zero, its protocol byte is
    17 and at least 8 bytes follow an IP header that fits in the buffer.
    The record then holds the buffer itself, the sub-header offset, the
    two addresses and the ports read from the first four sub-header
    bytes; the TCP flags of the record stay as they were. *)
Theorem Decode_UDP (b : list byte) (q : QDecode) :
  (carries 17 8 b <->
   exists q', Decode b q = Returned tt q' /\ q_IPProto q' = UDP) /\
  (forall q', Decode b q = Returned tt q' -> q_IPProto q' = UDP ->
     q_b q' = Some b /\ q_subofs q' = header_length b /\
     q_SrcIP q' = src_addr b /\ q_DstIP q' = dst_addr b /\
     q_SrcPort q' = word_at b (header_length b) /\
     q_DstPort q' = word_at b (header_length b + 2) /\
     q_TCPFlags q' = q_TCPFlags q).
Proof.
  split; [split|].
  - intros ((Hlen & Hv & Htl) & Hfit & Hfo & Hp).
    pose proof (header_length_range b) as Hhl.
    rewrite Decode_char. unfold Decode_tree. cbv zeta.
    rewrite len_sub_bytes by lia. rewrite Hv, Hfo, Hp. cbn [Z.eqb Pos.eqb negb].
    destruct (Z.ltb_spec (len b) 20); [lia|].
    destruct (Z.ltb_spec (len b) (total_length b)); [lia|].
    destruct (Z.ltb_spec (len b) (header_length b)); [lia|].
    destruct (Z.ltb_spec (len b - header_length b) 8); [lia|].
    eexists. split; reflexivity.
  - intros (q' & HD & Htag).
    destruct (Decode_transport_inv b q q' HD ltac:(auto))
      as (Hv & _ & Hfo & _ & _ & _ & _ & _ & Hfit & Hp & _).
    rewrite Htag in Hfit, Hp. cbn in Hfit, Hp. unfold carries. tauto.
  - intros q' HD Htag.
    destruct (Decode_transport_inv b q q' HD ltac:(auto))
      as (_ & _ & _ & Hb & Hs & Hsrc & Hdst & Hfl & _ & _ & Hsp & Hdp).
    rewrite Htag in Hfl, Hsp, Hdp. cbn in Hfl, Hsp, Hdp. tauto.
Qed.

Lemma Decode_UDP_witness :
  carries 17 8 udp_example /\
  exists q', Decode udp_example zeroQ = Returned tt q' /\
             q_IPProto q' = UDP /\
             q_SrcPort q' = 5000 /\ q_DstPort q' = 53.
Proof.
  assert (H : carries 17 8 udp_example).
  { unfold carries, valid_ipv4.
    repeat split; vm_compute; (reflexivity || discriminate). }
  split; [exact H|].
  destruct (proj1 (proj1 (Decode_UDP udp_example zeroQ)) H) as (q' & HD & Htag).
  exists q'. split; [exact HD|]. split; [exact Htag|].
  destruct (proj2 (Decode_UDP udp_example zeroQ) q' HD Htag)
    as (_ & _ & _ & _ & Hsp & Hdp & _).
  rewrite Hsp, Hdp. split; vm_compute; reflexivity.
Defined.

(** X3. [Decode] classifies a buffer as ICMP exactly when it passes the
    validation steps, its fragment offset is zero, its protocol byte is 1
    and at least 8 bytes follow an IP header that fits in the buffer. The
    record then holds the buffer itself, the sub-header offset and the two
    addresses; both ports are set to zero, and the TCP flags of the record
    stay as they were. *)
Theorem Decode_ICMP (b : list byte) (q : QDecode) :
  (carries 1 8 b <->
   exists q', Decode b q = Returned tt q' /\ q_IPProto q' = ICMP) /\
  (forall q', Decode b q = Returned tt q' -> q_IPProto q' = ICMP ->
     q_b q' = Some b /\ q_subofs q' = header_length b /\
     q_SrcIP q' = src_addr b /\ q_DstIP q' = dst_addr b /\
     q_SrcPort q' = 0 /\ q_DstPort q' = 0 /\
     q_TCPFlags q' = q_TCPFlags q).
Proof.
  split; [split|].
  - intros ((Hlen & Hv & Htl) & Hfit & Hfo & Hp).
    pose proof (header_length_range b) as Hhl.
    rewrite Decode_char. unfold Decode_tree. cbv zeta.
    rewrite len_sub_bytes by lia. rewrite Hv, Hfo, Hp. cbn [Z.eqb Pos.eqb negb].
    destruct (Z.ltb_spec (len b) 20); [lia|].
    destruct (Z.ltb_spec (len b) (total_length b)); [lia|].
    destruct (Z.ltb_spec (len b) (header_length b)); [lia|].
    destruct (Z.ltb_spec (len b - header_length b) 8); [lia|].
    eexists. split; reflexivity.
  - intros (q' & HD & Htag).
    destruct (Decode_transport_inv b q q' HD ltac:(auto))
      as (Hv & _ & Hfo & _ & _ & _ & _ & _ & Hfit & Hp & _).
    rewrite Htag in Hfit, Hp. cbn in Hfit, Hp. unfold carries. tauto.
  - intros q' HD Htag.
    destruct (Decode_transport_inv b q q' HD ltac:(auto))
      as (_ & _ & _ & Hb & Hs & Hsrc & Hdst & Hfl & _ & _ & Hsp & Hdp).
    rewrite Htag in Hfl, Hsp, Hdp. cbn in Hfl, Hsp, Hdp. tauto.
Qed.

Lemma Decode_ICMP_witness :
  carries 1 8 (icmp_example 8 0) /\
  exists q', Decode (icmp_example 8 0) (final (Decode udp_example zeroQ))
             = Returned tt q' /\
             q_IPProto q' = ICMP /\ q_SrcPort q' = 0 /\ q_DstPort q' = 0.
Proof.
  assert (H : carries 1 8 (icmp_example 8 0)).
  { unfold carries, valid_ipv4.
    repeat split; vm_compute; (reflexivity || discriminate). }
  split; [exact H|].
  destruct (proj1 (proj1 (Decode_ICMP (icmp_example 8 0)
                            (final (Decode udp_example zeroQ)))) H)
    as (q' & HD & Htag).
  exists q'. split; [exact HD|]. split; [exact Htag|].
  destruct (proj2 (Decode_ICMP (icmp_example 8 0)
                     (final (Decode udp_example zeroQ))) q' HD Htag)
    as (_ & _ & _ & _ & Hsp & Hdp & _).
  split; assumption.
Defined.

(** X4. The outcome and the tag of [Decode] depend on the buffer alone:
    whatever two records held before, the call returns for both or panics
    for both, and leaves the same tag, buffer, sub-header offset and
    addresses in both when it returns with a tag other than Junk. *)
Theorem Decode_stateless (b : list byte) (q1 q2 : QDecode) :
  returned (Decode b q1) = returned (Decode b q2) /\
  (returned (Decode b q1) = true ->
   q_IPProto (final (Decode b q1)) = q_IPProto (final (Decode b q2)) /\
   q_b (final (Decode b q1)) = q_b (final (Decode b q2)) /\
   (q_IPProto (final (Decode b q1)) <> Junk ->
    q_subofs (final (Decode b q1)) = q_subofs (final (Decode b q2)) /\
    q_SrcIP (final (Decode b q1)) = q_SrcIP (final (Decode b q2)) /\
    q_DstIP (final (Decode b q1)) = q_DstIP (final (Decode b q2)))).
Proof.
  rewrite !Decode_char. unfold Decode_tree. cbv zeta.
  repeat match goal with
    | |- context [if ?c then _ else _] => destruct c
    end; cbn; repeat split; intros; (congruence || reflexivity).
Qed.

Lemma Decode_stateless_witness :
  returned (Decode udp_example zeroQ) = true /\
  q_IPProto (final (Decode udp_example zeroQ)) <> Junk /\
  q_IPProto (final (Decode udp_example zeroQ))
  = q_IPProto (final (Decode udp_example (final (Decode (tcp_example 2) zeroQ)))) /\
  q_SrcIP (final (Decode udp_example zeroQ))
  = q_SrcIP (final (Decode udp_example (final (Decode (tcp_example 2) zeroQ)))).
Proof.
  assert (H1 : returned (Decode udp_example zeroQ) = true) by (vm_compute; reflexivity).
  assert (H2 : q_IPProto (final (Decode udp_example zeroQ)) <> Junk)
    by (vm_compute; discriminate).
  split; [exact H1|]. split; [exact H2|].
  destruct (proj2 (Decode_stateless udp_example zeroQ
                     (final (Decode (tcp_example 2) zeroQ))) H1)
    as (Ht & _ & Hrest).
  split; [exact Ht|]. exact (proj1 (proj2 (Hrest H2))).
Defined.

(** X5. Decoding the same buffer again into the record the first call
    left changes nothing: the second call ends as the first did, with the
    same record. *)
Theorem Decode_idempotent (b : list byte) (q : QDecode) :
  Decode b (final (Decode b q)) = Decode b q.
Proof.
  rewrite !Decode_char. unfold Decode_tree. cbv zeta. destruct q.
  repeat match goal with
    | |- context [if ?c then _ else _] => destruct c
    end; reflexivity.
Qed.

(** ** The predicates on a decoded record *)

Lemma byte_at_as_byte (b : list byte) (i : Z) :
  byte_at b i = byte_val (mk_byte (byte_at b i)).
Proof.
  rewrite byte_val_mk_byte. unfold uint8. symmetry. apply Z.mod_small.
  pose proof (byte_at_range b i). lia.
Qed.

Lemma syn_only_byte (x : byte) :
  (Z.land (Z.land (byte_val x) 0x3F) TCPSynAck =? TCPSyn)
  = syn_bit (byte_val x) && negb (ack_bit (byte_val x)).
Proof. destruct x; vm_compute; reflexivity. Qed.

(** X6. For a record [Decode] returned with tag TCP, [IsTCPSyn] is true
    exactly when bit [0x02] (SYN) of byte 13 of the TCP header is set and
    bit [0x10] (ACK) is clear: true of a SYN, false of a SYN-ACK. *)
Theorem IsTCPSyn_decoded (b : list byte) (q q' : QDecode) :
  Decode b q = Returned tt q' -> q_IPProto q' = TCP ->
  IsTCPSyn q' = syn_bit (byte_at b (header_length b + 13))
                && negb (ack_bit (byte_at b (header_length b + 13))).
Proof.
  intros HD Htag.
  destruct (Decode_transport_inv b q q' HD ltac:(auto))
    as (_ & _ & _ & _ & _ & _ & _ & Hfl & _).
  rewrite Htag in Hfl. cbn in Hfl.
  unfold IsTCPSyn. rewrite Hfl.
  rewrite (byte_at_as_byte b (header_length b + 13)).
  apply syn_only_byte.
Qed.

Lemma IsTCPSyn_decoded_witness :
  (Decode (tcp_example 0x02) zeroQ
   = Returned tt (final (Decode (tcp_example 0x02) zeroQ)) /\
   q_IPProto (final (Decode (tcp_example 0x02) zeroQ)) = TCP /\
   IsTCPSyn (final (Decode (tcp_example 0x02) zeroQ)) = true) /\
  (Decode (tcp_example 0x12) zeroQ
   = Returned tt (final (Decode (tcp_example 0x12) zeroQ)) /\
   q_IPProto (final (Decode (tcp_example 0x12) zeroQ)) = TCP /\
   IsTCPSyn (final (Decode (tcp_example 0x12) zeroQ)) = false).
Proof.
  split.
  - assert (H1 : Decode (tcp_example 0x02) zeroQ
                 = Returned tt (final (Decode (tcp_example 0x02) zeroQ)))
      by (vm_compute; reflexivity).
    assert (H2 : q_IPProto (final (Decode (tcp_example 0x02) zeroQ)) = TCP)
      by (vm_compute; reflexivity).
    split; [exact H1|]. split; [exact H2|].
    rewrite (IsTCPSyn_decoded _ _ _ H1 H2). vm_compute. reflexivity.
  - assert (H1 : Decode (tcp_example 0x12) zeroQ
                 = Returned tt (final (Decode (tcp_example 0x12) zeroQ)))
      by (vm_compute; reflexivity).
    assert (H2 : q_IPProto (final (Decode (tcp_example 0x12) zeroQ)) = TCP)
      by (vm_compute; reflexivity).
    split; [exact H1|]. split; [exact H2|].
    rewrite (IsTCPSyn_decoded _ _ _ H1 H2). vm_compute. reflexivity.
Defined.

(** The three ICMP predicates on a record holding buffer [b] at a
    sub-header offset with 8 bytes behind it. *)
Lemma ICMP_predicates_on (q : QDecode) (b : list byte) :
  q_b q = Some b -> q_IPProto q = ICMP ->
  0 <= q_subofs q <= 60 -> q_subofs q + 8 <= len b ->
  IsError q = Ok ((byte_at b (q_subofs q) =? ICMPUnreachable)
                  || (byte_at b (q_subofs q) =? ICMPTimeExceeded)) /\
  IsEchoRequest q = Ok ((byte_at b (q_subofs q) =? ICMPEchoRequest)
                        && (byte_at b (q_subofs q + 1) =? 0)) /\
  IsEchoResponse q = Ok ((byte_at b (q_subofs q) =? ICMPEchoReply)
                         && (byte_at b (q_subofs q + 1) =? 0)).
Proof.
  intros Hb Hp H0 Hl.
  split; [|split; [now apply IsEchoRequest_char|]].
  - unfold IsError, buf. rewrite Hb, Hp.
    cbn [IPProto_eqb default from_option andb id].
    rewrite (int_small (q_subofs q + 8)) by lia.
    destruct (Z.leb_spec (q_subofs q + 8) (len b)); [|lia].
    rewrite index_byte_at by lia. cbn [mbind result_bind].
    destruct (_ || _); reflexivity.
  - unfold IsEchoResponse, buf. rewrite Hb, Hp.
    cbn [IPProto_eqb default from_option andb id].
    rewrite (int_small (q_subofs q + 8)), (int_small (q_subofs q + 1)) by lia.
    destruct (Z.leb_spec (q_subofs q + 8) (len b)); [|lia].
    rewrite !index_byte_at by lia. cbn [mbind result_bind].
    destruct (byte_at b (q_subofs q) =? ICMPEchoReply); reflexivity.
Qed.

(** The three predicates on a record that is not tagged ICMP, or that
    holds no buffer at an offset that is not negative. *)
Lemma ICMP_predicates_off (q : QDecode) :
  q_IPProto q <> ICMP \/ (q_b q = None /\ 0 <= q_subofs q <= 60) ->
  IsError q = Ok false /\ IsEchoRequest q = Ok false /\
  IsEchoResponse q = Ok false.
Proof.
  intros [Hp|[Hb H0]].
  - unfold IsError, IsEchoRequest, IsEchoResponse.
    destruct (q_IPProto q); try contradiction; repeat split.
  - unfold IsError, IsEchoRequest, IsEchoResponse, buf. rewrite Hb.
    cbn [default from_option]. rewrite (int_small (q_subofs q + 8)) by lia.
    rewrite len_nil.
    destruct (Z.leb_spec (q_subofs q + 8) 0); [lia|].
    rewrite !andb_false_r. repeat split.
Qed.

(** The three predicates on the record a call of [Decode] leaves. *)
Lemma ICMP_predicates_final (b : list byte) (q : QDecode) :
  let r := final (Decode b q) in
  let t := returned (Decode b q) && IPProto_eqb (q_IPProto r) ICMP in
  IsError r = Ok (t && ((byte_at b (header_length b) =? ICMPUnreachable)
                        || (byte_at b (header_length b) =? ICMPTimeExceeded))) /\
  IsEchoRequest r = Ok (t && ((byte_at b (header_length b) =? ICMPEchoRequest)
                              && (byte_at b (header_length b + 1) =? 0))) /\
  IsEchoResponse r = Ok (t && ((byte_at b (header_length b) =? ICMPEchoReply)
                               && (byte_at b (header_length b + 1) =? 0))).
Proof.
  cbv zeta. pose proof (header_length_range b) as Hhl.
  destruct (Decode b q) as [[] q'|q'] eqn:HD; cbn [final returned andb].
  - destruct (q_IPProto q') eqn:Htag; cbn [IPProto_eqb];
      try (apply ICMP_predicates_off; left; congruence).
    destruct (Decode_transport_inv b q q' HD ltac:(auto))
      as (_ & _ & _ & Hb & Hs & _ & _ & _ & Hfit & _).
    rewrite Htag in Hfit. cbn in Hfit.
    rewrite <- Hs. apply ICMP_predicates_on; auto; lia.
  - apply ICMP_predicates_off. right.
    rewrite Decode_char in HD. unfold Decode_tree in HD. cbv zeta in HD.
    repeat match type of HD with
           | (if ?c then _ else _) = _ => destruct c
           end; try discriminate.
    injection HD as <-. cbn. split; [reflexivity|lia].
Qed.

(** X7. [IsError], [IsEchoRequest] and [IsEchoResponse] return, without
    reading out of range, on the record any call of [Decode] leaves,
    returned or panicked. Each is false unless [Decode] returned with tag
    ICMP; then [IsError] tells whether the ICMP type byte is 3 or 11,
    [IsEchoRequest] whether the type is 8 and the code 0, and
    [IsEchoResponse] whether type and code are both 0. *)
Theorem ICMP_predicates_decoded (b : list byte) (q : QDecode) :
  IsError (final (Decode b q))
  = Ok (returned (Decode b q)
        && IPProto_eqb (q_IPProto (final (Decode b q))) ICMP
        && ((byte_at b (header_length b) =? 3)
            || (byte_at b (header_length b) =? 11))) /\
  IsEchoRequest (final (Decode b q))
  = Ok (returned (Decode b q)
        && IPProto_eqb (q_IPProto (final (Decode b q))) ICMP
        && ((byte_at b (header_length b) =? 8)
            && (byte_at b (header_length b + 1) =? 0))) /\
  IsEchoResponse (final (Decode b q))
  = Ok (returned (Decode b q)
        && IPProto_eqb (q_IPProto (final (Decode b q))) ICMP
        && ((byte_at b (header_length b) =? 0)
            && (byte_at b (header_length b + 1) =? 0))).
Proof. exact (ICMP_predicates_final b q). Qed.

(** X8. Of the three ICMP predicates at most one is true of the record a
    call of [Decode] leaves. *)
Theorem ICMP_predicates_exclusive (b : list byte) (q : QDecode) :
  forall e rq rs,
    IsError (final (Decode b q)) = Ok e ->
    IsEchoRequest (final (Decode b q)) = Ok rq ->
    IsEchoResponse (final (Decode b q)) = Ok rs ->
    (e && rq = false) /\ (e && rs = false) /\ (rq && rs = false).
Proof.
  intros e rq rs.
  destruct (ICMP_predicates_final b q) as (-> & -> & ->).
  intros [= <-] [= <-] [= <-].
  unfold ICMPUnreachable, ICMPTimeExceeded, ICMPEchoRequest, ICMPEchoReply.
  destruct (returned _ && _); cbn [andb]; [|repeat split].
  generalize (byte_at b (header_length b + 1) =? 0).
  generalize (byte_at b (header_length b)). intros t c.
  destruct (Z.eqb_spec t 3); destruct (Z.eqb_spec t 11);
  destruct (Z.eqb_spec t 8); destruct (Z.eqb_spec t 0);
  try lia; destruct c; repeat split.
Qed.

Lemma ICMP_predicates_exclusive_witness :
  IsError (final (Decode (icmp_example 8 0) zeroQ)) = Ok false /\
  IsEchoRequest (final (Decode (icmp_example 8 0) zeroQ)) = Ok true /\
  IsEchoResponse (final (Decode (icmp_example 8 0) zeroQ)) = Ok false /\
  (false && true = false) /\ (false && false = false) /\ (true && false = false).
Proof.
  assert (H1 : IsError (final (Decode (icmp_example 8 0) zeroQ)) = Ok false)
    by (vm_compute; reflexivity).
  assert (H2 : IsEchoRequest (final (Decode (icmp_example 8 0) zeroQ)) = Ok true)
    by (vm_compute; reflexivity).
  assert (H3 : IsEchoResponse (final (Decode (icmp_example 8 0) zeroQ)) = Ok false)
    by (vm_compute; reflexivity).
  split; [exact H1|]. split; [exact H2|]. split; [exact H3|].
  exact (ICMP_predicates_exclusive (icmp_example 8 0) zeroQ _ _ _ H1 H2 H3).
Defined.

(** ** [Sub] and [Trim] on a decoded record *)



(** X10. On a record [Decode] returned with tag ICMP, TCP or UDP, [Trim]
    returns the first bytes of the buffer, as many as its total-length
    field declares. Nothing relates that length to the sub-header offset:
    the trimmed buffer can end before the sub-header does. *)
Theorem Trim_decoded (b : list byte) (q q' : QDecode) :
  Decode b q = Returned tt q' ->
  q_IPProto q' = ICMP \/ q_IPProto q' = TCP \/ q_IPProto q' = UDP ->
  Trim q' = Ok (take (Z.to_nat (total_length b)) b) /\
  len (take (Z.to_nat (total_length b)) b) = total_length b.
Proof.
  intros HD Htag.
  destruct (Decode_transport_inv b q q' HD Htag)
    as ((Hlen & _ & Htl) & _ & _ & Hbuf & _).
  pose proof (word_at_range b 2) as Hw. fold (total_length b) in Hw.
  split.
  - unfold Trim, buf. rewrite Hbuf. cbn [default from_option id].
    rewrite (read16 b 2 4) by lia. cbn [mbind result_bind].
    fold (total_length b). unfold slice_to. rewrite slice_ok by lia.
    rewrite Z.sub_0_r. change (Z.to_nat 0) with 0%nat. now rewrite drop_0.
  - unfold len in *. rewrite length_take. lia.
Qed.

Lemma Trim_decoded_witness :
  Decode (echo_request 20) zeroQ
  = Returned tt (final (Decode (echo_request 20) zeroQ)) /\
  q_IPProto (final (Decode (echo_request 20) zeroQ)) = ICMP /\
  Trim (final (Decode (echo_request 20) zeroQ))
  = Ok (take 20 (echo_request 20)) /\
  q_subofs (final (Decode (echo_request 20) zeroQ)) + 8
  > len (take 20 (echo_request 20)).
Proof.
  assert (H1 : Decode (echo_request 20) zeroQ
               = Returned tt (final (Decode (echo_request 20) zeroQ)))
    by (vm_compute; reflexivity).
  assert (H2 : q_IPProto (final (Decode (echo_request 20) zeroQ)) = ICMP)
    by (vm_compute; reflexivity).
  split; [exact H1|]. split; [exact H2|].
  split.
  - rewrite (proj1 (Trim_decoded (echo_request 20) zeroQ _ H1 (or_introl H2))).
    vm_compute. reflexivity.
  - vm_compute. reflexivity.
Defined.

(** ** The echo reply *)

(** [EchoRespond] on a record with a transport tag, in full. *)
Lemma EchoRespond_char (b : list byte) (q0 q : QDecode) :
  Decode b q0 = Returned tt q ->
  q_IPProto q = ICMP \/ q_IPProto q = TCP \/ q_IPProto q = UDP ->
  EchoRespond q =
    if total_length b <? header_length b + 4 then Panic
    else if (total_length b <? header_length b + 8)
            || (header_length b + 65515 <? total_length b) then Ok None
    else Ok (Some (icmp_packet (dst_addr b) (src_addr b)
                     (word_at b (header_length b + 4)) ICMPEchoReply 0
                     (drop (Z.to_nat (header_length b + 4))
                        (take (Z.to_nat (total_length b)) b)))).
Proof.
  intros HD Htag.
  destruct (Decode_transport_inv b q0 q HD Htag)
    as ((Hlen & _ & Htl) & _ & _ & Hb & Hs & Hsrc & Hdst & _ & Hfit & _).
  assert (Hfit8 : header_length b + 8 <= len b)
    by (destruct (IPProto_eqb (q_IPProto q) TCP); lia).
  pose proof (header_length_range b) as Hhl.
  pose proof (word_at_range b 2) as Hw. fold (total_length b) in Hw.
  unfold EchoRespond, Sub, Trim, buf. rewrite Hb, Hs, Hsrc, Hdst.
  cbn [default from_option id].
  set (s := header_length b) in *. set (n := total_length b) in *.
  rewrite (int_small (s + 4)) by lia. rewrite (int_small (s + 4 + 2)) by lia.
  rewrite (read16 b (s + 4) (s + 4 + 2)) by lia. rewrite bind_Ok.
  rewrite (read16 b 2 4) by lia. rewrite bind_Ok. fold (total_length b). fold n.
  unfold slice_to. rewrite slice_ok by lia. rewrite bind_Ok.
  rewrite Z.sub_0_r. change (Z.to_nat 0) with 0%nat. rewrite drop_0.
  assert (Hlt : len (take (Z.to_nat n) b) = n)
    by (unfold len in *; rewrite length_take; lia).
  destruct (Z.ltb_spec n (s + 4)).
  { rewrite slice_from_panic by lia. reflexivity. }
  rewrite slice_from_ok by lia. rewrite bind_Ok.
  set (payload := drop (Z.to_nat (s + 4)) (take (Z.to_nat n) b)).
  assert (Hlp : len payload = n - (s + 4))
    by (subst payload; unfold len in *; rewrite length_drop; lia).
  destruct (Z.ltb_spec n (s + 8)); cbn [orb].
  { apply GenICMP_nil. lia. }
  destruct (Z.ltb_spec (s + 65515) n).
  { apply GenICMP_nil. lia. }
  apply GenICMP_spec. lia.
Qed.

(** X11. [EchoRespond] on a record [Decode] returned with tag ICMP, TCP
    or UDP (it does not test for an echo request itself) has three
    outcomes, decided by the declared total length [n] and the sub-header
    offset [s] of the decoded buffer: it panics exactly when [n < s + 4],
    returns nil exactly when [s + 4 <= n < s + 8] or [n > s + 65515], and
    returns a packet in all other cases. *)
Theorem EchoRespond_outcome (b : list byte) (q0 q : QDecode) :
  Decode b q0 = Returned tt q ->
  q_IPProto q = ICMP \/ q_IPProto q = TCP \/ q_IPProto q = UDP ->
  (EchoRespond q = Panic <-> total_length b < q_subofs q + 4) /\
  (EchoRespond q = Ok None <->
   (q_subofs q + 4 <= total_length b < q_subofs q + 8
    \/ q_subofs q + 65515 < total_length b)) /\
  ((exists out, EchoRespond q = Ok (Some out)) <->
   q_subofs q + 8 <= total_length b <= q_subofs q + 65515).
Proof.
  intros HD Htag.
  rewrite (EchoRespond_char b q0 q HD Htag).
  destruct (Decode_transport_inv b q0 q HD Htag)
    as (_ & _ & _ & _ & -> & _).
  destruct (Z.ltb_spec (total_length b) (header_length b + 4)).
  { repeat split; try lia; try discriminate; intros; try lia.
    destruct H0 as [out [=]]. }
  destruct (Z.ltb_spec (total_length b) (header_length b + 8)); cbn [orb].
  { repeat split; try lia; try discriminate; intros; try lia.
    destruct H1 as [out [=]]. }
  destruct (Z.ltb_spec (header_length b + 65515) (total_length b)).
  { repeat split; try lia; try discriminate; intros; try lia.
    destruct H2 as [out [=]]. }
  repeat split; try lia; try discriminate; intros; try lia.
  eauto.
Qed.

Lemma EchoRespond_outcome_witness :
  Decode (echo_request 20) zeroQ
  = Returned tt (final (Decode (echo_request 20) zeroQ)) /\
  q_IPProto (final (Decode (echo_request 20) zeroQ)) = ICMP /\
  total_length (echo_request 20)
  < q_subofs (final (Decode (echo_request 20) zeroQ)) + 4 /\
  EchoRespond (final (Decode (echo_request 20) zeroQ)) = Panic.
Proof.
  assert (H1 : Decode (echo_request 20) zeroQ
               = Returned tt (final (Decode (echo_request 20) zeroQ)))
    by (vm_compute; reflexivity).
  assert (H2 : q_IPProto (final (Decode (echo_request 20) zeroQ)) = ICMP)
    by (vm_compute; reflexivity).
  assert (H3 : total_length (echo_request 20)
               < q_subofs (final (Decode (echo_request 20) zeroQ)) + 4)
    by (vm_compute; reflexivity).
  split; [exact H1|]. split; [exact H2|]. split; [exact H3|].
  exact (proj2 (proj1 (EchoRespond_outcome (echo_request 20) zeroQ _ H1
                         (or_introl H2))) H3).
Defined.

(** ** The layout of a built packet *)

Lemma GenICMP_Some_inv (src dst ipid ty code : Z) (payload out : list byte) :
  GenICMP src dst ipid ty code payload = Ok (Some out) ->
  4 <= len payload <= 65511 /\ out = icmp_packet src dst ipid ty code payload.
Proof.
  intros Hout.
  destruct (Z.lt_ge_cases (len payload) 4) as [|H4];
    [rewrite GenICMP_nil in Hout by lia; discriminate|].
  destruct (Z.lt_ge_cases 65511 (len payload)) as [|H5];
    [rewrite GenICMP_nil in Hout by lia; discriminate|].
  rewrite GenICMP_spec in Hout by lia. injection Hout as <-.
  split; [lia|reflexivity].
Qed.

Lemma icmp_packet_fixed_fields (src dst ipid ty code : Z) (payload : list byte) :
  byte_at (icmp_packet src dst ipid ty code payload) 1 = 0 /\
  byte_at (icmp_packet src dst ipid ty code payload) 8 = 64.
Proof.
  destruct (icmp_packet_split src dst ipid ty code payload) as (ck1 & ck2 & ->).
  split; field_at; reflexivity.
Qed.

Lemma uint_small (k v : Z) : 0 <= v < 2 ^ k -> v mod 2 ^ k = v.
Proof. intros H. now apply Z.mod_small. Qed.

(** X12. Every packet [GenICMP] returns has the layout of an IPv4 header
    without options followed by an ICMP header and the payload: first byte
    [0x45], a zero second byte, total length equal to the packet length 24
    + payload length, the identification given, a zero fragmentation word,
    TTL 64, protocol 1, the two addresses, then type, code, and from
    offset 24 the payload, unchanged. [Decode] classifies it as ICMP with
    those addresses and sub-header offset 20. *)
Theorem GenICMP_layout (src dst ipid ty code : Z) (payload out : list byte)
    (q : QDecode) :
  0 <= src < 2 ^ 32 -> 0 <= dst < 2 ^ 32 -> 0 <= ipid < 2 ^ 16 ->
  0 <= ty < 2 ^ 8 -> 0 <= code < 2 ^ 8 ->
  GenICMP src dst ipid ty code payload = Ok (Some out) ->
  len out = 24 + len payload /\
  byte_at out 0 = 0x45 /\ byte_at out 1 = 0 /\
  total_length out = len out /\
  word_at out 4 = ipid /\ frag_word out = 0 /\
  byte_at out 8 = 64 /\ protocol out = 1 /\
  src_addr out = src /\ dst_addr out = dst /\
  byte_at out 20 = ty /\ byte_at out 21 = code /\
  drop 24 out = payload /\
  exists q', Decode out q = Returned tt q' /\
             q_IPProto q' = ICMP /\ q_subofs q' = 20 /\
             q_SrcIP q' = src /\ q_DstIP q' = dst /\ q_b q' = Some out.
Proof.
  intros Hsrc Hdst Hid Hty Hco Hout.
  destruct (GenICMP_Some_inv _ _ _ _ _ _ _ Hout) as (Hp & ->).
  destruct (icmp_packet_fields src dst ipid ty code payload)
    as (H0 & Htl & Hident & Hfw & Hpr & Hsa & Hda & Ht & Hc & Hdrop).
  destruct (icmp_packet_fixed_fields src dst ipid ty code payload) as (H1 & H8).
  pose proof (icmp_packet_len src dst ipid ty code payload) as Hlen.
  unfold uint32 in Hsa, Hda. unfold uint16 in Htl, Hident. unfold uint8 in Ht, Hc.
  rewrite uint_small in Hsa, Hda, Htl, Hident, Ht, Hc
    by (assumption || (change (2 ^ 16) with 65536; lia)).
  repeat (split; [first [assumption | lia]|]).
  eexists. split; [apply Decode_icmp_packet; assumption|].
  cbn. unfold uint32. rewrite !uint_small by assumption. repeat split.
Qed.

Lemma GenICMP_layout_witness :
  exists out,
    GenICMP 0x01020304 0x05060708 42 8 0 (bytes_of [1; 2; 3; 4]) = Ok (Some out) /\
    len out = 28 /\ total_length out = 28 /\ word_at out 4 = 42 /\
    byte_at out 8 = 64 /\ src_addr out = 0x01020304 /\
    drop 24 out = bytes_of [1; 2; 3; 4].
Proof.
  assert (Hout : GenICMP 0x01020304 0x05060708 42 8 0 (bytes_of [1; 2; 3; 4])
                 = Ok (Some (icmp_packet 0x01020304 0x05060708 42 8 0
                               (bytes_of [1; 2; 3; 4]))))
    by (apply GenICMP_spec; vm_compute; split; discriminate).
  eexists. split; [exact Hout|].
  destruct (GenICMP_layout 0x01020304 0x05060708 42 8 0 (bytes_of [1; 2; 3; 4])
              _ zeroQ
              ltac:(vm_compute; split; [discriminate|reflexivity])
              ltac:(vm_compute; split; [discriminate|reflexivity])
              ltac:(vm_compute; split; [discriminate|reflexivity])
              ltac:(vm_compute; split; [discriminate|reflexivity])
              ltac:(vm_compute; split; [discriminate|reflexivity])
              Hout)
    as (Hlen & _ & _ & Htl & Hid & _ & Httl & _ & Hsa & _ & _ & _ & Hdrop & _).
  rewrite Htl, Hlen. repeat split; assumption.
Defined.

(** X13. The packet [EchoRespond] returns for a decoded record is an
    echo reply to its sender: [Decode] classifies it as ICMP with the
    addresses of the request swapped, [IsEchoResponse] is true of it and
    [IsEchoRequest] and [IsError] are false. Its declared total length is
    that of the request less the request's sub-header offset plus 20, and
    its IP identification field holds the two bytes at sub-header offset 4
    of the request, the identifier of the echo. *)
Theorem EchoRespond_decodes (b : list byte) (q0 q q1 : QDecode) (out : list byte) :
  Decode b q0 = Returned tt q ->
  q_IPProto q = ICMP \/ q_IPProto q = TCP \/ q_IPProto q = UDP ->
  EchoRespond q = Ok (Some out) ->
  exists q2,
    Decode out q1 = Returned tt q2 /\
    q_IPProto q2 = ICMP /\
    q_SrcIP q2 = q_DstIP q /\ q_DstIP q2 = q_SrcIP q /\
    IsEchoResponse q2 = Ok true /\
    IsEchoRequest q2 = Ok false /\ IsError q2 = Ok false /\
    total_length out = total_length b - q_subofs q + 20 /\
    word_at out 4 = word_at b (q_subofs q + 4).
Proof.
  intros HD Htag Hout.
  rewrite (EchoRespond_char b q0 q HD Htag) in Hout.
  destruct (Decode_transport_inv b q0 q HD Htag)
    as ((Hlen & _ & Htl) & _ & _ & _ & Hs & Hsrc & Hdst & _).
  pose proof (header_length_range b) as Hhl.
  pose proof (word_at_range b 2) as Hw. fold (total_length b) in Hw.
  destruct (Z.ltb_spec (total_length b) (header_length b + 4)); [discriminate|].
  destruct (Z.ltb_spec (total_length b) (header_length b + 8));
    [discriminate|].
  destruct (Z.ltb_spec (header_length b + 65515) (total_length b));
    [discriminate|].
  cbn [orb] in Hout. injection Hout as <-.
  set (payload := drop (Z.to_nat (header_length b + 4))
                    (take (Z.to_nat (total_length b)) b)).
  assert (Hlp : len payload = total_length b - (header_length b + 4)).
  { subst payload. unfold len in *. rewrite length_drop, length_take. lia. }
  set (out := icmp_packet _ _ _ _ _ payload).
  destruct (icmp_packet_fields (dst_addr b) (src_addr b)
              (word_at b (header_length b + 4)) ICMPEchoReply 0 payload)
    as (_ & Htlo & Hident & _ & _ & _ & _ & Hty & Hco & _).
  fold out in Htlo, Hident, Hty, Hco.
  pose proof (icmp_packet_len (dst_addr b) (src_addr b)
                (word_at b (header_length b + 4)) ICMPEchoReply 0 payload) as Hlo.
  fold out in Hlo.
  eexists. split; [apply Decode_icmp_packet; lia|].
  fold out.
  match goal with
  | |- context [IsEchoResponse ?r] =>
      assert (Hr0 : 0 <= q_subofs r <= 60) by (cbn [q_subofs with_b
        with_DstPort with_SrcPort with_IPProto with_subofs]; lia);
      assert (Hr8 : q_subofs r + 8 <= len out) by (cbn [q_subofs with_b
        with_DstPort with_SrcPort with_IPProto with_subofs]; lia);
      destruct (ICMP_predicates_on r out eq_refl eq_refl Hr0 Hr8)
        as (He & Hrq & Hrs)
  end.
  rewrite He, Hrq, Hrs.
  cbn [q_subofs q_IPProto q_SrcIP q_DstIP with_b with_DstPort with_SrcPort
       with_IPProto with_subofs with_DstIP with_SrcIP].
  change (20 + 1) with 21. rewrite Hty, Hco, Hs, Hsrc, Hdst.
  unfold uint32. rewrite !uint_small by apply dword_at_range.
  repeat split.
  - rewrite Htlo. unfold uint16. rewrite uint_small
      by (change (2 ^ 16) with 65536; lia). lia.
  - rewrite Hident. unfold uint16. apply uint_small, word_at_range.
Qed.

Lemma EchoRespond_decodes_witness :
  Decode (echo_request 28) zeroQ
  = Returned tt (final (Decode (echo_request 28) zeroQ)) /\
  q_IPProto (final (Decode (echo_request 28) zeroQ)) = ICMP /\
  exists out q2,
    EchoRespond (final (Decode (echo_request 28) zeroQ)) = Ok (Some out) /\
    Decode out zeroQ = Returned tt q2 /\
    q_IPProto q2 = ICMP /\
    q_SrcIP q2 = be32 5 6 7 8 /\ q_DstIP q2 = be32 1 2 3 4 /\
    IsEchoResponse q2 = Ok true /\
    total_length out = 28 /\ word_at out 4 = be16 1 2.
Proof.
  assert (H1 : Decode (echo_request 28) zeroQ
               = Returned tt (final (Decode (echo_request 28) zeroQ)))
    by (vm_compute; reflexivity).
  assert (H2 : q_IPProto (final (Decode (echo_request 28) zeroQ)) = ICMP)
    by (vm_compute; reflexivity).
  split; [exact H1|]. split; [exact H2|].
  assert (H3 : exists out,
             EchoRespond (final (Decode (echo_request 28) zeroQ)) = Ok (Some out)).
  { eexists. vm_compute. reflexivity. }
  destruct H3 as (out & H3).
  destruct (EchoRespond_decodes (echo_request 28) zeroQ _ zeroQ out H1
              (or_introl H2) H3)
    as (q2 & HD & Ht & Hs & Hd & Hr & _ & _ & Htl & Hid).
  exists out, q2. split; [exact H3|]. split; [exact HD|]. split; [exact Ht|].
  split; [rewrite Hs; vm_compute; reflexivity|].
  split; [rewrite Hd; vm_compute; reflexivity|].
  split; [exact Hr|].
  split; [rewrite Htl; vm_compute; reflexivity|].
  rewrite Hid. vm_compute. reflexivity.
Defined.

(** X14. The later-fragment branch of [Decode], as it is written. For
    every buffer that passes the validation steps, whose IP header fits in
    the buffer, and whose fragment offset is not zero, [Decode] returns;
    the tag is Junk when the offset, in the 8-byte units of the header, is
    below the byte count [minFrag] = 80, and Fragment otherwise; and the
    source port, destination port and TCP flags of the record are those it
    held before the call. *)
Theorem Decode_later_fragment (b : list byte) (q : QDecode) :
  valid_ipv4 b -> header_length b <= len b -> frag_offset b <> 0 ->
  exists q',
    Decode b q = Returned tt q' /\
    q_IPProto q' = (if frag_offset b <? minFrag then Junk else Fragment) /\
    q_SrcPort q' = q_SrcPort q /\
    q_DstPort q' = q_DstPort q /\
    q_TCPFlags q' = q_TCPFlags q.
Proof.
  intros (Hlen & Hv & Htl) Hfit Hfo.
  rewrite Decode_char. unfold Decode_tree. cbv zeta.
  destruct (Z.ltb_spec (len b) 20); [lia|].
  rewrite Hv. cbn [Z.eqb Pos.eqb negb].
  destruct (Z.ltb_spec (len b) (total_length b)); [lia|].
  destruct (Z.ltb_spec (len b) (header_length b)); [lia|].
  destruct (Z.eqb_spec (frag_offset b) 0); [contradiction|].
  change minFrag with 80.
  destruct (frag_offset b <? 80); eexists; repeat split.
Qed.

Lemma Decode_later_fragment_witness :
  valid_ipv4 (fragment_at 80) /\
  header_length (fragment_at 80) <= len (fragment_at 80) /\
  frag_offset (fragment_at 80) <> 0 /\
  exists q',
    Decode (fragment_at 80) zeroQ = Returned tt q' /\
    q_IPProto q' =
      (if frag_offset (fragment_at 80) <? minFrag then Junk else Fragment) /\
    q_SrcPort q' = q_SrcPort zeroQ /\
    q_DstPort q' = q_DstPort zeroQ /\
    q_TCPFlags q' = q_TCPFlags zeroQ.
Proof.
  assert (H1 : valid_ipv4 (fragment_at 80))
    by (unfold valid_ipv4; repeat split; vm_compute; (reflexivity || discriminate)).
  assert (H2 : header_length (fragment_at 80) <= len (fragment_at 80))
    by (vm_compute; discriminate).
  assert (H3 : frag_offset (fragment_at 80) <> 0) by (vm_compute; discriminate).
  split; [exact H1|]. split; [exact H2|]. split; [exact H3|].
  exact (Decode_later_fragment (fragment_at 80) zeroQ H1 H2 H3).
Defined.

(** * Further properties of the checksum *)

Lemma wsum_app_even (u v : list byte) :
  Nat.even (length u) = true -> wsum (u ++ v) = wsum u + wsum v.
Proof.
  induction u as [|x|x y l IH] using list_pair_ind; intros He.
  - reflexivity.
  - discriminate.
  - cbn [app wsum]. rewrite IH by exact He. lia.
Qed.

Lemma wsum_zeros (k : nat) : wsum (replicate k Byte.x00) = 0.
Proof.
  assert (H : forall l : list byte, Forall (fun x => x = Byte.x00) l -> wsum l = 0).
  { induction l as [|x|x y l IH] using list_pair_ind; intros Hl.
    - reflexivity.
    - inversion Hl; subst. reflexivity.
    - inversion Hl as [|? ? -> Hl']; inversion Hl' as [|? ? -> Hl'']; subst.
      cbn [wsum]. rewrite IH by assumption. reflexivity. }
  apply H. now apply Forall_replicate.
Qed.

Lemma wsum_app_zeros (b : list byte) (k : nat) :
  wsum (b ++ replicate k Byte.x00) = wsum b.
Proof.
  induction b as [|x|x y l IH] using list_pair_ind.
  - apply wsum_zeros.
  - destruct k as [|k]; [reflexivity|].
    cbn [app replicate wsum]. rewrite wsum_zeros.
    change (byte_val Byte.x00) with 0. unfold be16. lia.
  - cbn [app wsum]. now rewrite IH.
Qed.

Lemma wsum_upper (b : list byte) : wsum b <= 65535 * ((len b + 1) / 2).
Proof.
  induction b as [|x|x y l IH] using list_pair_ind.
  - reflexivity.
  - cbn [wsum]. rewrite len_cons, len_nil. change ((1 + 0 + 1) / 2) with 1.
    pose proof (byte_val_range x). lia.
  - cbn [wsum]. rewrite !len_cons.
    replace ((1 + (1 + len l) + 1) / 2) with ((len l + 1) / 2 + 1)
      by (replace (1 + (1 + len l) + 1) with (len l + 1 + 1 * 2) by lia;
          rewrite Z.div_add by lia; reflexivity).
    pose proof (byte_val_range x). pose proof (byte_val_range y).
    unfold be16. lia.
Qed.

(** X15. Zero bytes appended to a buffer do not change its checksum: in
    particular the checksum of a buffer of odd length is that of the
    buffer padded to even length. *)
Theorem ipChecksum_zero_padding (b : list byte) (k : nat) :
  ipChecksum (b ++ replicate k Byte.x00) = ipChecksum b.
Proof.
  rewrite !ipChecksum_eq. f_equal.
  rewrite !ipChecksum_wsum. now rewrite wsum_app_zeros.
Qed.

(** X16. The checksum does not depend on the order of the 16-bit words:
    two blocks of even length can be swapped. *)
Theorem ipChecksum_swap_blocks (u v : list byte) :
  Nat.even (length u) = true -> Nat.even (length v) = true ->
  ipChecksum (u ++ v) = ipChecksum (v ++ u).
Proof.
  intros Hu Hv. rewrite !ipChecksum_eq. f_equal.
  rewrite !ipChecksum_wsum, !wsum_app_even by assumption.
  now rewrite Z.add_comm.
Qed.

Lemma ipChecksum_swap_blocks_witness :
  Nat.even (length (bytes_of [1; 2])) = true /\
  Nat.even (length (bytes_of [3; 4; 5; 6])) = true /\
  ipChecksum (bytes_of [1; 2] ++ bytes_of [3; 4; 5; 6])
  = ipChecksum (bytes_of [3; 4; 5; 6] ++ bytes_of [1; 2]).
Proof.
  assert (H1 : Nat.even (length (bytes_of [1; 2])) = true) by reflexivity.
  assert (H2 : Nat.even (length (bytes_of [3; 4; 5; 6])) = true) by reflexivity.
  split; [exact H1|]. split; [exact H2|].
  exact (ipChecksum_swap_blocks _ _ H1 H2).
Defined.

Lemma wsum_ff (k : nat) :
  wsum (replicate (2 * k) Byte.xff) = 65535 * Z.of_nat k.
Proof.
  induction k as [|k IH]; [reflexivity|].
  replace (2 * S k)%nat with (S (S (2 * k))) by lia.
  cbn [replicate wsum]. rewrite IH.
  change (be16 (byte_val Byte.xff) (byte_val Byte.xff)) with 65535. lia.
Qed.

(** X17. On every buffer of at most 131074 bytes the 32-bit accumulator
    does not wrap, and [ipChecksum] returns the RFC 1071 checksum: the
    value [c] in [0..65535] with [wsum b + c] a multiple of 65535, equal
    to 65535 only when all words are zero. The bound is sharp: for the
    buffer of 131076 bytes [0xff] the accumulator wraps and the value
    returned does not make the sum a multiple of 65535. *)
Theorem ipChecksum_rfc1071 :
  (forall b : list byte,
     len b <= 131074 ->
     exists c, ipChecksum b = Ok c /\ 0 <= c <= 65535 /\
               (wsum b + c) mod 65535 = 0 /\ (c = 65535 <-> wsum b = 0)) /\
  (exists b c, len b = 131076 /\ ipChecksum b = Ok c /\
               (wsum b + c) mod 65535 <> 0).
Proof.
  split.
  - intros b Hlen. exists (ipChecksum_value b).
    split; [apply ipChecksum_eq|].
    rewrite ipChecksum_wsum.
    pose proof (wsum_nonneg b) as H0. pose proof (wsum_upper b) as Hu.
    assert (Hw : 0 <= wsum b < 2 ^ 32).
    { split; [lia|]. change (2 ^ 32) with 4294967296.
      assert ((len b + 1) / 2 < 65538)
        by (apply Z.div_lt_upper_bound; lia).
      lia. }
    unfold uint32. rewrite Z.mod_small by assumption.
    rewrite fold16_char by assumption.
    destruct (Z.eqb_spec (wsum b) 0) as [E|E].
    + rewrite E. repeat split; try lia; reflexivity.
    + pose proof (Z.div_mod (wsum b - 1) 65535 ltac:(lia)) as Hdm.
      pose proof (Z.mod_pos_bound (wsum b - 1) 65535 ltac:(lia)) as Hm.
      set (t := (wsum b - 1) mod 65535) in *.
      set (d := (wsum b - 1) / 65535) in *.
      split; [lia|]. split; [|split; intros; lia].
      replace (wsum b + (65535 - (t + 1))) with (0 + (d + 1) * 65535) by lia.
      now rewrite Z.mod_add by lia.
  - exists (replicate (Z.to_nat 131076) Byte.xff), 1.
    assert (Hsum : wsum (replicate (Z.to_nat 131076) Byte.xff) = 65535 * 65538).
    { replace (Z.to_nat 131076) with (2 * Z.to_nat 65538)%nat by lia.
      rewrite wsum_ff. lia. }
    split; [unfold len; rewrite length_replicate; lia|].
    split; [|rewrite Hsum; vm_compute; discriminate].
    rewrite ipChecksum_eq, ipChecksum_wsum, Hsum. reflexivity.
Qed.

Lemma ipChecksum_rfc1071_witness :
  len (bytes_of [0x45; 0; 0; 28]) <= 131074 /\
  exists c, ipChecksum (bytes_of [0x45; 0; 0; 28]) = Ok c /\ 0 <= c <= 65535 /\
            (wsum (bytes_of [0x45; 0; 0; 28]) + c) mod 65535 = 0 /\
            (c = 65535 <-> wsum (bytes_of [0x45; 0; 0; 28]) = 0).
Proof.
  assert (H : len (bytes_of [0x45; 0; 0; 28]) <= 131074)
    by (vm_compute; discriminate).
  split; [exact H|].
  exact (proj1 ipChecksum_rfc1071 _ H).
Defined.

Lemma wsum_zero_iff (l : list byte) :
  wsum l = 0 <-> Forall (fun x => x = Byte.x00) l.
Proof.
  assert (Hz : forall x : byte, byte_val x = 0 -> x = Byte.x00)
    by (intros x Hx; apply byte_val_inj; exact Hx).
  induction l as [|x|x y l IH] using list_pair_ind.
  - split; [constructor|reflexivity].
  - cbn [wsum]. pose proof (byte_val_range x). split.
    + intros Hs0. constructor; [apply Hz; lia|constructor].
    + intros Hl. inversion Hl; subst. reflexivity.
  - cbn [wsum]. unfold be16.
    pose proof (byte_val_range x). pose proof (byte_val_range y).
    pose proof (wsum_nonneg l). split.
    + intros Hs0. constructor; [apply Hz; lia|].
      constructor; [apply Hz; lia|]. apply IH. lia.
    + intros Hl. inversion Hl as [|? ? -> Hl']; inversion Hl' as [|? ? -> Hl''].
      subst. apply IH in Hl''. rewrite Hl''. reflexivity.
Qed.

(** A checksum computed over a verified block followed by a message, and
    stored in a zeroed word of the message: the message alone verifies
    unless all its words are zero. *)
Lemma checksum_after_verified_block (h m : list byte) (i : nat) :
  Nat.even (length h) = true -> ipChecksum_value h = 0 ->
  len h + len m <= 131072 ->
  (2 * i + 2 <= length m)%nat -> setw i 0 m = m ->
  (wsum m <> 0 ->
   ipChecksum_value (setw i (ipChecksum_value (h ++ m)) m) = 0) /\
  (wsum m = 0 ->
   ipChecksum_value (h ++ m) = 0 /\
   ipChecksum_value (setw i (ipChecksum_value (h ++ m)) m) = 65535).
Proof.
  intros Hev Hh Hlen Hi Hz.
  assert (Hb : forall l : list byte, len l <= 131072 -> 0 <= wsum l < 2 ^ 32).
  { intros l Hl. pose proof (wsum_nonneg l). pose proof (wsum_upper l).
    assert ((len l + 1) / 2 < 65538) by (apply Z.div_lt_upper_bound; lia).
    change (2 ^ 32) with 4294967296. lia. }
  pose proof (len_nonneg h). pose proof (len_nonneg m).
  pose proof (Hb h ltac:(lia)) as Hbh.
  pose proof (Hb (h ++ m) ltac:(rewrite len_app; lia)) as Hbhm.
  rewrite wsum_app_even in Hbhm by assumption.
  pose proof (wsum_nonneg m) as Hm0.
  (* the block sums to a positive multiple of 65535 *)
  rewrite ipChecksum_wsum in Hh. unfold uint32 in Hh.
  rewrite Z.mod_small, fold16_char in Hh by assumption.
  assert (Hk : exists k, 0 < k /\ wsum h = 65535 * k).
  { destruct (Z.eqb_spec (wsum h) 0); [lia|].
    pose proof (Z.div_mod (wsum h - 1) 65535 ltac:(lia)).
    pose proof (Z.mod_pos_bound (wsum h - 1) 65535 ltac:(lia)).
    exists ((wsum h - 1) / 65535 + 1). split; [|lia].
    assert (0 <= (wsum h - 1) / 65535) by (apply Z.div_pos; lia). lia. }
  destruct Hk as (k & Hk0 & Hk).
  (* the stored checksum *)
  assert (Hck : ipChecksum_value (h ++ m)
                = 65535 - ((wsum h + wsum m - 1) mod 65535 + 1)).
  { rewrite ipChecksum_wsum, wsum_app_even by assumption.
    unfold uint32. rewrite Z.mod_small, fold16_char by assumption.
    destruct (Z.eqb_spec (wsum h + wsum m) 0); [lia|reflexivity]. }
  assert (Hsum : wsum (setw i (ipChecksum_value (h ++ m)) m)
                 = wsum m + ipChecksum_value (h ++ m)).
  { rewrite wsum_setw by (assumption || apply ipChecksum_value_range).
    now rewrite Hz. }
  pose proof (ipChecksum_value_range (h ++ m)) as Hr.
  split.
  - intros Hne.
    rewrite ipChecksum_wsum, Hsum, Hck.
    pose proof (Z.div_mod (wsum m - 1) 65535 ltac:(lia)) as Hdm.
    pose proof (Z.mod_pos_bound (wsum m - 1) 65535 ltac:(lia)) as Hmb.
    set (t := (wsum m - 1) mod 65535) in *.
    set (d := (wsum m - 1) / 65535) in *.
    assert (Hd : 0 <= d) by (apply Z.div_pos; lia).
    rewrite <- (Z.mod_unique_pos (wsum h + wsum m - 1) 65535 (k + d) t) by lia.
    replace (wsum m + (65535 - (t + 1))) with (65535 * (d + 1)) by lia.
    unfold uint32. rewrite Z.mod_small
      by (change (2 ^ 32) with 4294967296 in *; lia).
    rewrite fold16_char by (change (2 ^ 32) with 4294967296 in *; lia).
    destruct (Z.eqb_spec (65535 * (d + 1)) 0); [lia|].
    rewrite <- (Z.mod_unique_pos (65535 * (d + 1) - 1) 65535 d 65534) by lia.
    reflexivity.
  - intros Heq.
    assert (Hc0 : ipChecksum_value (h ++ m) = 0).
    { rewrite Hck, Heq, Z.add_0_r.
      rewrite <- (Z.mod_unique_pos (wsum h - 1) 65535 (k - 1) 65534) by lia.
      reflexivity. }
    split; [exact Hc0|].
    rewrite ipChecksum_wsum, Hsum, Hc0, Heq. reflexivity.
Qed.

(** X18. The ICMP checksum field, which [GenICMP] computes over the whole
    packet, also verifies over the ICMP message alone, the bytes from
    offset 20, as a receiver checks it - unless the type, the code and
    every payload byte are zero: then the field holds [0x0000] and the
    checksum of the message is [0xffff], not 0. *)
Theorem GenICMP_message_checksum (src dst ipid ty code : Z)
    (payload out : list byte) :
  GenICMP src dst ipid ty code payload = Ok (Some out) ->
  (wsum (icmp_header ty code 0 ++ payload) <> 0 <->
   ~ (uint8 ty = 0 /\ uint8 code = 0 /\
      Forall (fun x => x = Byte.x00) payload)) /\
  (wsum (icmp_header ty code 0 ++ payload) <> 0 ->
   ipChecksum (drop 20 out) = Ok 0) /\
  (wsum (icmp_header ty code 0 ++ payload) = 0 ->
   word_at out 22 = 0 /\ ipChecksum (drop 20 out) = Ok 0xffff).
Proof.
  intros Hout.
  destruct (GenICMP_Some_inv _ _ _ _ _ _ _ Hout) as (Hp & ->).
  split.
  { rewrite wsum_zero_iff. unfold icmp_header. cbn [map app].
    assert (Hb : forall v, mk_byte v = Byte.x00 <-> uint8 v = 0).
    { intros v. rewrite <- byte_val_mk_byte. split.
      - intros ->. reflexivity.
      - intros Hv. apply byte_val_inj. exact Hv. }
    split.
    - intros Hn (Ht & Hc & Hpl). apply Hn.
      repeat constructor; try (apply Hb; assumption); assumption.
    - intros Hn Hall. apply Hn.
      inversion Hall as [|? ? Ht Hall1]; inversion Hall1 as [|? ? Hc Hall2];
        inversion Hall2 as [|? ? _ Hall3]; inversion Hall3 as [|? ? _ Hpl].
      subst. repeat split; try (apply Hb; assumption); assumption. }
  unfold icmp_packet. cbv zeta.
  set (sz := uint16 (24 + len payload)).
  set (ck1 := ipChecksum_value (ip_header sz ipid 0 src dst)).
  set (iph := ip_header sz ipid ck1 src dst).
  set (m := icmp_header ty code 0 ++ payload).
  set (ck2 := ipChecksum_value (iph ++ m)).
  assert (Hiph : ipChecksum_value iph = 0)
    by (apply (ipChecksum_setw 5 (ip_header sz ipid 0 src dst)); simpl length; lia).
  assert (Hmsg : icmp_header ty code ck2 ++ payload = setw 1 ck2 m) by reflexivity.
  assert (Hdrop : drop 20 (iph ++ icmp_header ty code ck2 ++ payload)
                  = setw 1 ck2 m).
  { rewrite <- Hmsg. change 20%nat with (length iph). apply drop_app_length. }
  destruct (checksum_after_verified_block iph m 1) as (Hgood & Hbad);
    try reflexivity; try assumption.
  { subst m. rewrite len_app. change (len iph) with 20.
    change (len (icmp_header ty code 0)) with 4. lia. }
  { subst m. rewrite length_app. simpl length. lia. }
  rewrite Hdrop, ipChecksum_eq. fold ck2 in Hgood, Hbad.
  split.
  - intros Hne. f_equal. now apply Hgood.
  - intros Hz. destruct (Hbad Hz) as (Hck0 & Hff).
    split; [|f_equal; exact Hff].
    unfold word_at.
    rewrite (app_assoc iph), !byte_at_app_l by len_side.
    unfold byte_at. change (Z.to_nat 22) with 22%nat.
    change (Z.to_nat (22 + 1)) with 23%nat.
    cbn [lookup list_lookup iph ip_header icmp_header map app].
    rewrite Hck0. reflexivity.
Qed.

Lemma GenICMP_message_checksum_witness :
  exists out,
    GenICMP 0x01020304 0x05060708 42 8 0 (bytes_of [1; 2; 3; 4]) = Ok (Some out) /\
    wsum (icmp_header 8 0 0 ++ bytes_of [1; 2; 3; 4]) <> 0 /\
    ipChecksum (drop 20 out) = Ok 0.
Proof.
  assert (Hout : GenICMP 0x01020304 0x05060708 42 8 0 (bytes_of [1; 2; 3; 4])
                 = Ok (Some (icmp_packet 0x01020304 0x05060708 42 8 0
                               (bytes_of [1; 2; 3; 4]))))
    by (apply GenICMP_spec; vm_compute; split; discriminate).
  assert (Hne : wsum (icmp_header 8 0 0 ++ bytes_of [1; 2; 3; 4]) <> 0)
    by (vm_compute; discriminate).
  eexists. split; [exact Hout|]. split; [exact Hne|].
  exact (proj1 (proj2 (GenICMP_message_checksum _ _ _ _ _ _ _ Hout)) Hne).
Defined.

(** X19. Self-verification of [ipChecksum], for a checksum field at an
    even byte offset: word [i] of the buffer, at bytes [2i] and [2i+1],
    one of the 16-bit big-endian words the sum ranges over. For every
    buffer, of any length, and every such field inside it, zeroing the
    field, computing [ipChecksum] and storing it in the field gives a
    buffer of which [ipChecksum] returns 0. So, for every packet
    [GenICMP] returns, the checksum of its first 20 bytes (the IPv4
    header, field at offset 10) is 0, and so is the checksum of the whole
    packet, the range the builder sums for the field at offset 22. *)
Theorem ipChecksum_self_verifies :
  (forall (b : list byte) (i : Z),
     0 <= i -> 2 * i + 2 <= len b ->
     exists b0 ck b',
       put16 b (2 * i) 0 = Ok b0 /\
       ipChecksum b0 = Ok ck /\
       put16 b0 (2 * i) ck = Ok b' /\
       ipChecksum b' = Ok 0) /\
  (forall (srcIP dstIP ipid icmpType icmpCode : Z) (payload out : list byte),
     GenICMP srcIP dstIP ipid icmpType icmpCode payload = Ok (Some out) ->
     ipChecksum (take 20 out) = Ok 0 /\ ipChecksum out = Ok 0).
Proof.
  split.
  - intros b i Hi Hlen.
    assert (Hn : (2 * Z.to_nat i + 2 <= length b)%nat) by (unfold len in Hlen; lia).
    replace (2 * i) with (Z.of_nat (2 * Z.to_nat i)) by lia.
    exists (setw (Z.to_nat i) 0 b).
    exists (ipChecksum_value (setw (Z.to_nat i) 0 b)).
    exists (setw (Z.to_nat i) (ipChecksum_value (setw (Z.to_nat i) 0 b)) b).
    split; [now apply put16_setw|].
    split; [apply ipChecksum_eq|].
    split.
    + rewrite put16_setw by (now rewrite setw_length).
      f_equal. apply setw_setw.
    + rewrite ipChecksum_eq. f_equal. now apply ipChecksum_setw.
  - intros srcIP dstIP ipid icmpType icmpCode payload out Hout.
    destruct (Z.lt_ge_cases (len payload) 4) as [|H4];
      [rewrite GenICMP_nil in Hout by lia; discriminate|].
    destruct (Z.lt_ge_cases 65511 (len payload)) as [|H5];
      [rewrite GenICMP_nil in Hout by lia; discriminate|].
    rewrite GenICMP_spec in Hout by lia. injection Hout as <-.
    rewrite !ipChecksum_eq.
    unfold icmp_packet. cbv zeta.
    set (sz := uint16 (24 + len payload)).
    split; f_equal.
    + rewrite take_app_length' by reflexivity.
      apply (ipChecksum_setw 5 (ip_header sz ipid 0 srcIP dstIP)).
      simpl length. lia.
    + set (iph := ip_header sz ipid _ srcIP dstIP).
      apply (ipChecksum_setw 11 (iph ++ icmp_header icmpType icmpCode 0 ++ payload)).
      rewrite !length_app. simpl length. lia.
Qed.

Lemma ipChecksum_self_verifies_witness :
  (0 <= 1 /\ 2 * 1 + 2 <= len (bytes_of [1; 2; 3; 4; 5]) /\
   exists b0 ck b',
     put16 (bytes_of [1; 2; 3; 4; 5]) (2 * 1) 0 = Ok b0 /\
     ipChecksum b0 = Ok ck /\
     put16 b0 (2 * 1) ck = Ok b' /\
     ipChecksum b' = Ok 0) /\
  (exists out,
     GenICMP 0x01020304 0x05060708 42 8 0 (bytes_of [1; 2; 3; 4]) = Ok (Some out) /\
     ipChecksum (take 20 out) = Ok 0 /\ ipChecksum out = Ok 0).
Proof.
  split.
  - assert (H0 : 0 <= 1) by lia.
    assert (H1 : 2 * 1 + 2 <= len (bytes_of [1; 2; 3; 4; 5]))
      by (vm_compute; discriminate).
    split; [exact H0|]. split; [exact H1|].
    exact (proj1 ipChecksum_self_verifies (bytes_of [1; 2; 3; 4; 5]) 1 H0 H1).
  - eexists. split; [vm_compute; reflexivity|].
    apply (proj2 ipChecksum_self_verifies 0x01020304 0x05060708 42 8 0
             (bytes_of [1; 2; 3; 4])).
    vm_compute. reflexivity.
Defined.

(** A checksum field at an odd byte offset straddles two words of the sum
    and does not verify. Bytes 1 and 2 of [misaligned_field] hold
    [0xfeff], the checksum of the buffer with those two bytes zeroed, and
    the checksum of the buffer is [0xff00], not 0. *)
Remark ipChecksum_misaligned_field :
  exists b0,
    put16 misaligned_field 1 0 = Ok b0 /\
    ipChecksum b0 = Ok 0xfeff /\
    put16 b0 1 0xfeff = Ok misaligned_field /\
    ipChecksum misaligned_field = Ok 0xff00 /\
    ipChecksum misaligned_field <> Ok 0.
Proof.
  eexists. split; [vm_compute; reflexivity|].
  split; [vm_compute; reflexivity|].
  split; [vm_compute; reflexivity|].
  split; [vm_compute; reflexivity|vm_compute; discriminate].
Qed.

(** * Properties of the rendering *)

Lemma string_app_assoc (s t u : string) :
  ((s ++ t) ++ u = s ++ (t ++ u))%string.
Proof. induction s as [|c s IH]; cbn [append]; [reflexivity|now rewrite IH]. Qed.

Lemma all_digits_NilEmpty (d : Decimal.uint) :
  all_digits (NilEmpty.string_of_uint d) = true.
Proof.
  induction d; cbn [NilEmpty.string_of_uint all_digits];
    try rewrite IHd; reflexivity.
Qed.

Lemma dec_digits (n : Z) : all_digits (dec n) = true.
Proof.
  unfold dec, NilZero.string_of_uint.
  destruct (N.to_uint (Z.to_N n)) eqn:E; try reflexivity;
    rewrite <- E; apply all_digits_NilEmpty.
Qed.

Lemma N_to_uint_nonnil (n : N) : N.to_uint n <> Decimal.Nil.
Proof.
  destruct n as [|p]; cbn [N.to_uint]; [discriminate|].
  apply DecimalPos.Unsigned.to_uint_nonnil.
Qed.

Lemma dec_inj (a b : Z) : 0 <= a -> 0 <= b -> dec a = dec b -> a = b.
Proof.
  intros Ha Hb H. unfold dec in H.
  assert (Hu : N.to_uint (Z.to_N a) = N.to_uint (Z.to_N b)).
  { pose proof (NilZero.usu _ (N_to_uint_nonnil (Z.to_N a))) as H1.
    pose proof (NilZero.usu _ (N_to_uint_nonnil (Z.to_N b))) as H2.
    rewrite H in H1. rewrite H1 in H2. now injection H2. }
  apply DecimalN.Unsigned.to_uint_inj in Hu. lia.
Qed.

(** A run of digits ends at the first character that is not one. *)
Lemma split_digits (s1 s2 : string) (c1 c2 : ascii) (r1 r2 : string) :
  all_digits s1 = true -> all_digits s2 = true ->
  is_digit c1 = false -> is_digit c2 = false ->
  (s1 ++ String c1 r1 = s2 ++ String c2 r2)%string ->
  s1 = s2 /\ c1 = c2 /\ r1 = r2.
Proof.
  revert s2. induction s1 as [|x s1 IH]; intros [|y s2] H1 H2 Hc1 Hc2 H;
    cbn [append all_digits] in *.
  - injection H as -> ->. auto.
  - injection H as -> _. apply andb_prop in H2. destruct H2; congruence.
  - injection H as -> _. apply andb_prop in H1. destruct H1; congruence.
  - injection H as -> H. apply andb_prop in H1. apply andb_prop in H2.
    destruct (IH s2) as (-> & -> & ->); tauto.
Qed.

Lemma octet_range (ip k : Z) : 0 <= octet ip k < 256.
Proof. unfold octet, uint8. apply Z.mod_pos_bound. reflexivity. Qed.

Lemma octets_value (ip : Z) :
  0 <= ip < 2 ^ 32 ->
  ip = octet ip 24 * 16777216 + octet ip 16 * 65536 + octet ip 8 * 256 + octet ip 0.
Proof.
  intros H. unfold octet, uint8.
  rewrite !Z.shiftr_div_pow2 by lia.
  change (2 ^ 32) with 4294967296 in H.
  change (2 ^ 24) with 16777216. change (2 ^ 16) with 65536.
  change (2 ^ 8) with 256. change (2 ^ 0) with 1.
  rewrite Z.div_1_r.
  Z.div_mod_to_equations. lia.
Qed.

Lemma writeIPPort_app (sb : Builder) (ip port : Z) :
  writeIPPort sb ip port
  = (sb ++ dec (octet ip 24) ++ String "." (dec (octet ip 16) ++ String "."
       (dec (octet ip 8) ++ String "." (dec (octet ip 0) ++ String ":"
          (dec port)))))%string.
Proof.
  unfold writeIPPort, WriteUint, WriteByte. fold (dec (octet ip 24)).
  fold (dec (octet ip 16)). fold (dec (octet ip 8)). fold (dec (octet ip 0)).
  fold (dec port).
  rewrite !string_app_assoc. reflexivity.
Qed.






(** X21. [IP.String] gives the address part of the rendering of a record,
    the text [writeIPPort] writes before the colon, and distinct addresses
    have distinct renderings. *)
Theorem IP_String_injective (a b : Z) :
  0 <= a < 2 ^ 32 -> 0 <= b < 2 ^ 32 ->
  (forall (sb : Builder) (port : Z),
     writeIPPort sb a port = (sb ++ IP_String a ++ ":" ++ dec port)%string) /\
  (IP_String a = IP_String b -> a = b).
Proof.
  intros Ha Hb. split.
  - intros sb port. rewrite writeIPPort_app. unfold IP_String.
    do 4 (rewrite ?string_app_assoc; cbn [append]). reflexivity.
  - intros H. unfold IP_String in H. cbn [append] in H.
    apply split_digits in H; try apply dec_digits; try reflexivity.
    destruct H as (H24 & _ & H).
    apply split_digits in H; try apply dec_digits; try reflexivity.
    destruct H as (H16 & _ & H).
    apply split_digits in H; try apply dec_digits; try reflexivity.
    destruct H as (H8 & _ & H0).
    apply dec_inj in H24; try apply octet_range.
    apply dec_inj in H16; try apply octet_range.
    apply dec_inj in H8; try apply octet_range.
    apply dec_inj in H0; try apply octet_range.
    rewrite (octets_value a), (octets_value b) by assumption. congruence.
Qed.

Lemma IP_String_injective_witness :
  0 <= be32 10 0 0 1 < 2 ^ 32 /\
  IP_String (be32 10 0 0 1) = "10.0.0.1"%string /\
  writeIPPort "UDP{"%string (be32 10 0 0 1) 5000
  = ("UDP{" ++ IP_String (be32 10 0 0 1) ++ ":" ++ dec 5000)%string.
Proof.
  assert (H : 0 <= be32 10 0 0 1 < 2 ^ 32) by (vm_compute; repeat split; discriminate).
  split; [exact H|]. split; [vm_compute; reflexivity|].
  exact (proj1 (IP_String_injective _ _ H H) "UDP{"%string 5000).
Defined.

(** * Properties of the hex dump *)

Lemma string_app_nil_r (s : string) : (s ++ EmptyString)%string = s.
Proof. induction s as [|c s IH]; cbn [append]; [reflexivity|now rewrite IH]. Qed.

Ltac snorm := repeat (rewrite ?string_app_assoc; cbn [append]).

Lemma blank_columns_spec (n : nat) :
  forall (fuel : nat) (j : Z) (out : string),
    j = 16 - Z.of_nat n -> (n <= 16)%nat -> (n < fuel)%nat ->
    blank_columns fuel j out = (out ++ hex_cols n j [])%string.
Proof.
  induction n as [|n IH]; intros [|fuel] j out Hj Hn Hf; try lia;
    cbn [blank_columns hex_cols].
  - destruct (Z.ltb_spec j 16); [lia|]. now rewrite string_app_nil_r.
  - destruct (Z.ltb_spec j 16); [|lia].
    rewrite int_small by lia. rewrite IH by lia.
    unfold gap. destruct (j =? 8); snorm; reflexivity.
Qed.

Lemma hex_columns_spec (b : list byte) (i : Z) (n : nat) :
  forall (fuel1 fuel2 : nat) (j : Z) (out : string),
    0 <= i < 2 ^ 62 -> j = 16 - Z.of_nat n -> (n <= 16)%nat ->
    (n < fuel1)%nat -> (n < fuel2)%nat ->
    blank_columns fuel2 (fst (hex_columns fuel1 b i j out))
                        (snd (hex_columns fuel1 b i j out))
    = (out ++ hex_cols n j (drop (Z.to_nat (i + j)) b))%string.
Proof.
  induction n as [|n IH]; intros [|fuel1] fuel2 j out Hi Hj Hn Hf1 Hf2; try lia;
    cbn [hex_columns].
  - destruct (Z.ltb_spec j 16); [lia|]. cbn [andb fst snd].
    now rewrite (blank_columns_spec 0) by lia.
  - assert (Hi' : 0 <= i < 4611686018427387904) by exact Hi.
    destruct (Z.ltb_spec j 16); [|lia]. cbn [andb].
    rewrite (int_small (i + j)) by lia.
    destruct (Z.ltb_spec (i + j) (len b)) as [Hlt|Hge].
    + destruct (drop_byte_at b (i + j) ltac:(lia)) as (x & Hx & Hv).
      rewrite int_small by lia.
      rewrite IH by lia.
      rewrite Hx, Hv. cbn [hex_cols].
      replace (i + (j + 1)) with (i + j + 1) by lia.
      unfold gap. destruct (j =? 8); snorm; reflexivity.
    + cbn [fst snd].
      rewrite (drop_ge b) by (unfold len in Hge; lia).
      now apply blank_columns_spec.
Qed.

Lemma ascii_column_spec (b : list byte) (i : Z) (n : nat) :
  forall (fuel : nat) (j : Z) (out : string),
    0 <= i < 2 ^ 62 -> j = 16 - Z.of_nat n -> (n <= 16)%nat -> (n < fuel)%nat ->
    ascii_column fuel b i j out
    = (out ++ asc_cols n (drop (Z.to_nat (i + j)) b))%string.
Proof.
  induction n as [|n IH]; intros [|fuel] j out Hi Hj Hn Hf; try lia;
    cbn [ascii_column].
  - destruct (Z.ltb_spec j 16); [lia|]. cbn [andb asc_cols].
    now rewrite string_app_nil_r.
  - assert (Hi' : 0 <= i < 4611686018427387904) by exact Hi.
    destruct (Z.ltb_spec j 16); [|lia]. cbn [andb].
    rewrite (int_small (i + j)) by lia.
    destruct (Z.ltb_spec (i + j) (len b)) as [Hlt|Hge].
    + destruct (drop_byte_at b (i + j) ltac:(lia)) as (x & Hx & Hv).
      rewrite int_small by lia.
      rewrite Hx, Hv. cbn [asc_cols]. cbv zeta.
      replace (i + (j + 1)) with (i + j + 1) in IH by lia.
      unfold printable.
      destruct ((32 <=? byte_val x) && (byte_val x <? 128));
        rewrite IH by lia; replace (i + (j + 1)) with (i + j + 1) by lia;
        snorm; reflexivity.
    + rewrite (drop_ge b) by (unfold len in Hge; lia).
      cbn [asc_cols]. now rewrite string_app_nil_r.
Qed.

Lemma lines_cons (fuel : nat) (i : Z) (l : list byte) :
  l <> [] ->
  lines (S fuel) i l
  = ((if (0 <? i)%Z then newline else EmptyString)
     ++ "  " ++ fmt_04x i ++ "  " ++ hex_cols 16 0%Z l ++ " " ++ asc_cols 16 l
     ++ lines fuel (i + 16)%Z (drop 16 l))%string.
Proof. destruct l; [congruence|reflexivity]. Qed.

Lemma dump_loop_spec (b : list byte) :
  len b < 2 ^ 61 ->
  forall (fuel : nat) (i : Z) (out : string),
    0 <= i <= len b + 16 ->
    (length (drop (Z.to_nat i) b) < fuel)%nat ->
    dump_loop fuel b i out
    = (out ++ lines fuel i (drop (Z.to_nat i) b))%string.
Proof.
  intros Hb. assert (Hb' : len b < 2305843009213693952) by exact Hb.
  pose proof (len_nonneg b) as Hb0.
  induction fuel as [|fuel IH]; intros i out Hi Hf; [lia|].
  cbn [dump_loop].
  destruct (Z.ltb_spec i (len b)) as [Hlt|Hge].
  - destruct (drop_byte_at b i ltac:(lia)) as (x & Hx & _).
    pose proof (hex_columns_spec b i 16 17 17 0
                  ((if (0 <? i)%Z then out ++ newline else out)
                   ++ ("  " ++ fmt_04x i ++ "  "))%string) as Hcols.
    destruct (hex_columns 17 b i 0 _) as [j' out'] eqn:Ehc.
    cbn [fst snd] in Hcols.
    rewrite Hcols by (change (2 ^ 62) with 4611686018427387904; lia).
    rewrite (ascii_column_spec b i 16)
      by (change (2 ^ 62) with 4611686018427387904; lia).
    rewrite int_small by lia.
    rewrite IH.
    + rewrite Z.add_0_r.
      replace (drop (Z.to_nat (i + 16)) b)
        with (drop 16 (drop (Z.to_nat i) b))
        by (rewrite drop_drop; f_equal; lia).
      rewrite lines_cons by (rewrite Hx; discriminate).
      destruct (0 <? i); unfold newline; snorm; reflexivity.
    + lia.
    + rewrite Hx in Hf. cbn [length] in Hf.
      replace (Z.to_nat (i + 16)) with (Z.to_nat (i + 1) + 15)%nat by lia.
      rewrite <- drop_drop. rewrite length_drop. lia.
  - rewrite (drop_ge b) by (unfold len in Hge; lia).
    destruct fuel; cbn [lines]; now rewrite string_app_nil_r.
Qed.

Lemma Hexdump_lines (b : list byte) :
  len b < 2 ^ 61 -> Hexdump b = lines (S (length b)) 0 b.
Proof.
  intros Hb. unfold Hexdump.
  rewrite dump_loop_spec; try assumption.
  - reflexivity.
  - pose proof (len_nonneg b). lia.
  - change (Z.to_nat 0) with 0%nat. rewrite drop_0. lia.
Qed.

Lemma string_app_inv_head (p x y : string) :
  (p ++ x = p ++ y)%string -> x = y.
Proof.
  induction p as [|c p IH]; cbn [append]; [auto|].
  intros H. injection H as H. auto.
Qed.

Lemma string_app_length (s t : string) :
  String.length (s ++ t) = (String.length s + String.length t)%nat.
Proof. induction s as [|c s IH]; cbn [append String.length]; [reflexivity|now rewrite IH]. Qed.

Lemma fmt_02x_shape (x : byte) :
  exists a c, fmt_02x (byte_val x) = String a (String c EmptyString)
              /\ a <> " "%char.
Proof.
  destruct x; vm_compute; eexists; eexists; (split; [reflexivity|discriminate]).
Qed.

Lemma unhex_fmt_02x (x : byte) : unhex (fmt_02x (byte_val x)) = byte_val x.
Proof. destruct x; vm_compute; reflexivity. Qed.

Lemma fmt_02x_inj (x y : byte) :
  fmt_02x (byte_val x) = fmt_02x (byte_val y) -> x = y.
Proof.
  intros H. apply byte_val_inj.
  rewrite <- (unhex_fmt_02x x), <- (unhex_fmt_02x y). now rewrite H.
Qed.

(** The 16 columns end where they end, whatever text follows: they give
    back the bytes of the line. *)
Lemma hex_cols_inj (n : nat) :
  forall (j : Z) (l1 l2 : list byte) (r1 r2 : string),
    (hex_cols n j l1 ++ r1 = hex_cols n j l2 ++ r2)%string ->
    take n l1 = take n l2 /\ r1 = r2.
Proof.
  induction n as [|n IH]; intros j l1 l2 r1 r2 H; cbn [hex_cols] in H.
  - cbn [append] in H. now rewrite !take_0.
  - rewrite !string_app_assoc in H. apply string_app_inv_head in H.
    destruct l1 as [|x l1], l2 as [|y l2].
    + rewrite !string_app_assoc in H. apply string_app_inv_head in H.
      apply IH in H. tauto.
    + destruct (fmt_02x_shape y) as (a & c & E & Ha).
      rewrite E in H. cbn [append] in H. injection H as H _. congruence.
    + destruct (fmt_02x_shape x) as (a & c & E & Ha).
      rewrite E in H. cbn [append] in H. injection H as H _. congruence.
    + destruct (fmt_02x_shape x) as (a & c & Ex & _).
      destruct (fmt_02x_shape y) as (a' & c' & Ey & _).
      rewrite Ex, Ey in H. cbn [append] in H.
      injection H as Ha Hc H.
      assert (x = y) by (apply fmt_02x_inj; rewrite Ex, Ey; congruence).
      subst y. apply IH in H. destruct H as (Ht & Hr).
      cbn [take]. split; [now f_equal|exact Hr].
Qed.

Lemma asc_cols_take (n : nat) (l : list byte) :
  asc_cols n l = asc_cols n (take n l).
Proof.
  revert l. induction n as [|n IH]; intros [|x l]; cbn [asc_cols take];
    try reflexivity.
  now rewrite <- IH.
Qed.

Lemma lines_fuel (f f' : nat) :
  forall (i : Z) (l : list byte),
    (length l < f)%nat -> (length l < f')%nat -> lines f i l = lines f' i l.
Proof.
  revert f'. induction f as [|f IH]; intros [|f'] i l Hf Hf'; try lia.
  destruct l as [|x l]; [reflexivity|].
  rewrite !lines_cons by discriminate.
  rewrite (IH f'); [reflexivity| |];
    rewrite length_drop; cbn [length] in *; lia.
Qed.

Lemma lines_inj (f : nat) :
  forall (i : Z) (l1 l2 : list byte),
    (length l1 < f)%nat -> (length l2 < f)%nat ->
    lines f i l1 = lines f i l2 -> l1 = l2.
Proof.
  induction f as [|f IH]; intros i l1 l2 H1 H2 H; [lia|].
  destruct l1 as [|x l1], l2 as [|y l2]; [reflexivity| | |].
  - change (lines (S f) i []) with EmptyString in H.
    rewrite lines_cons in H by discriminate.
    destruct (0 <? i); unfold newline in H; cbn [append] in H; discriminate H.
  - change (lines (S f) i []) with EmptyString in H.
    rewrite lines_cons in H by discriminate.
    destruct (0 <? i); unfold newline in H; cbn [append] in H; discriminate H.
  - rewrite !lines_cons in H by discriminate.
    apply string_app_inv_head in H.
    apply (string_app_inv_head "  ") in H.
    apply string_app_inv_head in H.
    apply (string_app_inv_head "  ") in H.
    apply hex_cols_inj in H. destruct H as (Ht & H).
    rewrite (asc_cols_take 16 (x :: l1)), (asc_cols_take 16 (y :: l2)), Ht in H.
    apply (string_app_inv_head " ") in H.
    apply string_app_inv_head in H.
    apply IH in H.
    + rewrite <- (take_drop 16 (x :: l1)), <- (take_drop 16 (y :: l2)).
      now rewrite Ht, H.
    + rewrite length_drop. cbn [length] in *. lia.
    + rewrite length_drop. cbn [length] in *. lia.
Qed.

(** X22. The dump is lossless: two buffers with the same dump are the same
    buffer, and only the empty buffer has the empty dump. *)
Theorem Hexdump_injective (b1 b2 : list byte) :
  len b1 < 2 ^ 61 -> len b2 < 2 ^ 61 ->
  (Hexdump b1 = Hexdump b2 -> b1 = b2) /\
  (Hexdump b1 = EmptyString <-> b1 = []).
Proof.
  intros H1 H2.
  assert (Hinj : forall c1 c2, len c1 < 2 ^ 61 -> len c2 < 2 ^ 61 ->
                               Hexdump c1 = Hexdump c2 -> c1 = c2).
  { intros c1 c2 Hc1 Hc2 H.
    rewrite !Hexdump_lines in H by assumption.
    rewrite (lines_fuel _ (S (length c1 + length c2)) 0 c1) in H by lia.
    rewrite (lines_fuel _ (S (length c1 + length c2)) 0 c2) in H by lia.
    apply lines_inj in H; [exact H| |]; lia. }
  split; [now apply Hinj|].
  split.
  - intros H. apply Hinj; [assumption|vm_compute; reflexivity|exact H].
  - intros ->. reflexivity.
Qed.

Lemma Hexdump_injective_witness :
  len (bytes_of [0x68; 0x69]) < 2 ^ 61 /\
  (Hexdump (bytes_of [0x68; 0x69]) = EmptyString <-> bytes_of [0x68; 0x69] = []).
Proof.
  assert (H : len (bytes_of [0x68; 0x69]) < 2 ^ 61) by (vm_compute; reflexivity).
  split; [exact H|].
  exact (proj2 (Hexdump_injective _ _ H H)).
Defined.

Lemma all_from_spec (P : Z -> bool) (n : nat) :
  forall i : Z,
    all_from P n i = true ->
    forall k : Z, i <= k < i + Z.of_nat n -> P k = true.
Proof.
  induction n as [|n IH]; intros i H k Hk; [lia|].
  cbn [all_from] in H. apply andb_prop in H. destruct H as (Hi & H).
  destruct (Z.eq_dec k i) as [->|Hne]; [exact Hi|].
  apply (IH (i + 1)); [exact H|lia].
Qed.

Lemma fmt_04x_length (i : Z) :
  0 <= i < 65536 -> String.length (fmt_04x i) = 4%nat.
Proof.
  intros Hi.
  assert (Hall : all_from (fun k => Nat.eqb (String.length (fmt_04x k)) 4)
                   (Z.to_nat 65536) 0 = true) by (vm_compute; reflexivity).
  apply Nat.eqb_eq.
  apply (all_from_spec _ _ _ Hall i). lia.
Qed.

Lemma hex_cols_length (n : nat) :
  forall (j : Z) (l : list byte),
    Z.of_nat (String.length (hex_cols n j l))
    = 3 * Z.of_nat n + (if (j <=? 8) && (8 <? j + Z.of_nat n) then 1 else 0).
Proof.
  induction n as [|n IH]; intros j l; cbn [hex_cols].
  - cbn [String.length].
    destruct (Z.leb_spec j 8), (Z.ltb_spec 8 (j + Z.of_nat 0)); cbn [andb]; lia.
  - rewrite string_app_length.
    assert (Hrest : forall l', Z.of_nat (String.length (hex_cols n (j + 1) l'))
                     = 3 * Z.of_nat n
                       + (if (j + 1 <=? 8) && (8 <? j + 1 + Z.of_nat n) then 1 else 0))
      by (intros l'; apply IH).
    assert (Hgap : Z.of_nat (String.length (gap j)) = if j =? 8 then 1 else 0)
      by (unfold gap; destruct (j =? 8); reflexivity).
    assert (Hcell : Z.of_nat (String.length
                      match l with
                      | [] => ("   " ++ hex_cols n (j + 1) [])%string
                      | x :: l' => (fmt_02x (byte_val x) ++ " " ++ hex_cols n (j + 1) l')%string
                      end)
                    = 3 + 3 * Z.of_nat n
                      + (if (j + 1 <=? 8) && (8 <? j + 1 + Z.of_nat n) then 1 else 0)).
    { destruct l as [|x l'].
      - cbn [append String.length]. pose proof (Hrest []) as Hr. lia.
      - destruct (fmt_02x_shape x) as (a & c & E & _). rewrite E.
        cbn [append String.length]. pose proof (Hrest l') as Hr. lia. }
    rewrite Nat2Z.inj_add, Hgap, Hcell.
    destruct (Z.eqb_spec j 8), (Z.leb_spec j 8), (Z.leb_spec (j + 1) 8),
      (Z.ltb_spec 8 (j + 1 + Z.of_nat n)), (Z.ltb_spec 8 (j + Z.of_nat (S n)));
      cbn [andb]; lia.
Qed.

Lemma asc_cols_length (n : nat) (l : list byte) :
  String.length (asc_cols n l) = Nat.min n (length l).
Proof.
  revert l. induction n as [|n IH]; intros [|x l]; cbn [asc_cols]; try reflexivity.
  rewrite string_app_length, IH.
  unfold printable, fmt_c.
  destruct ((32 <=? byte_val x) && (byte_val x <? 128)); reflexivity.
Qed.

Lemma lines_length (f : nat) :
  forall (i : Z) (l : list byte),
    0 <= i -> len l = 0 \/ i + len l <= 65536 -> (length l < f)%nat ->
    Z.of_nat (String.length (lines f i l))
    = len l + 58 * ((len l + 15) / 16)
      + (if 0 <? i then (len l + 15) / 16 else Z.max 0 ((len l + 15) / 16 - 1)).
Proof.
  induction f as [|f IH]; intros i l Hi Hl Hf; [lia|].
  destruct l as [|x l].
  - cbn [lines]. change (len []) with 0. change ((0 + 15) / 16) with 0.
    destruct (0 <? i); reflexivity.
  - rewrite lines_cons by discriminate.
    set (l0 := x :: l) in *.
    assert (Hl0 : 1 <= len l0) by (unfold l0; rewrite len_cons; pose proof (len_nonneg l); lia).
    assert (Hd : len (drop 16 l0) = Z.max 0 (len l0 - 16))
      by (unfold len; rewrite length_drop; lia).
    assert (HN : (len l0 + 15) / 16 = 1 + (len (drop 16 l0) + 15) / 16).
    { rewrite Hd. destruct (Z.le_gt_cases (len l0) 16).
      - rewrite Z.max_l by lia. change ((0 + 15) / 16) with 0.
        symmetry. apply Z.div_unique with (r := len l0 - 1); lia.
      - rewrite Z.max_r by lia.
        replace (len l0 + 15) with (len l0 - 16 + 15 + 1 * 16) by lia.
        rewrite Z.div_add by lia. lia. }
    assert (HNpos : 0 <= (len (drop 16 l0) + 15) / 16)
      by (apply Z.div_pos; pose proof (len_nonneg (drop 16 l0)); lia).
    rewrite !string_app_length, !Nat2Z.inj_add.
    rewrite hex_cols_length, asc_cols_length, fmt_04x_length by (unfold len in *; lia).
    rewrite IH; [| lia | rewrite Hd; lia
                | rewrite length_drop; unfold l0 in *; cbn [length] in *; lia].
    assert (Hmin : Z.of_nat (Nat.min 16 (length l0)) = len l0 - len (drop 16 l0))
      by (rewrite Hd; unfold len; lia).
    rewrite Hmin.
    change ((0 <=? 8) && (8 <? 0 + Z.of_nat 16)) with true. cbv iota.
    destruct (Z.ltb_spec 0 (i + 16)); [|lia].
    rewrite HN.
    destruct (Z.ltb_spec 0 i); unfold newline; cbn [String.length]; lia.
Qed.

(** X23. The length of the dump. For a buffer of [n] bytes, [n] at most
    65536, the dump is [n + 59 * ceil(n / 16) - 1] characters long, and
    empty for the empty buffer: each line of up to 16 bytes takes 58
    characters for the offset in four digits, the 16 columns and the
    gaps, and one character per byte; one line feed stands between two
    lines and none after the last. *)
Theorem Hexdump_length (b : list byte) :
  len b <= 65536 ->
  Z.of_nat (String.length (Hexdump b))
  = len b + 59 * ((len b + 15) / 16) - (if len b =? 0 then 0 else 1).
Proof.
  intros Hb. pose proof (len_nonneg b) as H0.
  rewrite Hexdump_lines by (change (2 ^ 61) with 2305843009213693952; lia).
  rewrite lines_length by lia.
  cbn [Z.ltb Z.compare].
  destruct (Z.eqb_spec (len b) 0) as [E|E].
  - rewrite E. reflexivity.
  - assert (1 <= (len b + 15) / 16)
      by (apply Z.div_le_lower_bound; lia).
    lia.
Qed.

Lemma Hexdump_length_witness :
  len udp_example <= 65536 /\
  Z.of_nat (String.length (Hexdump udp_example)) = 28 + 59 * 2 - 1.
Proof.
  assert (H : len udp_example <= 65536) by (vm_compute; discriminate).
  split; [exact H|].
  exact (Hexdump_length udp_example H).
Defined.

(** * Properties of the Secret keys *)

Lemma valid_key_rune_dec (r : Z) :
  valid_key_rune r <-> existsb (Z.eqb r) key_alphabet = true.
Proof.
  unfold valid_key_rune. rewrite existsb_exists. split.
  - intros H. exists r. split; [exact H|apply Z.eqb_refl].
  - intros (x & Hx & He). apply Z.eqb_eq in He. now subst.
Qed.

Lemma sanitize_rune_test (r : Z) :
  (rune_of "a" <=? r) && (r <=? rune_of "z")
  || (rune_of "A" <=? r) && (r <=? rune_of "Z")
  || (rune_of "0" <=? r) && (r <=? rune_of "9")
  || (r =? rune_of "-") || (r =? rune_of "_") || (r =? rune_of ".")
  = existsb (Z.eqb r) key_alphabet.
Proof.
  destruct (Z.lt_ge_cases r 0) as [Hneg|Hpos];
    [|destruct (Z.lt_ge_cases r 128) as [Hlo|Hhi]].
  - transitivity false.
    + change (rune_of "a") with 97. change (rune_of "z") with 122.
      change (rune_of "A") with 65. change (rune_of "Z") with 90.
      change (rune_of "0") with 48. change (rune_of "9") with 57.
      change (rune_of "-") with 45. change (rune_of "_") with 95.
      change (rune_of ".") with 46.
      repeat match goal with
             | |- context [?a <=? ?b] => destruct (Z.leb_spec a b); try lia
             | |- context [?a =? ?b] => destruct (Z.eqb_spec a b); try lia
             end; reflexivity.
    + symmetry. apply not_true_is_false. intros H.
      apply existsb_exists in H. destruct H as (x & Hx & He).
      apply Z.eqb_eq in He. subst x.
      assert (Hall : List.Forall (fun x => 0 <= x) key_alphabet)
        by (vm_compute; repeat constructor; discriminate).
      rewrite List.Forall_forall in Hall. apply Hall in Hx. lia.
  - assert (Hall : forallb (fun n =>
               let r := Z.of_nat n in
               Bool.eqb ((rune_of "a" <=? r) && (r <=? rune_of "z")
                         || (rune_of "A" <=? r) && (r <=? rune_of "Z")
                         || (rune_of "0" <=? r) && (r <=? rune_of "9")
                         || (r =? rune_of "-") || (r =? rune_of "_")
                         || (r =? rune_of "."))
                        (existsb (Z.eqb r) key_alphabet))
               (seq 0 128) = true) by (vm_compute; reflexivity).
    rewrite forallb_forall in Hall.
    specialize (Hall (Z.to_nat r)).
    rewrite Z2Nat.id in Hall by lia.
    apply Bool.eqb_prop. apply Hall. apply in_seq. lia.
  - transitivity false.
    + change (rune_of "a") with 97. change (rune_of "z") with 122.
      change (rune_of "A") with 65. change (rune_of "Z") with 90.
      change (rune_of "0") with 48. change (rune_of "9") with 57.
      change (rune_of "-") with 45. change (rune_of "_") with 95.
      change (rune_of ".") with 46.
      repeat match goal with
             | |- context [?a <=? ?b] => destruct (Z.leb_spec a b); try lia
             | |- context [?a =? ?b] => destruct (Z.eqb_spec a b); try lia
             end; reflexivity.
    + symmetry. apply not_true_is_false. intros H.
      apply existsb_exists in H. destruct H as (x & Hx & He).
      apply Z.eqb_eq in He. subst x.
      assert (Hall : List.Forall (fun x => x < 128) key_alphabet)
        by (vm_compute; repeat constructor).
      rewrite List.Forall_forall in Hall. apply Hall in Hx. lia.
Qed.

Lemma valid_key_rune_cases (r : Z) : valid_key_rune r \/ ~ valid_key_rune r.
Proof.
  rewrite valid_key_rune_dec.
  destruct (existsb (Z.eqb r) key_alphabet); [left|right]; congruence.
Qed.

Lemma sanitize_rune_valid_id (r : Z) : valid_key_rune r -> sanitize_rune r = r.
Proof.
  intros H. unfold sanitize_rune. rewrite sanitize_rune_test.
  apply valid_key_rune_dec in H. now rewrite H.
Qed.

Lemma sanitize_rune_invalid (r : Z) :
  ~ valid_key_rune r -> sanitize_rune r = rune_of "_".
Proof.
  intros H. unfold sanitize_rune. rewrite sanitize_rune_test.
  rewrite valid_key_rune_dec in H.
  destruct (existsb (Z.eqb r) key_alphabet); [congruence|reflexivity].
Qed.

Lemma valid_underscore : valid_key_rune (rune_of "_").
Proof. apply valid_key_rune_dec. vm_compute. reflexivity. Qed.

Lemma sanitize_rune_valid (r : Z) : valid_key_rune (sanitize_rune r).
Proof.
  destruct (valid_key_rune_cases r) as [H|H].
  - now rewrite sanitize_rune_valid_id.
  - rewrite sanitize_rune_invalid by assumption. apply valid_underscore.
Qed.

Lemma valid_key_rune_nonneg (r : Z) : valid_key_rune r -> 0 <= r.
Proof.
  intros H.
  assert (Hall : List.Forall (fun x => 0 <= x) key_alphabet)
    by (vm_compute; repeat constructor; discriminate).
  rewrite List.Forall_forall in Hall. now apply Hall.
Qed.

Lemma sanitizeKey_map (k : list Z) : sanitizeKey k = map sanitize_rune k.
Proof.
  unfold sanitizeKey, strings_Map.
  induction k as [|r k IH]; [reflexivity|].
  cbn [flat_map map]. rewrite IH.
  pose proof (valid_key_rune_nonneg _ (sanitize_rune_valid r)).
  destruct (Z.ltb_spec (sanitize_rune r) 0); [lia|reflexivity].
Qed.

Lemma sanitize_rune_same (a b : Z) :
  sanitize_rune a = sanitize_rune b <-> same_key_rune a b.
Proof.
  unfold same_key_rune, replaced. split.
  - intros H.
    destruct (valid_key_rune_cases a) as [Ha|Ha];
      destruct (valid_key_rune_cases b) as [Hb|Hb].
    + left. now rewrite <- (sanitize_rune_valid_id a), <- (sanitize_rune_valid_id b).
    + right. rewrite (sanitize_rune_valid_id a), (sanitize_rune_invalid b) in H
        by assumption. tauto.
    + right. rewrite (sanitize_rune_invalid a), (sanitize_rune_valid_id b) in H
        by assumption. symmetry in H. tauto.
    + right. tauto.
  - assert (Hr : forall r, r = rune_of "_" \/ ~ valid_key_rune r ->
                           sanitize_rune r = rune_of "_").
    { intros r [->|Hr]; [apply sanitize_rune_valid_id, valid_underscore|].
      now apply sanitize_rune_invalid. }
    intros [->|(Ha & Hb)]; [reflexivity|].
    now rewrite (Hr a), (Hr b).
Qed.

(** X24. The key [sanitizeKey] returns has as many runes as the key given
    and holds valid characters only (alphanumeric, [-], [_], [.]); a key
    is returned unchanged exactly when all its runes are valid; and
    sanitizing twice is sanitizing once. *)
Theorem sanitizeKey_valid (k : list Z) :
  length (sanitizeKey k) = length k /\
  Forall valid_key_rune (sanitizeKey k) /\
  (sanitizeKey k = k <-> Forall valid_key_rune k) /\
  sanitizeKey (sanitizeKey k) = sanitizeKey k.
Proof.
  rewrite !sanitizeKey_map.
  split; [apply length_map|].
  split.
  { induction k as [|r k IH]; cbn [map]; constructor;
      [apply sanitize_rune_valid|exact IH]. }
  assert (Hfix : forall l, map sanitize_rune l = l <-> Forall valid_key_rune l).
  { induction l as [|r l IH]; cbn [map].
    - split; [constructor|reflexivity].
    - split.
      + intros H. injection H as Hr Hl. constructor; [|now apply IH].
        rewrite <- Hr. apply sanitize_rune_valid.
      + intros H. inversion H as [|? ? Hr Hl]; subst.
        f_equal; [now apply sanitize_rune_valid_id|now apply IH]. }
  split; [apply Hfix|].
  apply Hfix.
  induction k as [|r k IH]; cbn [map]; constructor;
    [apply sanitize_rune_valid|exact IH].
Qed.

(** X25. Two keys are stored under the same key of the Secret exactly
    when they have the same number of runes and differ only at positions
    where each has [_] or a character that is not valid. *)
Theorem sanitizeKey_collision (k1 k2 : list Z) :
  sanitizeKey k1 = sanitizeKey k2 <-> Forall2 same_key_rune k1 k2.
Proof.
  rewrite !sanitizeKey_map. revert k2.
  induction k1 as [|a k1 IH]; intros [|b k2]; cbn [map].
  - split; [constructor|reflexivity].
  - split; [discriminate|intros H; inversion H].
  - split; [discriminate|intros H; inversion H].
  - split.
    + intros H. injection H as Hab Hk. constructor.
      * now apply sanitize_rune_same.
      * now apply IH.
    + intros H. inversion H as [|? ? ? ? Hab Hk]; subst. f_equal.
      * now apply sanitize_rune_same.
      * now apply IH.
Qed.

(** The keys [a/b], [a:b] and [a_b] share the key [a_b], the state key
    [_daemon] is left as it is, and a rune outside ASCII counts as one
    character. *)
Remark sanitizeKey_examples :
  sanitizeKey (runes "a/b") = runes "a_b" /\
  sanitizeKey (runes "a:b") = runes "a_b" /\
  sanitizeKey (runes "a_b") = runes "a_b" /\
  sanitizeKey (runes "_daemon") = runes "_daemon" /\
  sanitizeKey (runes "profile-" ++ [0x00e9; 0xfffd]) = runes "profile-__".
Proof. repeat split; vm_compute; reflexivity. Qed.
